(** * WordPiece: trainer and tokenizer of [WordPiece.py]

    A shallow embedding of the two classes of the module, [WordPieceTrainer]
    and [WordPieceTokenizer], together with the Python builtins they call
    ([str.split], [str.join], [str.replace], list indexing, [Counter]),
    followed by the properties of the training loop, of merge selection and
    of encoding/decoding.

    Conventions of the embedding:
    - a Python [str] is a list of characters; characters are the code points
      0..255 ([ascii]);
    - a Python [int] is a [Z]; positions inside a word are [nat];
    - a [dict]/[Counter] whose iteration order is observed is an
      insertion-ordered association list; [token2idx], which is only looked
      up, is a [gmap];
    - a call either returns, raises, or is cut off by the fuel of a [while]
      loop ([outcome]);
    - the iteration order of a Python [set] is unspecified: it is a
      parameter ([SetOrder]) of everything that depends on it;
    - writing and reading the three JSON files is explicit state ([Disk]);
      [print] and the [tqdm] progress bar are transparent. *)

From Stdlib Require Import ZArith List Ascii String Lia Permutation Bool.
From stdpp Require Import gmap.
Import ListNotations.

Abbreviation pystr := (list ascii).

(** String literals of the source. *)
Definition str (s : string) : pystr := list_ascii_of_string s.

(** ** Outcomes of a call *)

Inductive exn : Type :=
| NameError
| AttributeError
| ZeroDivisionError
| KeyError
| IndexError
| FileNotFoundError.

Inductive outcome (A : Type) : Type :=
| Ok (a : A)
| Raise (e : exn)
| OutOfFuel.
Arguments Ok {A} a.
Arguments Raise {A} e.
Arguments OutOfFuel {A}.

#[export] Instance outcome_ret : MRet outcome := fun A a => Ok a.

#[export] Instance outcome_bind : MBind outcome := fun A B k m =>
  match m with
  | Ok a => k a
  | Raise e => Raise e
  | OutOfFuel => OutOfFuel
  end.

(** [while cond: body], cut off after [fuel] iterations. *)
Fixpoint while {St} (fuel : nat) (cond : St -> bool)
    (body : St -> outcome St) (s : St) : outcome St :=
  if cond s then
    match fuel with
    | O => OutOfFuel
    | S n => s' ← body s; while n cond body s'
    end
  else Ok s.

(** ** Builtins on strings and lists *)

Module Py.

(** [str.isspace] on the code points 0..255: TAB..CR, FS..US, space, NEL and
    the no-break space. *)
Definition isspace (c : ascii) : bool :=
  let n := nat_of_ascii c in
  ((9 <=? n) && (n <=? 13)) || ((28 <=? n) && (n <=? 32))
  || (n =? 133) || (n =? 160).

(** [s.split()]: the maximal runs of non-whitespace characters. *)
Fixpoint split_from (cur : pystr) (s : pystr) : list pystr :=
  match s with
  | [] => match cur with [] => [] | _ => [cur] end
  | c :: s' =>
      if isspace c then
        match cur with
        | [] => split_from [] s'
        | _ => cur :: split_from [] s'
        end
      else split_from (cur ++ [c]) s'
  end.

Definition split (s : pystr) : list pystr := split_from [] s.

(** [sep.join(l)]. *)
Fixpoint join (sep : pystr) (l : list pystr) : pystr :=
  match l with
  | [] => []
  | x :: l' =>
      match l' with
      | [] => x
      | _ => x ++ sep ++ join sep l'
      end
  end.

(** [list(s)]: the characters of [s] as one-character strings. *)
Definition chars (s : pystr) : list pystr := map (fun c => [c]) s.

Fixpoint startswith (p s : pystr) : bool :=
  match p, s with
  | [], _ => true
  | a :: p', b :: s' => if decide (a = b) then startswith p' s' else false
  | _ :: _, [] => false
  end.

(** [s.replace(old, new)] for a non-empty [old]: occurrences are replaced
    from the left and do not overlap. [skip] counts the characters of a
    matched occurrence that are still to be passed over. *)
Fixpoint replace_from (old new : pystr) (skip : nat) (s : pystr) : pystr :=
  match s with
  | [] => []
  | c :: s' =>
      match skip with
      | S k => replace_from old new k s'
      | O =>
          if startswith old s
          then new ++ replace_from old new (length old - 1) s'
          else c :: replace_from old new 0 s'
      end
  end.

(** With an empty [old], Python puts [new] before every character and at
    the end. *)
Definition replace (old new s : pystr) : pystr :=
  match old with
  | [] => new ++ concat (map (fun c => c :: new) s)
  | _ => replace_from old new 0 s
  end.

(** [s[start:end]] for [0 <= start <= end]. *)
Definition slice (s : pystr) (start stop : nat) : pystr :=
  firstn (stop - start) (skipn start s).

(** [x in l] on a list. *)
Definition contains {A} `{EqDecision A} (l : list A) (x : A) : bool :=
  bool_decide (x ∈ l).

(** [l[i]]: a negative index counts from the end. *)
Definition getitem {A} (l : list A) (i : Z) : outcome A :=
  let n := Z.of_nat (length l) in
  let j := if (i <? 0)%Z then (i + n)%Z else i in
  if ((0 <=? j)%Z && (j <? n)%Z)%bool then
    match nth_error l (Z.to_nat j) with
    | Some x => Ok x
    | None => Raise IndexError
    end
  else Raise IndexError.

(** [len(l)] as a Python integer. *)
Definition len {A} (l : list A) : Z := Z.of_nat (length l).

(** [nltk.bigrams(seq)]: the pairs of neighbours. *)
Fixpoint bigrams {A} (l : list A) : list (A * A) :=
  match l with
  | [] => []
  | x :: l' =>
      match l' with
      | [] => []
      | y :: _ => (x, y) :: bigrams l'
      end
  end.

End Py.

(** ** Counters

    [collections.Counter] (and [nltk.FreqDist], its subclass): keys are kept
    in the order of their first insertion, which is the order [items()]
    yields them in. A missing key counts 0. *)

Module Counter.
Section Counter.
Context {K : Type} `{EqDecision K}.

Definition t : Type := list (K * Z).

Fixpoint get (c : t) (k : K) : Z :=
  match c with
  | [] => 0
  | (k', v) :: c' => if decide (k = k') then v else get c' k
  end.

(** [c[k] = c.get(k, 0) + v]. *)
Fixpoint add (c : t) (k : K) (v : Z) : t :=
  match c with
  | [] => [(k, v)]
  | (k', v') :: c' =>
      if decide (k = k') then (k', (v' + v)%Z) :: c'
      else (k', v') :: add c' k v
  end.

(** [Counter(seq)]. *)
Definition of_seq (seq : list K) : t :=
  fold_left (fun c x => add c x 1%Z) seq [].

(** [c.update(d)] for a mapping [d]. *)
Definition update (c : t) (d : t) : t :=
  fold_left (fun c kv => add c kv.1 kv.2) d c.
End Counter.
Arguments t K : clear implicits.
End Counter.

(** ** True division of integers

    [a / b] on Python integers is the binary64 number nearest to the exact
    quotient (ties to even). A float is kept as [mant * 2 ^ expo] with a
    53-bit mantissa ([div_pos_nearest]). The exponent range of binary64 is
    not modelled: the operands here are occurrence counts of an in-memory
    corpus. *)

Module Float.

Record t : Type := { mant : Z; expo : Z }.

Definition round_half_even (n d : Z) : Z :=
  let q := (n / d)%Z in
  let r := (n mod d)%Z in
  if (2 * r <? d)%Z then q
  else if (d <? 2 * r)%Z then (q + 1)%Z
  else if Z.even q then q else (q + 1)%Z.

(** [a / (b * 2 ^ e)] as a fraction of integers. *)
Definition scaled (a b e : Z) : Z * Z :=
  if (0 <=? e)%Z then (a, (b * 2 ^ e)%Z) else ((a * 2 ^ (- e))%Z, b).

Definition div_pos (a b : Z) : t :=
  let e0 := (Z.log2 a - Z.log2 b - 52)%Z in
  let '(n0, d0) := scaled a b e0 in
  let e := if (n0 / d0 <? 2 ^ 52)%Z then (e0 - 1)%Z else e0 in
  let '(n, d) := scaled a b e in
  {| mant := round_half_even n d; expo := e |}.

Definition truediv (a b : Z) : outcome t :=
  if (b =? 0)%Z then Raise ZeroDivisionError
  else if (a =? 0)%Z then Ok {| mant := 0; expo := 0 |}
  else
    let f := div_pos (Z.abs a) (Z.abs b) in
    Ok {| mant := Z.sgn a * Z.sgn b * mant f; expo := expo f |}.

Definition ltb (x y : t) : bool :=
  let e := Z.min (expo x) (expo y) in
  (mant x * 2 ^ (expo x - e) <? mant y * 2 ^ (expo y - e))%Z.

End Float.

(** ** Sets and files *)

(** [list(s)] for a set [s] given by its elements: some enumeration without
    repetition. *)
Class SetOrder : Type := {
  set_to_list : list pystr -> list pystr;
  set_to_list_NoDup : forall l, NoDup (set_to_list l);
  set_to_list_elem : forall l x, x ∈ set_to_list l <-> x ∈ l
}.

(** The three files under [./tokenizer_data/]; [None] is a file that has
    not been written. *)
Record Disk : Type := {
  valid_symbols_json : option (list pystr);
  idx2token_json : option (list pystr);
  token2idx_json : option (gmap pystr Z)
}.

Definition empty_disk : Disk :=
  {| valid_symbols_json := None; idx2token_json := None;
     token2idx_json := None |}.

(** The loop [for symb in invalid_symbols: text.replace(symb, '<unk>')]:
    strings are immutable and the result of [replace] is dropped, so [text]
    is what it was. *)
Definition discard_replace (invalid_symbols : list pystr) (text : pystr)
    : pystr :=
  fold_left
    (fun text symb => let _ := Py.replace symb (str "<unk>") text in text)
    invalid_symbols text.

(** Truth value of a list. *)
Definition truthy {A} (l : list A) : bool :=
  match l with [] => false | _ => true end.

(** ** [class WordPieceTrainer] *)

Module WordPieceTrainer.

Abbreviation bigram_t := (pystr * pystr)%type.

(** An entry of [word_counts]. *)
Record word_count : Type := { word : list pystr; count : Z }.

(** An entry of [bigram_mi]. *)
Record element : Type := { bigram : bigram_t; mi : Float.t }.

(** The attributes of a trainer. [tokens] does not exist before [fit]; it is
    [[]] until then. *)
Record t : Type := {
  vocab_size : Z;
  valid_symbols : option (list pystr);
  max_symbols : option Z;
  history : list bigram_t;
  tokens : list pystr
}.

Definition __init__ (vocab_size : Z) (valid_symbols : option (list pystr))
    (max_symbols : option Z) : t :=
  {| vocab_size := vocab_size; valid_symbols := valid_symbols;
     max_symbols := max_symbols; history := []; tokens := [] |}.

(** [nltk.FreqDist.most_common(max_symbols)]: the method is taken from the
    class, so [max_symbols] is bound to [self] and no corpus is involved;
    [self.items()] on an integer raises. *)
Definition most_common_of_class (self : Z) : outcome (list (pystr * Z)) :=
  Raise AttributeError.

Section Trainer.
Context `{SetOrder}.

Definition _get_symbols (text : pystr) (max_symbols : option Z) (d : Disk)
    : outcome (list pystr * list pystr * Disk) :=
  '(valid_symbols, invalid_symbols) ←
    match max_symbols with
    | None => Ok (set_to_list (Py.chars text), [])
    | Some n =>
        let all_symbols := Py.chars text in
        valid_symbols ← most_common_of_class n;
        let valid_symbols := map fst valid_symbols in
        Ok (valid_symbols,
            set_to_list
              (filter (fun c => negb (Py.contains valid_symbols c))
                 all_symbols))
    end;
  let valid_symbols :=
    if negb (Py.contains valid_symbols (str "_"))
    then valid_symbols ++ [str "_"] else valid_symbols in
  Ok (valid_symbols, invalid_symbols,
      {| valid_symbols_json := Some valid_symbols;
         idx2token_json := idx2token_json d;
         token2idx_json := token2idx_json d |}).

Definition _split_word (word : pystr) : list pystr :=
  let word :=
    Py.replace (str "< u n k >") (str "<unk>")
      (Py.join (str " ") (Py.chars word)) in
  [str "_"] ++ Py.split word.

Definition _count_multiply {K} `{EqDecision K} (seq : list K) (count : Z)
    : Counter.t K :=
  map (fun kv => (kv.1, (kv.2 * count)%Z)) (Counter.of_seq seq).

Definition _count_ngrams (word_counts : list word_count)
    : Counter.t pystr * Counter.t bigram_t :=
  fold_left
    (fun acc element =>
       (Counter.update acc.1
          (_count_multiply (word element) (count element)),
        Counter.update acc.2
          (_count_multiply (Py.bigrams (word element)) (count element))))
    word_counts ([], []).

(** The body of the [for] loop of [_get_independed_bigrams]; the [else]
    branch is the [break]. *)
Fixpoint independed_scan (bigram_mi : list element)
    (bigrams_to_merge : list bigram_t) (unique_unigrams : list pystr)
    (new_tokens : list pystr) : list bigram_t * list pystr :=
  match bigram_mi with
  | [] => (bigrams_to_merge, new_tokens)
  | element :: rest =>
      let bigram := bigram element in
      if negb (Py.contains unique_unigrams bigram.1)
         && negb (Py.contains unique_unigrams bigram.2)
      then
        independed_scan rest (bigrams_to_merge ++ [bigram])
          (unique_unigrams ++ [bigram.1; bigram.2])
          (new_tokens ++ [bigram.1 ++ bigram.2])
      else (bigrams_to_merge, new_tokens)
  end.

Definition _get_independed_bigrams (bigram_mi : list element)
    : list bigram_t * list pystr :=
  independed_scan bigram_mi [] [] [].

Definition _merge_bigrams_in_word (word : list pystr)
    (bigrams_to_merge : list bigram_t) : list pystr :=
  let word := Py.join (str " ") word in
  let word :=
    fold_left
      (fun word bigram =>
         Py.replace (bigram.1 ++ str " " ++ bigram.2)
           (bigram.1 ++ bigram.2) word)
      bigrams_to_merge word in
  Py.split word.

(** [bigram_mi.sort(key=lambda x: x['mi'], reverse=True)]: descending and
    stable. *)
Fixpoint insert_desc (x : element) (l : list element) : list element :=
  match l with
  | [] => [x]
  | y :: l' =>
      if Float.ltb (mi y) (mi x) then x :: l else y :: insert_desc x l'
  end.

Definition sort_by_mi (l : list element) : list element :=
  fold_left (fun acc x => insert_desc x acc) l [].

Definition score (unigram_counts : Counter.t pystr)
    (entry : bigram_t * Z) : outcome element :=
  let '(bigram, count) := entry in
  mi ← Float.truediv count
         (Counter.get unigram_counts bigram.1
          * Counter.get unigram_counts bigram.2)%Z;
  Ok {| bigram := bigram; mi := mi |}.

(** The state of the [while] loop of [fit]: the trainer, [word_counts] and
    [num_tokens]. *)
Record loop_state : Type := {
  self : t;
  word_counts : list word_count;
  num_tokens : Z
}.

Definition loop_cond (st : loop_state) : bool :=
  (num_tokens st <? vocab_size (self st))%Z.

(** The first half of a round: counting, scoring, sorting and selecting
    the merges. *)
Definition select_merges (word_counts : list word_count)
    : outcome (list bigram_t * list pystr) :=
  let '(unigram_counts, bigram_counts) := _count_ngrams word_counts in
  bigram_mi ← mapM (score unigram_counts) bigram_counts;
  let bigram_mi := sort_by_mi bigram_mi in
  Ok (_get_independed_bigrams bigram_mi).

(** One round. [self.tokens] and [self.valid_symbols] are the same list
    object when the symbols were derived from the text, so [extend] shows
    in both. *)
Definition round (st : loop_state) : outcome loop_state :=
  '(bigrams_to_merge, new_tokens) ← select_merges (word_counts st);
  let tokens := tokens (self st) ++ new_tokens in
  let self :=
    {| vocab_size := vocab_size (self st);
       valid_symbols := Some tokens;
       max_symbols := max_symbols (self st);
       history := history (self st) ++ bigrams_to_merge;
       tokens := tokens |} in
  let word_counts :=
    map (fun element =>
           {| word := _merge_bigrams_in_word (word element)
                        bigrams_to_merge;
              count := count element |})
      (word_counts st) in
  Ok {| self := self; word_counts := word_counts;
        num_tokens := Py.len tokens |}.

(** [if tok not in self.tokens: self.tokens = [tok] + self.tokens]. *)
Definition prepend_if_absent (tok : pystr) (tokens : list pystr)
    : list pystr :=
  if negb (Py.contains tokens tok) then [tok] ++ tokens else tokens.

Definition add_reserved (tokens : list pystr) : list pystr :=
  let tokens := prepend_if_absent (str "<unk>") tokens in
  let tokens := prepend_if_absent (str "<mask>") tokens in
  let tokens := prepend_if_absent (str "<sep>") tokens in
  let tokens := prepend_if_absent (str "<cls>") tokens in
  prepend_if_absent (str "<pad>") tokens.

(** [{token: number for number, token in enumerate(tokens)}]. *)
Definition enumerate_from {A} (n : Z) (l : list A) : list (Z * A) :=
  (fix go n l :=
     match l with [] => [] | x :: l' => (n, x) :: go (n + 1)%Z l' end) n l.

Definition make_token2ix (tokens : list pystr) : gmap pystr Z :=
  fold_left (fun m nt => <[nt.2 := nt.1]> m) (enumerate_from 0 tokens) ∅.

(** [fit] up to the end of its [while] loop: the symbols, the word list
    and the merge rounds. [invalid_symbols] is a local name of [fit],
    [None] while it is unbound. *)
Definition train (fuel : nat) (trainer : t) (text : pystr) (d : Disk)
    : outcome (loop_state * Disk) :=
  '(symbols, invalid_symbols, d) ←
    match valid_symbols trainer with
    | None =>
        '(valid, invalid, d) ← _get_symbols text (max_symbols trainer) d;
        Ok (valid, Some invalid, d)
    | Some valid => Ok (valid, None, d)
    end;
  let trainer :=
    {| vocab_size := vocab_size trainer;
       valid_symbols := Some symbols;
       max_symbols := max_symbols trainer;
       history := history trainer;
       tokens := symbols |} in
  text ←
    match invalid_symbols with
    | None => Raise NameError
    | Some invalid_symbols =>
        Ok (if negb (truthy invalid_symbols)
            then discard_replace invalid_symbols text else text)
    end;
  let word_counts :=
    map (fun wc => {| word := _split_word wc.1; count := wc.2 |})
      (Counter.of_seq (Py.split text)) in
  st ← while fuel loop_cond round
         {| self := trainer; word_counts := word_counts;
            num_tokens := Py.len (tokens trainer) |};
  Ok (st, d).

(** [fit]: the returned list, the trainer afterwards and the files. *)
Definition fit (fuel : nat) (trainer : t) (text : pystr) (d : Disk)
    : outcome (list pystr * t * Disk) :=
  '(st, d) ← train fuel trainer text d;
  let trainer := self st in
  let tokens := add_reserved (tokens trainer) in
  let token2ix := make_token2ix tokens in
  Ok (tokens,
      {| vocab_size := vocab_size trainer;
         valid_symbols := valid_symbols trainer;
         max_symbols := max_symbols trainer;
         history := history trainer;
         tokens := tokens |},
      {| valid_symbols_json := valid_symbols_json d;
         idx2token_json := Some tokens;
         token2idx_json := Some token2ix |}).

End Trainer.
End WordPieceTrainer.

(** ** [class WordPieceTokenizer] *)

Module WordPieceTokenizer.

Record t : Type := {
  valid_symbols : list pystr;
  idx2token : list pystr;
  token2idx : gmap pystr Z
}.

Definition read {A} (file : option A) : outcome A :=
  match file with
  | Some content => Ok content
  | None => Raise FileNotFoundError
  end.

Definition __init__ (d : Disk) : outcome t :=
  valid_symbols ← read (valid_symbols_json d);
  idx2token ← read (idx2token_json d);
  token2idx ← read (token2idx_json d);
  Ok {| valid_symbols := valid_symbols; idx2token := idx2token;
        token2idx := token2idx |}.

(** The variables of the [while] loop of [_tokenize_word]. *)
Record seg_state : Type := {
  cur_output : list pystr;
  start : nat;
  stop : nat  (* [end] in the source *)
}.

Section Tokenizer.
Context `{SetOrder}.
Variable self : t.

Definition seg_cond (word : pystr) (st : seg_state) : bool :=
  (start st <? length word) && (start st <? stop st).

Definition seg_body (word : pystr) (st : seg_state) : outcome seg_state :=
  let piece := Py.slice word (start st) (stop st) in
  if Py.contains (idx2token self) piece then
    Ok {| cur_output := cur_output st ++ [piece];
          start := stop st;
          stop := length word |}
  else
    Ok {| cur_output := cur_output st;
          start := start st;
          stop := stop st - 1 |}.

(** Iterations the loop is allowed; [seg_loop_total] shows they are
    never used up. *)
Definition seg_fuel (word : pystr) : nat :=
  (length word + 1) * (length word + 1).

Definition seg_loop (word : pystr) : outcome seg_state :=
  while (seg_fuel word) (seg_cond word) (seg_body word)
    {| cur_output := []; start := 0; stop := length word |}.

Definition _tokenize_word (word : pystr) : outcome (list pystr) :=
  st ← seg_loop word;
  Ok (if start st <? length word
      then cur_output st ++ [str "<unk>"]
      else cur_output st).

Definition lookup_token (token : pystr) : outcome Z :=
  match token2idx self !! token with
  | Some idx => Ok idx
  | None => Raise KeyError
  end.

(** [tqdm(words)] yields the elements of [words]. *)
Definition tqdm {A} (l : list A) : list A := l.

Definition encode (text : pystr) (display_progress_bar : bool)
    : outcome (list Z) :=
  let all_symbols := Py.chars text in
  let invalid_symbols :=
    set_to_list
      (filter (fun c => negb (Py.contains (valid_symbols self) c))
         all_symbols) in
  let text :=
    if negb (truthy invalid_symbols)
    then discard_replace invalid_symbols text else text in
  let words := map (fun word => str "_" ++ word) (Py.split text) in
  pieces ←
    (if display_progress_bar
     then mapM _tokenize_word (tqdm words)
     else mapM _tokenize_word words);
  let output := concat pieces in
  mapM lookup_token output.

Definition decode (sequence : list Z) : outcome pystr :=
  pieces ← mapM (Py.getitem (idx2token self)) sequence;
  let text := Py.join [] pieces in
  Ok (Py.replace (str "_") (str " ") text).

End Tokenizer.
End WordPieceTokenizer.

(** * Properties *)

(** ** Vocabulary of the statements *)

(** A concrete iteration order for sets, used to run the code on examples:
    the elements in the order of their last occurrence. *)
#[export] Instance remove_dups_order : SetOrder :=
  {| set_to_list := remove_dups;
     set_to_list_NoDup := NoDup_remove_dups;
     set_to_list_elem := fun l x => elem_of_remove_dups l x |}.

(** Two outcomes of the same kind, with related results. *)
Definition outcome_rel {A} (R : A -> A -> Prop) (o1 o2 : outcome A) : Prop :=
  match o1, o2 with
  | Ok a, Ok b => R a b
  | Raise e1, Raise e2 => e1 = e2
  | OutOfFuel, OutOfFuel => True
  | _, _ => False
  end.

(** A token: non-empty and free of whitespace, as every piece returned by
    [split]. *)
Definition token_ok (w : pystr) : Prop :=
  w <> [] /\ Forall (fun c => Py.isspace c = false) w.

(** The tokens of a list of bigrams, as [unique_unigrams] collects
    them. *)
Definition unigrams_of (bs : list (pystr * pystr)) : list pystr :=
  concat (map (fun b => [b.1; b.2]) bs).

(** [''.join(bigram)]. *)
Definition merged_token (b : pystr * pystr) : pystr := b.1 ++ b.2.

(** Each bigram of [acc] is free of the tokens in [used] and of the
    tokens of the bigrams before it. *)
Fixpoint independent_from (used : list pystr) (acc : list (pystr * pystr))
    : Prop :=
  match acc with
  | [] => True
  | b :: acc' =>
      (b.1 ∉ used) /\ (b.2 ∉ used)
      /\ independent_from (used ++ [b.1; b.2]) acc'
  end.

(** The bigram at which the scan stops, if any, has a token in [used]. *)
Definition conflicting (used : list pystr) (rest : list (pystr * pystr))
    : Prop :=
  match rest with
  | [] => True
  | b :: _ => b.1 ∈ used \/ b.2 ∈ used
  end.

(** [t] is the longest prefix of [rest] in the vocabulary. *)
Definition longest_match (self : WordPieceTokenizer.t) (rest t : pystr)
    : Prop :=
  t ∈ WordPieceTokenizer.idx2token self /\ t <> [] /\ t `prefix_of` rest
  /\ forall p,
       p `prefix_of` rest -> p ∈ WordPieceTokenizer.idx2token self ->
       length p <= length t.

(** Every piece is the longest match at the position where it starts. *)
Definition greedy (self : WordPieceTokenizer.t) (word : pystr)
    (pieces : list pystr) : Prop :=
  forall pre t post,
    pieces = pre ++ t :: post ->
    longest_match self (drop (length (concat pre)) word) t.

(** The invariant of the loop of [_tokenize_word]: the pieces found spell
    the word up to [start], each is a longest match, and no slice from
    [start] that ends after [stop] is in the vocabulary. *)
Definition seg_inv (self : WordPieceTokenizer.t) (word : pystr)
    (st : WordPieceTokenizer.seg_state) : Prop :=
  WordPieceTokenizer.start st <= WordPieceTokenizer.stop st <= length word
  /\ concat (WordPieceTokenizer.cur_output st)
     = take (WordPieceTokenizer.start st) word
  /\ (forall k,
         WordPieceTokenizer.stop st < k <= length word ->
         Py.slice word (WordPieceTokenizer.start st) k
         ∉ WordPieceTokenizer.idx2token self)
  /\ greedy self word (WordPieceTokenizer.cur_output st).

(** The vocabulary files agree: every token of the list, and ['<unk>'], has
    an index. [fit_vocab_indexed] shows it for the files [fit] writes. *)
Definition vocab_indexed (self : WordPieceTokenizer.t) : Prop :=
  Forall (fun t => is_Some (WordPieceTokenizer.token2idx self !! t))
    (str "<unk>" :: WordPieceTokenizer.idx2token self).

(** The index of a token of the list leads back to the token. *)
Definition vocab_inverse (self : WordPieceTokenizer.t) : Prop :=
  Forall
    (fun t =>
       exists i, WordPieceTokenizer.token2idx self !! t = Some i
                 /\ Py.getitem (WordPieceTokenizer.idx2token self) i = Ok t)
    (WordPieceTokenizer.idx2token self).

(** The loop of [_tokenize_word] consumes the whole word: the ['<unk>']
    branch is not taken. *)
Definition segments_fully (self : WordPieceTokenizer.t) (word : pystr)
    : bool :=
  match WordPieceTokenizer.seg_loop self word with
  | Ok st => negb (WordPieceTokenizer.start st <? length word)
  | _ => false
  end.

(** What [replace('_', ' ')] does to a character. *)
Definition marker_to_space (c : ascii) : ascii :=
  if decide (c = "_"%char) then " "%char else c.

(** The reserved tokens, in the order of the finished list. *)
Definition reserved : list pystr :=
  [str "<pad>"; str "<cls>"; str "<sep>"; str "<mask>"; str "<unk>"].

(** The words of a state hold tokens, as the words [fit] builds do. *)
Definition words_ok (st : WordPieceTrainer.loop_state) : Prop :=
  Forall (fun wc => Forall token_ok (WordPieceTrainer.word wc))
    (WordPieceTrainer.word_counts st).

(** [[r]] when [r] is not among [tokens]. *)
Definition if_absent (tokens : list pystr) (r : pystr) : list pystr :=
  if Py.contains tokens r then [] else [r].

(** [num_tokens] is the length of the token list and the target does not
    move. *)
Definition loop_inv (target : Z) (st : WordPieceTrainer.loop_state) : Prop :=
  WordPieceTrainer.num_tokens st
  = Py.len (WordPieceTrainer.tokens (WordPieceTrainer.self st))
  /\ WordPieceTrainer.vocab_size (WordPieceTrainer.self st) = target.

(** Two states that differ in the order of their tokens only. *)
Definition same_up_to_order (s1 s2 : WordPieceTrainer.loop_state) : Prop :=
  WordPieceTrainer.word_counts s1 = WordPieceTrainer.word_counts s2
  /\ WordPieceTrainer.num_tokens s1 = WordPieceTrainer.num_tokens s2
  /\ WordPieceTrainer.vocab_size (WordPieceTrainer.self s1)
     = WordPieceTrainer.vocab_size (WordPieceTrainer.self s2)
  /\ WordPieceTrainer.history (WordPieceTrainer.self s1)
     = WordPieceTrainer.history (WordPieceTrainer.self s2)
  /\ WordPieceTrainer.tokens (WordPieceTrainer.self s1)
     ≡ₚ WordPieceTrainer.tokens (WordPieceTrainer.self s2).

(** The states in which the loop is caught: below the target, with no
    merge to select. *)
Definition stalled (st : WordPieceTrainer.loop_state) : Prop :=
  words_ok st
  /\ (WordPieceTrainer.num_tokens st
      < WordPieceTrainer.vocab_size (WordPieceTrainer.self st))%Z
  /\ (Py.len (WordPieceTrainer.tokens (WordPieceTrainer.self st))
      < WordPieceTrainer.vocab_size (WordPieceTrainer.self st))%Z
  /\ exists new_tokens,
       WordPieceTrainer.select_merges (WordPieceTrainer.word_counts st)
       = Ok ([], new_tokens).

(** A call that is still running after any number of rounds of its loop,
    in whatever order sets are listed. *)
Definition never_returns {A} (run : SetOrder -> nat -> outcome A) : Prop :=
  forall (O : SetOrder) (fuel : nat), run O fuel = OutOfFuel.

(** Train on [text] with target size [target], listing sets in
    [remove_dups_order], and load a tokenizer from the files. *)
Definition trained (text : string) (target : Z)
    : outcome WordPieceTokenizer.t :=
  r ← @WordPieceTrainer.fit remove_dups_order 10
        (WordPieceTrainer.__init__ target None None) (str text) empty_disk;
  WordPieceTokenizer.__init__ r.2.

(** The vocabulary of the text ["cat"] with no merge. *)
Definition cat_tokenizer : WordPieceTokenizer.t :=
  let vocab :=
    [str "<pad>"; str "<cls>"; str "<sep>"; str "<mask>"; str "<unk>";
     str "c"; str "a"; str "t"; str "_"] in
  {| WordPieceTokenizer.valid_symbols := [str "c"; str "a"; str "t"; str "_"];
     WordPieceTokenizer.idx2token := vocab;
     WordPieceTokenizer.token2idx := WordPieceTrainer.make_token2ix vocab |}.

(** A state after the only possible merge of the text ["a"]. *)
Definition stalled_state : WordPieceTrainer.loop_state :=
  let tokens := [str "a"; str "_"; str "_a"] in
  {| WordPieceTrainer.self :=
       {| WordPieceTrainer.vocab_size := 10;
          WordPieceTrainer.valid_symbols := Some tokens;
          WordPieceTrainer.max_symbols := None;
          WordPieceTrainer.history := [(str "_", str "a")];
          WordPieceTrainer.tokens := tokens |};
     WordPieceTrainer.word_counts :=
       [{| WordPieceTrainer.word := [str "_a"];
           WordPieceTrainer.count := 1 |}];
     WordPieceTrainer.num_tokens := 3 |}.

(** Following the words of the specification: wherever [left] and [right]
    stand next to each other as elements of the sequence, the pair is
    replaced by the merged token, from the left and without overlap. *)
Fixpoint merge_adjacent_spec (left right : pystr) (word : list pystr)
    : list pystr :=
  match word with
  | [] => []
  | a :: tl =>
      match tl with
      | [] => [a]
      | b :: rest =>
          if decide (a = left /\ b = right)
          then (left ++ right) :: merge_adjacent_spec left right rest
          else a :: merge_adjacent_spec left right tl
      end
  end.

(** The characters of [s] that are not whitespace. *)
Definition unspace (s : pystr) : pystr :=
  filter (fun c => Py.isspace c = false) s.

(** Occurrences of [k] in [seq], as a Python integer. *)
Definition occurrences {K} `{EqDecision K} (seq : list K) (k : K) : Z :=
  Z.of_nat (length (filter (fun x => x = k) seq)).

(** The sum of the values stored under [k] in an association list. *)
Fixpoint total {K} `{EqDecision K} (d : list (K * Z)) (k : K) : Z :=
  match d with
  | [] => 0
  | (k', v) :: d' => ((if decide (k' = k) then v else 0) + total d' k)%Z
  end.

(** The occurrences of [k] in the words, each weighted by the count of its
    word; [part] selects what is counted in a word. *)
Fixpoint weighted {K} `{EqDecision K}
    (part : list pystr -> list K)
    (word_counts : list WordPieceTrainer.word_count) (k : K) : Z :=
  match word_counts with
  | [] => 0
  | wc :: rest =>
      (occurrences (part (WordPieceTrainer.word wc)) k
       * WordPieceTrainer.count wc
       + weighted part rest k)%Z
  end.

(** Every word has been seen at least once. *)
Definition counts_positive (word_counts : list WordPieceTrainer.word_count)
    : Prop :=
  Forall (fun wc => (0 < WordPieceTrainer.count wc)%Z) word_counts.

(** [words] are the counted words of the text; the entries of [word_counts]
    spell them, behind the marker, in tokens, and keep their counts. *)
Definition spells (words : list (pystr * Z))
    (word_counts : list WordPieceTrainer.word_count) : Prop :=
  Forall2
    (fun kv wc =>
       concat (WordPieceTrainer.word wc) = str "_" ++ kv.1
       /\ Forall token_ok (WordPieceTrainer.word wc)
       /\ WordPieceTrainer.count wc = kv.2)
    words word_counts.

(** [b] joins two tokens that stand next to each other in the spelling of
    a marked word. *)
Definition joins_within (words : list (pystr * Z)) (b : pystr * pystr)
    : Prop :=
  token_ok b.1 /\ token_ok b.2
  /\ exists kv pre post,
       kv ∈ words /\ str "_" ++ kv.1 = pre ++ merged_token b ++ post.

(** The states of the merge loop of a run that started from the symbols
    [symbols], the history [hist0] and the counted words [words]. *)
Definition train_inv (symbols : list pystr) (hist0 : list (pystr * pystr))
    (words : list (pystr * Z)) (st : WordPieceTrainer.loop_state) : Prop :=
  exists new,
    WordPieceTrainer.history (WordPieceTrainer.self st) = hist0 ++ new
    /\ WordPieceTrainer.tokens (WordPieceTrainer.self st)
       = symbols ++ map merged_token new
    /\ WordPieceTrainer.num_tokens st
       = Py.len (WordPieceTrainer.tokens (WordPieceTrainer.self st))
    /\ spells words (WordPieceTrainer.word_counts st)
    /\ Forall (joins_within words) new.

(** The state in which [fit] enters its loop. *)
Definition start_state (trainer : WordPieceTrainer.t)
    (symbols : list pystr) (text : pystr) : WordPieceTrainer.loop_state :=
  {| WordPieceTrainer.self :=
       {| WordPieceTrainer.vocab_size := WordPieceTrainer.vocab_size trainer;
          WordPieceTrainer.valid_symbols := Some symbols;
          WordPieceTrainer.max_symbols :=
            WordPieceTrainer.max_symbols trainer;
          WordPieceTrainer.history := WordPieceTrainer.history trainer;
          WordPieceTrainer.tokens := symbols |};
     WordPieceTrainer.word_counts :=
       map (fun wc =>
              {| WordPieceTrainer.word := WordPieceTrainer._split_word wc.1;
                 WordPieceTrainer.count := wc.2 |})
         (Counter.of_seq (Py.split text));
     WordPieceTrainer.num_tokens := Py.len symbols |}.

Example split_example :
  Py.split (str "  ab  c d ") = [str "ab"; str "c"; str "d"].
Proof. reflexivity. Qed.

Example replace_example :
  Py.replace (str "a a") (str "aa") (str "a a a a a") = str "aa aa a".
Proof. reflexivity. Qed.

Example getitem_negative : Py.getitem [10%Z; 20%Z; 30%Z] (-1) = Ok 30%Z.
Proof. reflexivity. Qed.

(** [1 / 3], [2 / 3], [1 / 10] and [7 / 2] as binary64 numbers. *)
Example truediv_examples :
  Float.truediv 1 3
  = Ok {| Float.mant := 6004799503160661; Float.expo := -54 |}
  /\ Float.truediv 2 3
     = Ok {| Float.mant := 6004799503160661; Float.expo := -53 |}
  /\ Float.truediv 1 10
     = Ok {| Float.mant := 7205759403792794; Float.expo := -56 |}
  /\ Float.truediv 7 2
     = Ok {| Float.mant := 7881299347898368; Float.expo := -51 |}
  /\ Float.truediv 1 0 = Raise ZeroDivisionError.
Proof. repeat split. Qed.

(** Quotients closer than half a unit in the last place are the same
    float: [(2 ^ 53 + 1) / 2 ^ 53] is [1.0]. *)
Example truediv_tie :
  (f ← Float.truediv (2 ^ 53 + 1) (2 ^ 53);
   g ← Float.truediv 1 1;
   Ok (Float.ltb g f, Float.ltb f g))
  = Ok (false, false).
Proof. reflexivity. Qed.

(** The word ["_aa"] with ["_a"] and ["a"] in the vocabulary, and the
    indices of ['_', 'c', 'a', 't']. *)
Example tokenize_word_example :
  WordPieceTokenizer._tokenize_word
    {| WordPieceTokenizer.valid_symbols := [];
       WordPieceTokenizer.idx2token := [str "a"; str "_a"];
       WordPieceTokenizer.token2idx := ∅ |}
    (str "_aa")
  = Ok [str "_a"; str "a"].
Proof. reflexivity. Qed.

Example decode_example :
  WordPieceTokenizer.decode cat_tokenizer [8; 5; 6; 7]%Z = Ok (str " cat").
Proof. reflexivity. Qed.

(** Replace a closed subterm of the goal by its value. *)
Ltac evaluate t :=
  let v := fresh "v" in
  let E := fresh "E" in
  remember t as v eqn:E; vm_compute in E; subst v.

(** ** The [while] loop *)

Section WhileFacts.
Context {St : Type} (cond : St -> bool) (body : St -> outcome St).

Lemma while_unfold fuel s :
  while fuel cond body s =
  if cond s then
    match fuel with
    | O => OutOfFuel
    | S n => s' ← body s; while n cond body s'
    end
  else Ok s.
Proof. destruct fuel; reflexivity. Qed.

(** An invariant of the body holds when the loop is left, and the loop is
    left only with a false condition. *)
Lemma while_invariant (P : St -> Prop) :
  (forall s s', P s -> cond s = true -> body s = Ok s' -> P s') ->
  forall fuel s s',
    P s -> while fuel cond body s = Ok s' -> P s' /\ cond s' = false.
Proof.
  intros Hstep fuel. induction fuel as [|n IH]; intros s s' HP Hrun;
    rewrite while_unfold in Hrun; destruct (cond s) eqn:Hc;
    try discriminate.
  - injection Hrun as <-. auto.
  - destruct (body s) as [s1| |] eqn:Hb; try discriminate.
    apply (IH s1 s'); [eapply Hstep; eauto | exact Hrun].
  - injection Hrun as <-. auto.
Qed.

(** A body that never fails and decreases a measure leaves the loop
    within as many iterations as the measure says. *)
Lemma while_terminates (m : St -> nat) :
  (forall s, cond s = true -> exists s', body s = Ok s' /\ m s' < m s) ->
  forall fuel s, m s <= fuel -> exists s', while fuel cond body s = Ok s'.
Proof.
  intros Hstep fuel. induction fuel as [|n IH]; intros s Hm;
    rewrite while_unfold; destruct (cond s) eqn:Hc; eauto.
  - destruct (Hstep s Hc) as (s1 & _ & Hlt). lia.
  - destruct (Hstep s Hc) as (s1 & Hb & Hlt). rewrite Hb. simpl.
    apply IH. lia.
Qed.

(** A set of states the body maps into itself and on which the condition
    holds is never left. *)
Lemma while_stuck (P : St -> Prop) :
  (forall s, P s -> cond s = true /\ exists s', body s = Ok s' /\ P s') ->
  forall fuel s, P s -> while fuel cond body s = OutOfFuel.
Proof.
  intros Hstep fuel. induction fuel as [|n IH]; intros s HP;
    rewrite while_unfold; destruct (Hstep s HP) as (-> & s1 & Hb & HP1).
  - reflexivity.
  - rewrite Hb. simpl. apply IH, HP1.
Qed.

(** Two runs from related states stay related. *)
Lemma while_related (R : St -> St -> Prop) :
    (forall s1 s2, R s1 s2 -> cond s1 = cond s2) ->
    (forall s1 s2, R s1 s2 -> outcome_rel R (body s1) (body s2)) ->
    forall fuel s1 s2,
      R s1 s2 ->
      outcome_rel R (while fuel cond body s1) (while fuel cond body s2).
Proof.
    intros Hc Hb fuel. induction fuel as [|n IH]; intros s1 s2 HR;
      rewrite !while_unfold, <- (Hc s1 s2 HR); destruct (cond s1);
      simpl; auto.
    specialize (Hb s1 s2 HR).
    destruct (body s1), (body s2); simpl in *; try done; auto.
Qed.
End WhileFacts.

(** ** Builtins *)

Section PyFacts.

Lemma contains_true {A} `{EqDecision A} (l : list A) x :
  Py.contains l x = true <-> x ∈ l.
Proof. unfold Py.contains. apply bool_decide_eq_true. Qed.

Lemma contains_false {A} `{EqDecision A} (l : list A) x :
  Py.contains l x = false <-> x ∉ l.
Proof. unfold Py.contains. apply bool_decide_eq_false. Qed.

Lemma discard_replace_id invalid text : discard_replace invalid text = text.
Proof.
  unfold discard_replace. induction invalid as [|symb l IH]; simpl; auto.
Qed.

Lemma join_nil l : Py.join [] l = concat l.
Proof.
  induction l as [|x l IH]; simpl; [reflexivity|].
  destruct l as [|y l]; [simpl; now rewrite app_nil_r|].
  now rewrite IH.
Qed.

Lemma join_cons sep x y l :
  Py.join sep (x :: y :: l) = x ++ sep ++ Py.join sep (y :: l).
Proof. reflexivity. Qed.

(** Replacing a one-character string by another maps over the
    characters. *)
Lemma replace_char a b s :
  Py.replace [a] [b] s = map (fun c => if decide (c = a) then b else c) s.
Proof.
  unfold Py.replace. induction s as [|c s IH]; simpl; [reflexivity|].
  destruct (decide (a = c)) as [->|Hne].
  - rewrite decide_True by reflexivity. simpl. now rewrite IH.
  - rewrite decide_False by congruence. now rewrite IH.
Qed.

Lemma split_from_run w cur s :
  Forall (fun c => Py.isspace c = false) w ->
  Py.split_from cur (w ++ s) = Py.split_from (cur ++ w) s.
Proof.
  revert cur. induction w as [|c w IH]; intros cur Hw; simpl.
  - now rewrite app_nil_r.
  - inversion Hw as [|? ? Hc Hw']; subst. rewrite Hc, IH by assumption.
    now rewrite <- app_assoc.
Qed.

Lemma split_from_space cur s :
  cur <> [] ->
  Py.split_from cur (str " " ++ s) = cur :: Py.split_from [] s.
Proof. destruct cur; [contradiction | reflexivity]. Qed.

Lemma split_join ws :
  Forall token_ok ws -> Py.split (Py.join (str " ") ws) = ws.
Proof.
  unfold Py.split. induction ws as [|w ws IH]; intros Hws;
    [reflexivity|].
  inversion Hws as [|? ? [Hne Hw] Hws']; subst.
  destruct ws as [|w' ws].
  - simpl. rewrite <- (app_nil_r w) at 1.
    rewrite split_from_run by assumption.
    simpl. destruct w; [contradiction | reflexivity].
  - rewrite join_cons, split_from_run by assumption.
    rewrite app_nil_l, split_from_space by assumption.
    now rewrite IH.
Qed.

Lemma split_from_token_ok cur s :
  Forall (fun c => Py.isspace c = false) cur ->
  Forall token_ok (Py.split_from cur s).
Proof.
  revert cur. induction s as [|c s IH]; intros cur Hcur; simpl.
  - destruct cur; constructor; [|constructor].
    split; [discriminate | assumption].
  - destruct (Py.isspace c) eqn:Hc.
    + destruct cur as [|a cur].
      * apply IH. constructor.
      * constructor; [split; [discriminate | assumption]|].
        apply IH. constructor.
    + apply IH. apply Forall_app. split; [assumption|].
      constructor; [assumption | constructor].
Qed.

Lemma split_token_ok s : Forall token_ok (Py.split s).
Proof. apply split_from_token_ok. constructor. Qed.

Lemma getitem_Ok {A} (l : list A) i x :
  Py.getitem l i = Ok x <->
  ((0 <= i < Py.len l)%Z /\ nth_error l (Z.to_nat i) = Some x)
  \/ ((- Py.len l <= i < 0)%Z
      /\ nth_error l (Z.to_nat (i + Py.len l)) = Some x).
Proof.
  unfold Py.getitem, Py.len. set (n := Z.of_nat (length l)).
  destruct (Z.ltb_spec i 0) as [Hneg|Hpos].
  - destruct (Z.leb_spec 0 (i + n)); destruct (Z.ltb_spec (i + n) n);
      simpl; try (exfalso; lia).
    + destruct (nth_error l (Z.to_nat (i + n))).
      * split.
        -- intros [= ->]. right. split; [lia | reflexivity].
        -- intros [[? _]|[_ [= ->]]]; [lia | reflexivity].
      * split; [discriminate|]. intros [[? _]|[_ ?]]; [lia | discriminate].
    + split; [discriminate | intros [[? _]|[? _]]; lia].
  - destruct (Z.leb_spec 0 i); destruct (Z.ltb_spec i n);
      simpl; try (exfalso; lia).
    + destruct (nth_error l (Z.to_nat i)).
      * split.
        -- intros [= ->]. left. split; [lia | reflexivity].
        -- intros [[_ [= ->]]|[? _]]; [reflexivity | lia].
      * split; [discriminate|]. intros [[_ ?]|[? _]]; [discriminate | lia].
    + split; [discriminate | intros [[? _]|[? _]]; lia].
Qed.

Lemma getitem_Raise {A} (l : list A) i e :
  Py.getitem l i = Raise e <->
  e = IndexError /\ ((i < - Py.len l)%Z \/ (Py.len l <= i)%Z).
Proof.
  unfold Py.getitem, Py.len.
  set (n := Z.of_nat (length l)).
  set (j := if (i <? 0)%Z then (i + n)%Z else i).
  assert (Hj : (0 <= j < n)%Z <-> ~ ((i < - n)%Z \/ (n <= i)%Z)).
  { subst j. destruct (Z.ltb_spec i 0); lia. }
  destruct (Z.leb_spec 0 j); destruct (Z.ltb_spec j n); simpl;
    try (split; [intros [= <-]; split; [reflexivity | lia]
                | intros [-> _]; reflexivity]).
  destruct (nth_error l (Z.to_nat j)) eqn:Hn.
  - split; [discriminate | intros [_ Hi]; lia].
  - apply nth_error_None in Hn. lia.
Qed.

Lemma getitem_not_OutOfFuel {A} (l : list A) i :
  Py.getitem l i <> OutOfFuel.
Proof.
  unfold Py.getitem.
  destruct (_ && _)%bool; [destruct (nth_error _ _)|]; discriminate.
Qed.

End PyFacts.

(** ** True division *)

Section FloatFacts.
Local Open Scope Z_scope.

Lemma round_half_even_spec n d :
  0 <= n -> 0 < d ->
  n / d <= Float.round_half_even n d <= n / d + 1
  /\ 2 * Z.abs (n - Float.round_half_even n d * d) <= d.
Proof.
  intros Hn Hd. unfold Float.round_half_even.
  pose proof (Z.div_mod n d ltac:(lia)) as Hdm.
  pose proof (Z.mod_pos_bound n d Hd) as Hr.
  destruct (Z.ltb_spec (2 * (n mod d)) d);
    [|destruct (Z.ltb_spec d (2 * (n mod d)));
      [|destruct (Z.even (n / d))]];
    split; nia.
Qed.

(** The fraction [scaled a b e] is [a / (b * 2 ^ e)]: lowering [e] by one
    doubles it. *)
Lemma scaled_pos a b e :
  0 < a -> 0 < b -> 0 < (Float.scaled a b e).1 /\ 0 < (Float.scaled a b e).2.
Proof.
  intros Ha Hb. unfold Float.scaled.
  destruct (Z.leb_spec 0 e); simpl.
  - pose proof (Z.pow_pos_nonneg 2 e). nia.
  - pose proof (Z.pow_pos_nonneg 2 (- e)). nia.
Qed.

Lemma scaled_pred a b e :
  (Float.scaled a b (e - 1)).1 * (Float.scaled a b e).2
  = 2 * (Float.scaled a b e).1 * (Float.scaled a b (e - 1)).2.
Proof.
  unfold Float.scaled.
  destruct (Z.leb_spec 0 e); destruct (Z.leb_spec 0 (e - 1)); simpl.
  - assert (Hp : 2 ^ e = 2 * 2 ^ (e - 1)).
    { rewrite <- Z.pow_succ_r by lia. f_equal. lia. }
    rewrite Hp. ring.
  - assert (e = 0) as -> by lia. simpl.
    change (2 ^ (- (0 - 1))) with 2. change (2 ^ 0) with 1. ring.
  - lia.
  - assert (Hp : 2 ^ (- (e - 1)) = 2 * 2 ^ (- e)).
    { rewrite <- Z.pow_succ_r by lia. f_equal. lia. }
    rewrite Hp. ring.
Qed.

(** At the exponent [log2 a - log2 b - 52] the fraction lies between
    [2 ^ 51] and [2 ^ 53]. *)
Lemma scaled_log2 a b :
  0 < a -> 0 < b ->
  let nd := Float.scaled a b (Z.log2 a - Z.log2 b - 52) in
  2 ^ 51 * nd.2 < nd.1 < 2 ^ 53 * nd.2.
Proof.
  intros Ha Hb.
  destruct (Z.log2_spec a Ha) as [Ha1 Ha2].
  destruct (Z.log2_spec b Hb) as [Hb1 Hb2].
  pose proof (Z.log2_nonneg a) as Hla. pose proof (Z.log2_nonneg b) as Hlb.
  set (la := Z.log2 a) in *. set (lb := Z.log2 b) in *.
  unfold Float.scaled. rewrite Z.pow_succ_r in Ha2, Hb2 by assumption.
  destruct (Z.leb_spec 0 (la - lb - 52)) as [He|He]; simpl.
  - assert (Hla' : 2 ^ la = 2 ^ 52 * 2 ^ lb * 2 ^ (la - lb - 52)).
    { rewrite <- !Z.pow_add_r by lia. f_equal. lia. }
    pose proof (Z.pow_pos_nonneg 2 (la - lb - 52) ltac:(lia) He).
    pose proof (Z.pow_pos_nonneg 2 lb ltac:(lia) Hlb).
    change (2 ^ 51) with 2251799813685248.
    change (2 ^ 53) with 9007199254740992.
    change (2 ^ 52) with 4503599627370496 in Hla'.
    nia.
  - assert (Hlb' : 2 ^ la * 2 ^ (- (la - lb - 52)) = 2 ^ 52 * 2 ^ lb).
    { rewrite <- !Z.pow_add_r by lia. f_equal. lia. }
    pose proof (Z.pow_pos_nonneg 2 (- (la - lb - 52)) ltac:(lia) ltac:(lia)).
    pose proof (Z.pow_pos_nonneg 2 lb ltac:(lia) Hlb).
    change (2 ^ 51) with 2251799813685248.
    change (2 ^ 53) with 9007199254740992.
    change (2 ^ 52) with 4503599627370496 in Hlb'.
    nia.
Qed.

(** The quotient of positive integers: the mantissa has 53 bits and the
    float is within half a unit in the last place of [a / b]. *)
Lemma div_pos_nearest a b :
  0 < a -> 0 < b ->
  let f := Float.div_pos a b in
  let nd := Float.scaled a b (Float.expo f) in
  2 ^ 52 <= Float.mant f <= 2 ^ 53
  /\ 2 * Z.abs (nd.1 - Float.mant f * nd.2) <= nd.2.
Proof.
  intros Ha Hb. unfold Float.div_pos.
  pose proof (scaled_log2 a b Ha Hb) as Hrange. cbv zeta in Hrange.
  set (e0 := Z.log2 a - Z.log2 b - 52) in *.
  pose proof (scaled_pos a b e0 Ha Hb) as [Hn0 Hd0].
  pose proof (scaled_pos a b (e0 - 1) Ha Hb) as [Hn1 Hd1].
  pose proof (scaled_pred a b e0) as Hpred.
  destruct (Float.scaled a b e0) as [n0 d0] eqn:E0. simpl in *.
  assert (Hq : (n0 / d0 <? 2 ^ 52) = true <-> n0 < 2 ^ 52 * d0).
  { rewrite Z.ltb_lt. change (2 ^ 52) with 4503599627370496.
    split; intros Hlt.
    - pose proof (Z.mod_pos_bound n0 d0 Hd0).
      pose proof (Z.div_mod n0 d0 ltac:(lia)). nia.
    - apply Z.div_lt_upper_bound; lia. }
  destruct (n0 / d0 <? 2 ^ 52) eqn:Hlt.
  - apply proj1 in Hq. specialize (Hq eq_refl).
    destruct (Float.scaled a b (e0 - 1)) as [n d] eqn:E1. simpl in *.
    assert (Hnd : 2 ^ 52 * d <= n < 2 ^ 53 * d).
    { change (2 ^ 51) with 2251799813685248 in *.
      change (2 ^ 53) with 9007199254740992 in *.
      change (2 ^ 52) with 4503599627370496 in *. nia. }
    destruct (round_half_even_spec n d ltac:(lia) Hd1) as [Hm Herr].
    repeat (rewrite E1; simpl). split; [|exact Herr].
    assert (2 ^ 52 <= n / d < 2 ^ 53).
    { split; [apply Z.div_le_lower_bound | apply Z.div_lt_upper_bound];
        lia. }
    lia.
  - assert (Hge : 2 ^ 52 * d0 <= n0).
    { destruct (Z.lt_ge_cases n0 (2 ^ 52 * d0)) as [Hc|Hc]; [|assumption].
      apply Hq in Hc. discriminate. }
    destruct (round_half_even_spec n0 d0 ltac:(lia) Hd0) as [Hm Herr].
    repeat (rewrite E0; simpl). split; [|exact Herr].
    assert (2 ^ 52 <= n0 / d0 < 2 ^ 53).
    { split; [apply Z.div_le_lower_bound | apply Z.div_lt_upper_bound];
        lia. }
    lia.
Qed.
End FloatFacts.

(** ** Merge selection *)

Section MergeSelection.
Import WordPieceTrainer.

Lemma unigrams_of_app bs cs :
  unigrams_of (bs ++ cs) = unigrams_of bs ++ unigrams_of cs.
Proof. unfold unigrams_of. now rewrite map_app, concat_app. Qed.

Lemma independed_scan_spec bigram_mi merges used new_tokens :
  exists acc rest,
    independed_scan bigram_mi merges used new_tokens
    = (merges ++ acc, new_tokens ++ map merged_token acc)
    /\ map bigram bigram_mi = acc ++ rest
    /\ independent_from used acc
    /\ conflicting (used ++ unigrams_of acc) rest.
Proof.
  revert merges used new_tokens.
  induction bigram_mi as [|el l IH]; intros merges used new_tokens.
  - exists [], []. simpl. now rewrite !app_nil_r.
  - simpl.
    destruct (Py.contains used (bigram el).1) eqn:H1; simpl.
    { exists [], (bigram el :: map bigram l). simpl.
      rewrite !app_nil_r. repeat split.
      left. now apply contains_true. }
    destruct (Py.contains used (bigram el).2) eqn:H2; simpl.
    { exists [], (bigram el :: map bigram l). simpl.
      rewrite !app_nil_r. repeat split.
      right. now apply contains_true. }
    destruct (IH (merges ++ [bigram el])
                (used ++ [(bigram el).1; (bigram el).2])
                (new_tokens ++ [(bigram el).1 ++ (bigram el).2]))
      as (acc & rest & Hscan & Hmap & Hind & Hconf).
    exists (bigram el :: acc), rest. rewrite Hscan. simpl.
    rewrite <- !app_assoc. simpl. repeat split.
    + now rewrite Hmap.
    + now apply contains_false.
    + now apply contains_false.
    + exact Hind.
    + unfold unigrams_of in *. simpl.
      now rewrite <- app_assoc in Hconf.
Qed.

Lemma independent_from_split used pre b post :
  independent_from used (pre ++ b :: post) ->
  (b.1 ∉ used ++ unigrams_of pre) /\ (b.2 ∉ used ++ unigrams_of pre).
Proof.
  revert used. induction pre as [|a pre IH]; intros used; simpl.
  - unfold unigrams_of. simpl. rewrite app_nil_r. tauto.
  - intros (_ & _ & Hrest). apply IH in Hrest.
    unfold unigrams_of in *. simpl.
    now rewrite <- app_assoc in Hrest.
Qed.

Lemma elem_of_unigrams_of bs b :
  b ∈ bs -> b.1 ∈ unigrams_of bs /\ b.2 ∈ unigrams_of bs.
Proof.
  intros Hb. apply list_elem_of_split in Hb as (l1 & l2 & ->).
  rewrite unigrams_of_app. unfold unigrams_of at 2 4. simpl.
  split; apply elem_of_app; right; set_solver.
Qed.

End MergeSelection.

(** C2: merge selection takes the bigrams from the top of the ranked list for
    as long as neither token of the next one occurs in a bigram taken
    before, and stops at the first one that conflicts; no token occurs in
    two of the accepted merges, and the new tokens are their
    concatenations. *)
Theorem get_independed_bigrams_spec
    (bigram_mi : list WordPieceTrainer.element) :
  let merges := (WordPieceTrainer._get_independed_bigrams bigram_mi).1 in
  let new_tokens := (WordPieceTrainer._get_independed_bigrams bigram_mi).2 in
  (exists rest,
      map WordPieceTrainer.bigram bigram_mi = merges ++ rest
      /\ conflicting (unigrams_of merges) rest)
  /\ (forall pre b post,
         merges = pre ++ b :: post ->
         (b.1 ∉ unigrams_of pre) /\ (b.2 ∉ unigrams_of pre))
  /\ (forall i j b1 b2 tok,
         i <> j -> merges !! i = Some b1 -> merges !! j = Some b2 ->
         ~ (tok ∈ [b1.1; b1.2] /\ tok ∈ [b2.1; b2.2]))
  /\ new_tokens = map merged_token merges.
Proof.
  unfold WordPieceTrainer._get_independed_bigrams.
  destruct (independed_scan_spec bigram_mi [] [] [])
    as (acc & rest & -> & Hmap & Hind & Hconf).
  simpl in *.
  assert (Hpre : forall pre b post,
             acc = pre ++ b :: post ->
             (b.1 ∉ unigrams_of pre) /\ (b.2 ∉ unigrams_of pre)).
  { intros pre b post ->.
    apply (independent_from_split [] pre b post Hind). }
  assert (Hlt : forall i j b1 b2 tok,
             i < j -> acc !! i = Some b1 -> acc !! j = Some b2 ->
             ~ (tok ∈ [b1.1; b1.2] /\ tok ∈ [b2.1; b2.2])).
  { intros i j b1 b2 tok Hij H1 H2 [Ht1 Ht2].
    pose proof (take_drop_middle acc j b2 H2) as Hsplit.
    destruct (Hpre _ _ _ (eq_sym Hsplit)) as [Hn1 Hn2].
    assert (Hin : b1 ∈ take j acc).
    { apply list_elem_of_lookup. exists i. now rewrite lookup_take_lt. }
    apply elem_of_unigrams_of in Hin as [Hu1 Hu2].
    rewrite !elem_of_cons in Ht1, Ht2.
    destruct Ht1 as [->|[->|Ht1]]; destruct Ht2 as [E|[E|Ht2]];
      try (now apply elem_of_nil in Ht1); try (now apply elem_of_nil in Ht2);
      rewrite E in *; contradiction. }
  repeat split.
  - exists rest. split; assumption.
  - eapply Hpre; eauto.
  - eapply Hpre; eauto.
  - intros i j b1 b2 tok Hij H1 H2 [Ht1 Ht2].
    destruct (Nat.lt_total i j) as [Hl|[He|Hg]]; [|contradiction|].
    + exact (Hlt i j b1 b2 tok Hl H1 H2 (conj Ht1 Ht2)).
    + exact (Hlt j i b2 b1 tok Hg H2 H1 (conj Ht2 Ht1)).
Qed.

(** ** Segmentation of a word *)

Section Segmentation.
Import WordPieceTokenizer.
Variable self : t.
Variable word : pystr.

Lemma slice_prefix a b :
  a <= b <= length word ->
  Py.slice word a b `prefix_of` drop a word
  /\ length (Py.slice word a b) = b - a.
Proof.
  intros Hab. unfold Py.slice. split.
  - exists (drop (b - a) (drop a word)). now rewrite take_drop.
  - rewrite length_take, length_drop. lia.
Qed.

Lemma prefix_slice a p :
  a <= length word ->
  p `prefix_of` drop a word ->
  p = Py.slice word a (a + length p) /\ a + length p <= length word.
Proof.
  intros Ha [k Hk]. unfold Py.slice.
  replace (a + length p - a) with (length p) by lia.
  rewrite Hk, take_app_length. split; [reflexivity|].
  apply (f_equal length) in Hk.
  rewrite length_drop, length_app in Hk. lia.
Qed.

Lemma take_slice a b :
  a <= b -> take a word ++ Py.slice word a b = take b word.
Proof.
  intros Hab. unfold Py.slice. rewrite take_take_drop. f_equal. lia.
Qed.

Lemma seg_inv_init :
  seg_inv self word {| cur_output := []; start := 0; stop := length word |}.
Proof.
  unfold seg_inv. simpl.
  split; [lia|]. split; [reflexivity|]. split; [intros; lia|].
  intros pre t post Hnil. now destruct pre.
Qed.

Lemma greedy_snoc pieces t :
  greedy self word pieces ->
  longest_match self (drop (length (concat pieces)) word) t ->
  greedy self word (pieces ++ [t]).
Proof.
  intros Hg Ht pre t' post Heq.
  destruct post as [|z post0 _] using rev_ind.
  - apply app_inj_tail in Heq as [-> ->]. exact Ht.
  - rewrite app_comm_cons, app_assoc in Heq.
    apply app_inj_tail in Heq as [Hp _]. eapply Hg, Hp.
Qed.

Lemma seg_inv_step st st' :
  seg_inv self word st ->
  seg_cond word st = true -> seg_body self word st = Ok st' ->
  seg_inv self word st'.
Proof.
  intros (Hrange & Hcat & Hlong & Hg) Hc Hb.
  unfold seg_cond in Hc. apply andb_true_iff in Hc as [Hc1 Hc2].
  apply Nat.ltb_lt in Hc1, Hc2.
  unfold seg_body in Hb.
  destruct (slice_prefix (start st) (stop st)) as [Hpre Hlen]; [lia|].
  destruct (Py.contains (idx2token self) _) eqn:Hin; injection Hb as <-.
  - apply contains_true in Hin. unfold seg_inv. simpl.
    split; [lia|]. split; [|split; [intros; lia|]].
    + rewrite concat_app, Hcat. simpl. rewrite app_nil_r.
      apply take_slice. lia.
    + apply greedy_snoc; [assumption|].
      rewrite Hcat, length_take_le by lia.
      split; [assumption|]. split; [|split; [assumption|]].
      * intros Hnil. rewrite Hnil in Hlen. simpl in Hlen. lia.
      * intros p Hp Hpin.
        destruct (prefix_slice (start st) p) as [Heq Hle];
          [lia | assumption |].
        destruct (le_lt_dec (length p)
                    (length (Py.slice word (start st) (stop st))))
          as [|Hgt]; [assumption|].
        exfalso. apply (Hlong (start st + length p)); [lia|].
        now rewrite <- Heq.
  - apply contains_false in Hin. unfold seg_inv. simpl.
    split; [lia|]. split; [assumption|]. split; [|assumption].
    intros k Hk.
    destruct (decide (k = stop st)) as [->|Hne]; [assumption|].
    apply Hlong. lia.
Qed.

Lemma seg_loop_total : exists st, seg_loop self word = Ok st.
Proof.
  unfold seg_loop.
  apply (while_terminates _ _
           (fun st => (length word - start st) * (length word + 1)
                      + (stop st - start st))).
  - intros st Hc. unfold seg_cond in Hc.
    apply andb_true_iff in Hc as [Hc1 Hc2].
    apply Nat.ltb_lt in Hc1, Hc2.
    unfold seg_body. destruct (Py.contains _ _); eexists;
      (split; [reflexivity|]); simpl; nia.
  - unfold seg_fuel. simpl. nia.
Qed.

Lemma seg_loop_inv st :
  seg_loop self word = Ok st ->
  seg_inv self word st /\ seg_cond word st = false.
Proof.
  unfold seg_loop. intros Hrun.
  eapply (while_invariant _ _ (seg_inv self word));
    [|apply seg_inv_init|exact Hrun].
  intros s s' Hs Hc Hb. eapply seg_inv_step; eauto.
Qed.

End Segmentation.

Section SegmentationResult.
Import WordPieceTokenizer.
Variable self : t.

Lemma greedy_in_vocab word pieces :
  greedy self word pieces -> Forall (fun t => t ∈ idx2token self) pieces.
Proof.
  intros Hg. apply Forall_forall. intros t Ht.
  apply list_elem_of_split in Ht as (pre & post & ->).
  apply (Hg pre t post eq_refl).
Qed.

(** What [_tokenize_word] returns, from the state in which the loop
    stops: either the whole word was consumed, or the window closed at
    [start] with no match there. *)
Lemma tokenize_word_cases word :
  exists st,
    seg_loop self word = Ok st
    /\ seg_inv self word st
    /\ ((start st = length word
         /\ _tokenize_word self word = Ok (cur_output st))
        \/ (start st < length word /\ stop st = start st
            /\ _tokenize_word self word
               = Ok (cur_output st ++ [str "<unk>"]))).
Proof.
  destruct (seg_loop_total self word) as [st Hst].
  destruct (seg_loop_inv self word st Hst) as [Hinv Hc].
  exists st. split; [assumption|]. split; [assumption|].
  unfold _tokenize_word. rewrite Hst. simpl.
  destruct Hinv as (Hrange & _).
  unfold seg_cond in Hc. apply andb_false_iff in Hc.
  destruct (Nat.ltb_spec (start st) (length word)) as [Hlt|Hge].
  - right. destruct Hc as [Hc|Hc]; [discriminate|].
    apply Nat.ltb_ge in Hc. repeat split; [assumption | lia].
  - left. split; [lia | reflexivity].
Qed.

End SegmentationResult.

(** C6: at the start of the word and at every later match position, when
    some non-empty prefix of what remains is in the vocabulary, the piece
    emitted there is a prefix in the vocabulary and no prefix in the
    vocabulary is longer. *)
Theorem tokenize_word_longest_match
    (self : WordPieceTokenizer.t) (word : pystr) :
  exists out,
    WordPieceTokenizer._tokenize_word self word = Ok out
    /\ (word <> [] -> out <> [])
    /\ forall pre t post,
         out = pre ++ t :: post ->
         let rest := drop (length (concat pre)) word in
         forall p,
           p <> [] -> p `prefix_of` rest ->
           p ∈ WordPieceTokenizer.idx2token self ->
           t ∈ WordPieceTokenizer.idx2token self
           /\ t `prefix_of` rest
           /\ length p <= length t.
Proof.
  destruct (tokenize_word_cases self word)
    as (st & _ & (Hrange & Hcat & Hlong & Hg) & Hcases).
  assert (Hcur : forall pre t post,
             WordPieceTokenizer.cur_output st = pre ++ t :: post ->
             forall p,
               p `prefix_of` drop (length (concat pre)) word ->
               p ∈ WordPieceTokenizer.idx2token self ->
               t ∈ WordPieceTokenizer.idx2token self
               /\ t `prefix_of` drop (length (concat pre)) word
               /\ length p <= length t).
  { intros pre t post Heq p Hp Hin.
    destruct (Hg pre t post Heq) as (Ht & _ & Htp & Hmax). auto. }
  destruct Hcases as [[Hend ->]|(Hlt & Hstop & ->)].
  - eexists. split; [reflexivity|]. split.
    + intros Hw Hnil. rewrite Hnil in Hcat. simpl in Hcat.
      rewrite Hend, firstn_all in Hcat. congruence.
    + intros pre t post Heq rest p _ Hp Hin. eapply Hcur; eauto.
  - eexists. split; [reflexivity|]. split.
    + intros _ Hnil.
      destruct (WordPieceTokenizer.cur_output st); discriminate.
    + intros pre t post Heq rest p Hne Hp Hin.
      destruct post as [|z post0 _] using rev_ind.
      * apply app_inj_tail in Heq as [<- _]. exfalso.
        subst rest. rewrite Hcat, length_take_le in Hp by lia.
        destruct (prefix_slice word (WordPieceTokenizer.start st) p)
          as [Heq Hle]; [lia | assumption |].
        apply (Hlong (WordPieceTokenizer.start st + length p)).
        -- destruct p; [contradiction | simpl in *; lia].
        -- now rewrite <- Heq.
      * rewrite app_comm_cons, app_assoc in Heq.
        apply app_inj_tail in Heq as [Heq _]. eapply Hcur; eauto.
Qed.

(** ** [mapM] over outcomes *)

Section MapM.
Context {A B : Type} (f : A -> outcome B).

Lemma mapM_cons x l :
  mapM f (x :: l) = y ← f x; ys ← mapM f l; Ok (y :: ys).
Proof. reflexivity. Qed.

Lemma mapM_Ok l ys :
  mapM f l = Ok ys <-> Forall2 (fun x y => f x = Ok y) l ys.
Proof.
  revert ys. induction l as [|x l IH]; intros ys.
  - simpl. split.
    + intros [= <-]. constructor.
    + intros Hys. now inversion Hys.
  - rewrite mapM_cons. split.
    + destruct (f x) as [y| |] eqn:Hx; try discriminate. simpl.
      destruct (mapM f l) as [ys'| |]; try discriminate. simpl.
      intros [= <-]. constructor; [assumption | now apply IH].
    + intros Hys. inversion Hys as [|? y ? ys' Hx Hl]; subst.
      rewrite Hx. simpl. apply IH in Hl. now rewrite Hl.
Qed.

Lemma mapM_Raise l e :
  mapM f l = Raise e -> exists x, x ∈ l /\ f x = Raise e.
Proof.
  induction l as [|x l IH]; [discriminate|]. rewrite mapM_cons.
  destruct (f x) as [y| |] eqn:Hx; simpl; try discriminate.
  - destruct (mapM f l) as [ys'| |]; simpl; try discriminate.
    intros [= ->]. destruct IH as (z & Hz & Hfz); [reflexivity|].
    exists z. split; [now right | assumption].
  - intros [= ->]. exists x. split; [now left | assumption].
Qed.

Lemma mapM_OutOfFuel l :
  mapM f l = OutOfFuel -> exists x, x ∈ l /\ f x = OutOfFuel.
Proof.
  induction l as [|x l IH]; [discriminate|]. rewrite mapM_cons.
  destruct (f x) as [y| |] eqn:Hx; simpl; try discriminate.
  - destruct (mapM f l) as [ys'| |]; simpl; try discriminate.
    intros _. destruct IH as (z & Hz & Hfz); [reflexivity|].
    exists z. split; [now right | assumption].
  - intros _. exists x. split; [now left | assumption].
Qed.

Lemma mapM_total (Q : A -> B -> Prop) l :
    Forall (fun x => exists y, f x = Ok y /\ Q x y) l ->
    exists ys, mapM f l = Ok ys /\ Forall2 Q l ys.
Proof.
    induction 1 as [|x l (y & Hx & Hq) _ (ys & Hl & Hqs)].
    - exists []. split; [reflexivity | constructor].
    - exists (y :: ys). rewrite mapM_cons, Hx. simpl. rewrite Hl.
      split; [reflexivity | now constructor].
Qed.
End MapM.

(** ** Decoding *)

(** C9, as the code has it: [decode] raises exactly when some index is below
    [-len(idx2token)] or not below [len(idx2token)], and then it is an
    [IndexError]; an index from [-len(idx2token)] to [-1] counts from the
    end of the list. On indices within these bounds the result is the
    concatenation of the tokens with every ['_'] turned into a space. *)
Theorem decode_spec (self : WordPieceTokenizer.t) (sequence : list Z) :
  let n := Py.len (WordPieceTokenizer.idx2token self) in
  ((exists e, WordPieceTokenizer.decode self sequence = Raise e)
   <-> Exists (fun i => (i < - n)%Z \/ (n <= i)%Z) sequence)
  /\ ((exists e, WordPieceTokenizer.decode self sequence = Raise e)
      -> WordPieceTokenizer.decode self sequence = Raise IndexError)
  /\ (Forall (fun i => (- n <= i < n)%Z) sequence ->
      exists pieces,
        Forall2
          (fun i piece =>
             nth_error (WordPieceTokenizer.idx2token self)
               (Z.to_nat (i mod n)) = Some piece)
          sequence pieces
        /\ WordPieceTokenizer.decode self sequence
           = Ok (map (fun c => if decide (c = "_"%char) then " "%char else c)
                   (concat pieces))).
Proof.
  intros n. unfold WordPieceTokenizer.decode.
  set (get := Py.getitem (WordPieceTokenizer.idx2token self)).
  assert (Hin : Forall (fun i => (- n <= i < n)%Z) sequence ->
                exists pieces,
                  mapM get sequence = Ok pieces
                  /\ Forall2
                       (fun i piece =>
                          nth_error (WordPieceTokenizer.idx2token self)
                            (Z.to_nat (i mod n)) = Some piece)
                       sequence pieces).
  { intros Hall. apply mapM_total.
    eapply Forall_impl; [exact Hall|]. intros i Hi. simpl in Hi.
    destruct (get i) as [piece|e|] eqn:Hget.
    - exists piece. split; [reflexivity|].
      apply getitem_Ok in Hget. fold n in Hget.
      destruct Hget as [[Hr Hn]|[Hr Hn]].
      + now rewrite Z.mod_small by lia.
      + replace (i mod n)%Z with (i + n)%Z; [assumption|].
        apply Z.mod_unique with (q := (-1)%Z); lia.
    - apply getitem_Raise in Hget. fold n in Hget. lia.
    - now apply getitem_not_OutOfFuel in Hget. }
  assert (Hraise : forall e, mapM get sequence = Raise e ->
                             e = IndexError
                             /\ Exists (fun i => (i < - n)%Z \/ (n <= i)%Z)
                                  sequence).
  { intros e He. apply mapM_Raise in He as (i & Hi & Hget).
    apply getitem_Raise in Hget as [-> Hout]. split; [reflexivity|].
    apply Exists_exists. exists i. split; [exact Hi | exact Hout]. }
  split; [split|split].
  - intros [e He].
    destruct (mapM get sequence) as [pieces|e'|] eqn:Hm; simpl in He;
      try discriminate.
    now apply (Hraise e').
  - intros Hex. apply Exists_exists in Hex as (i & Hi & Hout).
    destruct (mapM get sequence) as [pieces|e'|] eqn:Hm; simpl.
    + apply mapM_Ok in Hm.
      apply list_elem_of_lookup in Hi as [k Hk].
      destruct (Forall2_lookup_l _ _ _ _ _ Hm Hk) as (piece & _ & Hget).
      apply getitem_Ok in Hget. fold n in Hget. lia.
    + eauto.
    + apply mapM_OutOfFuel in Hm as (j & _ & Hj).
      now apply getitem_not_OutOfFuel in Hj.
  - intros [e He].
    destruct (mapM get sequence) as [pieces|e'|] eqn:Hm; simpl in He;
      try discriminate.
    simpl. now destruct (Hraise e' eq_refl) as [-> _].
  - intros Hall. destruct (Hin Hall) as (pieces & -> & Hpieces).
    exists pieces. split; [assumption|]. simpl.
    now rewrite join_nil, <- replace_char.
Qed.

(** ** Encoding *)

Section Encoding.
Import WordPieceTokenizer.
Context `{SetOrder}.
Variable self : t.

Lemma encode_unfold text display_progress_bar :
  encode self text display_progress_bar =
  pieces ← mapM (_tokenize_word self)
             (map (fun word => str "_" ++ word) (Py.split text));
  mapM (lookup_token self) (concat pieces).
Proof.
  unfold encode, tqdm. rewrite discard_replace_id.
  destruct display_progress_bar; destruct (negb _); reflexivity.
Qed.

(** A word yields pieces of the vocabulary, with ['<unk>'] possibly
    last. *)
Lemma tokenize_word_pieces word :
  exists out,
    _tokenize_word self word = Ok out
    /\ Forall (fun t => t ∈ idx2token self \/ t = str "<unk>") out.
Proof.
  destruct (tokenize_word_cases self word)
    as (st & _ & (_ & _ & _ & Hg) & Hcases).
  apply greedy_in_vocab in Hg.
  destruct Hcases as [[_ ->]|(_ & _ & ->)]; eexists;
    (split; [reflexivity|]).
  - eapply Forall_impl; [exact Hg | auto].
  - apply Forall_app. split.
    + eapply Forall_impl; [exact Hg | auto].
    + constructor; [now right | constructor].
Qed.

Lemma tokenize_word_fully word :
  segments_fully self word = true ->
  exists out,
    _tokenize_word self word = Ok out
    /\ concat out = word
    /\ Forall (fun t => t ∈ idx2token self) out.
Proof.
  unfold segments_fully. intros Hfull.
  destruct (tokenize_word_cases self word)
    as (st & Hst & (_ & Hcat & _ & Hg) & Hcases).
  rewrite Hst in Hfull. apply negb_true_iff, Nat.ltb_ge in Hfull.
  destruct Hcases as [[Hend ->]|(Hlt & _)]; [|lia].
  eexists. split; [reflexivity|]. split.
  - now rewrite Hcat, Hend, firstn_all.
  - now apply greedy_in_vocab in Hg.
Qed.

Lemma encode_total text display_progress_bar :
    vocab_indexed self ->
    exists ids, encode self text display_progress_bar = Ok ids.
Proof.
    intros Hidx. rewrite encode_unfold.
    destruct (mapM_total (_tokenize_word self)
                (fun _ out =>
                   Forall (fun t => t ∈ idx2token self \/ t = str "<unk>") out)
                (map (fun word => str "_" ++ word) (Py.split text)))
      as (pieces & -> & Hpieces).
    { apply Forall_forall. intros word _. apply tokenize_word_pieces. }
    simpl.
    destruct (mapM_total (lookup_token self) (fun _ _ => True)
                (concat pieces)) as (ids & -> & _); [|eauto].
    apply Forall_concat.
    eapply Forall2_Forall_r; [exact Hpieces|].
    apply Forall_forall. intros word _ out Hout.
    eapply Forall_impl; [exact Hout|]. simpl. intros t Ht.
    unfold lookup_token.
    assert (Hsome : is_Some (token2idx self !! t)).
    { unfold vocab_indexed in Hidx. rewrite Forall_forall in Hidx.
      apply Hidx. destruct Ht as [Ht| ->]; [now right | now left]. }
    destruct Hsome as [i ->]. eauto.
Qed.
End Encoding.

(** C8: when the window closes without a match, the pieces found so far are
    followed by one ['<unk>'] and the rest of the word is dropped; with a
    vocabulary whose tokens and ['<unk>'] are indexed, [encode] returns a
    list of indices for every text. *)
Theorem unknown_fallback `{SetOrder} (self : WordPieceTokenizer.t) :
  vocab_indexed self ->
  (forall word,
      exists out,
        WordPieceTokenizer._tokenize_word self word = Ok out
        /\ ((concat out = word
             /\ Forall (fun t => t ∈ WordPieceTokenizer.idx2token self) out)
            \/ exists pre n,
                 out = pre ++ [str "<unk>"]
                 /\ Forall (fun t => t ∈ WordPieceTokenizer.idx2token self)
                      pre
                 /\ concat pre = take n word
                 /\ n < length word
                 /\ forall k,
                      n < k <= length word ->
                      Py.slice word n k ∉ WordPieceTokenizer.idx2token self))
  /\ (forall text display_progress_bar,
         exists ids,
           WordPieceTokenizer.encode self text display_progress_bar = Ok ids).
Proof.
  intros Hidx. split.
  - intros word.
    destruct (tokenize_word_cases self word)
      as (st & _ & (_ & Hcat & Hlong & Hg) & Hcases).
    apply greedy_in_vocab in Hg.
    destruct Hcases as [[Hend ->]|(Hlt & Hstop & ->)]; eexists;
      (split; [reflexivity|]).
    + left. split; [|assumption]. now rewrite Hcat, Hend, firstn_all.
    + right. exists (WordPieceTokenizer.cur_output st),
               (WordPieceTokenizer.start st).
      repeat split; try assumption.
      intros k Hk. apply Hlong. lia.
  - intros text b. now apply encode_total.
Qed.

(** ** Round trip *)

Lemma marked_words_to_spaces words :
  words <> [] ->
  map marker_to_space (concat (map (fun w => str "_" ++ w) words))
  = str " " ++ map marker_to_space (Py.join (str " ") words).
Proof.
  induction words as [|w ws IH]; [contradiction|]. intros _.
  destruct ws as [|w' ws].
  - simpl. now rewrite app_nil_r.
  - rewrite join_cons. change (map _ (w :: w' :: ws))
      with ((str "_" ++ w) :: map (fun w => str "_" ++ w) (w' :: ws)).
    rewrite concat_cons, !map_app, IH by discriminate. reflexivity.
Qed.

Lemma concat_pieces words (pieces : list (list pystr)) (P : pystr -> Prop) :
  Forall2 (fun w out => concat out = w /\ Forall P out) words pieces ->
  concat (concat pieces) = concat words /\ Forall P (concat pieces).
Proof.
  induction 1 as [|w out ws pieces [Hw Hout] _ [IHc IHf]]; simpl.
  - split; [reflexivity | constructor].
  - rewrite concat_app, Hw, IHc. split; [reflexivity|].
    apply Forall_app. now split.
Qed.

(** C5, as the code has it: for a non-empty text of words separated by
    single spaces, each of which is segmented without the ['<unk>'] branch,
    decoding the encoding gives the text with one space in front and with
    every ['_'] of the text turned into a space. *)
Theorem decode_encode `{SetOrder} (self : WordPieceTokenizer.t)
    (words : list pystr) (display_progress_bar : bool) :
  vocab_inverse self ->
  Forall token_ok words ->
  words <> [] ->
  Forall (fun w => segments_fully self (str "_" ++ w) = true) words ->
  let text := Py.join (str " ") words in
  exists ids,
    WordPieceTokenizer.encode self text display_progress_bar = Ok ids
    /\ WordPieceTokenizer.decode self ids
       = Ok (str " " ++ Py.replace (str "_") (str " ") text).
Proof.
  intros Hinv Hok Hne Hfull text. subst text.
  rewrite encode_unfold, split_join by assumption.
  destruct (mapM_total (WordPieceTokenizer._tokenize_word self)
              (fun w out =>
                 concat out = w
                 /\ Forall (fun t => t ∈ WordPieceTokenizer.idx2token self)
                      out)
              (map (fun w => str "_" ++ w) words))
    as (pieces & -> & Hpieces).
  { apply Forall_map. eapply Forall_impl; [exact Hfull|].
    intros w Hw. now apply tokenize_word_fully. }
  apply concat_pieces in Hpieces as [Hcat Hvocab].
  cbn [mbind outcome_bind].
  destruct (mapM_total (WordPieceTokenizer.lookup_token self)
              (fun t i =>
                 Py.getitem (WordPieceTokenizer.idx2token self) i = Ok t)
              (concat pieces))
    as (ids & -> & Hids).
  { eapply Forall_impl; [exact Hvocab|]. intros t Ht.
    unfold vocab_inverse in Hinv. rewrite Forall_forall in Hinv.
    destruct (Hinv t Ht) as (i & Hi & Hget).
    exists i. unfold WordPieceTokenizer.lookup_token. now rewrite Hi. }
  exists ids. split; [reflexivity|].
  unfold WordPieceTokenizer.decode.
  apply Forall2_flip, mapM_Ok in Hids. rewrite Hids.
  cbn [mbind outcome_bind].
  rewrite join_nil, Hcat.
  change (str "_") with ["_"%char]. change (str " ") with [" "%char].
  rewrite !replace_char. f_equal.
  exact (marked_words_to_spaces words Hne).
Qed.

(** ** Training *)

Section Training.
Import WordPieceTrainer.

Lemma contains_perm {A} `{EqDecision A} (l k : list A) x :
  l ≡ₚ k -> Py.contains l x = Py.contains k x.
Proof.
  intros Hp. unfold Py.contains. apply bool_decide_ext. now rewrite Hp.
Qed.

Lemma contains_cons_ne {A} `{EqDecision A} (l : list A) x y :
  x <> y -> Py.contains (y :: l) x = Py.contains l x.
Proof.
  intros Hne. unfold Py.contains. apply bool_decide_ext.
  rewrite elem_of_cons. tauto.
Qed.

Lemma prepend_if_absent_app tokens front r :
  r ∉ front ->
  prepend_if_absent r (front ++ tokens)
  = if_absent tokens r ++ front ++ tokens.
Proof.
  intros Hr. unfold prepend_if_absent, if_absent.
  replace (Py.contains (front ++ tokens) r) with (Py.contains tokens r).
  - now destruct (Py.contains tokens r).
  - unfold Py.contains. apply bool_decide_ext. rewrite elem_of_app. tauto.
Qed.

Lemma filter_absent tokens r rs :
  filter (fun r => r ∉ tokens) (r :: rs)
  = if_absent tokens r ++ filter (fun r => r ∉ tokens) rs.
Proof.
  rewrite filter_cons. unfold if_absent.
  destruct (Py.contains tokens r) eqn:Hc.
  - apply contains_true in Hc. now rewrite decide_False by tauto.
  - apply contains_false in Hc. now rewrite decide_True.
Qed.

Lemma not_in_if_absent tokens r s : r <> s -> r ∉ if_absent tokens s.
Proof.
  intros Hne. unfold if_absent.
  destruct (Py.contains tokens s);
    [apply not_elem_of_nil | now apply not_elem_of_cons].
Qed.

(** The reserved tokens that are missing come first, in the order
    [<pad>], [<cls>], [<sep>], [<mask>], [<unk>]. *)
Lemma add_reserved_spec tokens :
  add_reserved tokens = filter (fun r => r ∉ tokens) reserved ++ tokens.
Proof.
  unfold add_reserved, reserved.
  rewrite !filter_absent, filter_nil, app_nil_r.
  change (prepend_if_absent (str "<unk>") tokens)
    with (prepend_if_absent (str "<unk>") ([] ++ tokens)).
  rewrite prepend_if_absent_app by apply not_elem_of_nil.
  rewrite app_nil_l.
  rewrite prepend_if_absent_app by (apply not_in_if_absent; discriminate).
  rewrite app_assoc.
  rewrite prepend_if_absent_app
    by (rewrite !not_elem_of_app; repeat split;
        apply not_in_if_absent; discriminate).
  rewrite (app_assoc _ _ tokens).
  rewrite prepend_if_absent_app
    by (rewrite !not_elem_of_app; repeat split;
        apply not_in_if_absent; discriminate).
  rewrite (app_assoc _ _ tokens).
  rewrite prepend_if_absent_app
    by (rewrite !not_elem_of_app; repeat split;
        apply not_in_if_absent; discriminate).
  now rewrite <- !app_assoc.
Qed.

Context `{SetOrder}.

(** What a round does to a state, given the merges it selects. *)
Lemma round_Ok st st' :
  round st = Ok st' ->
  exists merges new_tokens,
    select_merges (word_counts st) = Ok (merges, new_tokens)
    /\ tokens (self st') = tokens (self st) ++ new_tokens
    /\ history (self st') = history (self st) ++ merges
    /\ vocab_size (self st') = vocab_size (self st)
    /\ max_symbols (self st') = max_symbols (self st)
    /\ num_tokens st' = Py.len (tokens (self st'))
    /\ word_counts st'
       = map (fun element =>
                {| word := _merge_bigrams_in_word (word element) merges;
                   count := count element |})
           (word_counts st).
Proof.
  unfold round.
  destruct (select_merges (word_counts st)) as [[merges new]| |];
    simpl; try discriminate.
  intros [= <-]. exists merges, new. simpl. repeat split.
Qed.

Lemma round_select st merges new_tokens :
  select_merges (word_counts st) = Ok (merges, new_tokens) ->
  exists st', round st = Ok st'.
Proof. unfold round. intros ->. simpl. eauto. Qed.

Lemma loop_inv_round target st st' :
  loop_inv target st -> round st = Ok st' -> loop_inv target st'.
Proof.
  intros [_ Hv] Hr.
  apply round_Ok in Hr as (m & n & _ & _ & _ & Hv' & _ & Hn & _).
  split; congruence.
Qed.

Lemma train_Ok fuel trainer text d st d' :
  train fuel trainer text d = Ok (st, d') ->
  loop_inv (vocab_size trainer) st /\ loop_cond st = false.
Proof.
  unfold train.
  destruct (valid_symbols trainer) as [valid|]; simpl; [discriminate|].
  destruct (_get_symbols text (max_symbols trainer) d)
    as [[[valid invalid] d1]| |]; simpl; try discriminate.
  destruct (while fuel loop_cond round _) as [st1| |] eqn:Hloop; simpl;
    try discriminate.
  intros [= <- <-].
  refine (while_invariant loop_cond round (loop_inv (vocab_size trainer))
            _ fuel _ st1 _ Hloop).
  - intros s s' Hs _ Hr. eapply loop_inv_round; eauto.
  - split; reflexivity.
Qed.

Lemma fit_Ok fuel trainer text d toks trainer' d' :
    fit fuel trainer text d = Ok (toks, trainer', d') ->
    exists st d0,
      train fuel trainer text d = Ok (st, d0)
      /\ toks = add_reserved (tokens (self st))
      /\ tokens trainer' = toks
      /\ idx2token_json d' = Some toks
      /\ token2idx_json d' = Some (make_token2ix toks)
      /\ valid_symbols_json d' = valid_symbols_json d0.
Proof.
    unfold fit.
    destruct (train fuel trainer text d) as [[st d0]| |]; simpl;
      try discriminate.
    intros [= <- <- <-]. exists st, d0. simpl. repeat split.
Qed.
End Training.

(** C1, as the code has it: the list [fit] returns is at least [vocab_size]
    long and is the token list of the merge loop with those reserved tokens
    in front that the loop's list lacks, in the order [<pad>], [<cls>],
    [<sep>], [<mask>], [<unk>]; when it lacks all five, they are the first
    five entries. *)
Theorem fit_reserved_tokens `{SetOrder} (fuel : nat)
    (trainer : WordPieceTrainer.t) (text : pystr) (d : Disk)
    (toks : list pystr) (trainer' : WordPieceTrainer.t) (d' : Disk) :
  WordPieceTrainer.fit fuel trainer text d = Ok (toks, trainer', d') ->
  exists st d0,
    WordPieceTrainer.train fuel trainer text d = Ok (st, d0)
    /\ let body := WordPieceTrainer.tokens (WordPieceTrainer.self st) in
       (WordPieceTrainer.vocab_size trainer <= Py.len body)%Z
       /\ (WordPieceTrainer.vocab_size trainer <= Py.len toks)%Z
       /\ toks = filter (fun r => r ∉ body) reserved ++ body
       /\ (Forall (fun r => r ∉ body) reserved -> take 5 toks = reserved).
Proof.
  intros Hfit.
  apply fit_Ok in Hfit as (st & d0 & Htrain & -> & _).
  exists st, d0. split; [assumption|].
  apply train_Ok in Htrain as [[Hnum Hv] Hcond].
  unfold WordPieceTrainer.loop_cond in Hcond. apply Z.ltb_ge in Hcond.
  rewrite Hnum, Hv in Hcond. rewrite add_reserved_spec. simpl.
  split; [assumption|]. split; [|split; [reflexivity|]].
  - unfold Py.len in *. rewrite length_app. lia.
  - intros Hall. unfold reserved in *.
    repeat (apply Forall_cons in Hall as [? Hall]).
    rewrite !filter_cons, filter_nil, !decide_True by assumption.
    reflexivity.
Qed.

(** ** The order in which a set is listed *)

Section SetOrders.
Import WordPieceTrainer.
Variables O1 O2 : SetOrder.

Lemma set_to_list_perm l : @set_to_list O1 l ≡ₚ @set_to_list O2 l.
Proof.
  apply NoDup_Permutation; try apply set_to_list_NoDup.
  intros x. now rewrite !set_to_list_elem.
Qed.

Lemma loop_cond_same_up_to_order s1 s2 :
  same_up_to_order s1 s2 -> loop_cond s1 = loop_cond s2.
Proof. intros (_ & Hn & Hv & _). unfold loop_cond. now rewrite Hn, Hv. Qed.

Lemma round_same_up_to_order s1 s2 :
  same_up_to_order s1 s2 ->
  outcome_rel same_up_to_order (round s1) (round s2).
Proof.
  intros (Hw & Hn & Hv & Hh & Ht). unfold round. rewrite Hw.
  destruct (select_merges (word_counts s2)) as [[merges new]| |];
    simpl; auto.
  assert (Hp : tokens (self s1) ++ new ≡ₚ tokens (self s2) ++ new)
    by now apply Permutation_app_tail.
  unfold same_up_to_order. simpl.
  split; [reflexivity|]. split; [unfold Py.len; now rewrite Hp|].
  split; [assumption|]. split; [now rewrite Hh | assumption].
Qed.

Lemma while_same_up_to_order fuel s1 s2 :
  same_up_to_order s1 s2 ->
  outcome_rel same_up_to_order
    (while fuel loop_cond round s1) (while fuel loop_cond round s2).
Proof.
  apply while_related.
  - apply loop_cond_same_up_to_order.
  - apply round_same_up_to_order.
Qed.

(** The merge rounds do not depend on the order in which the symbols of
      the text are listed. *)
Lemma train_set_order fuel trainer text d :
    outcome_rel (fun r1 r2 => same_up_to_order r1.1 r2.1)
      (@train O1 fuel trainer text d) (@train O2 fuel trainer text d).
Proof.
    unfold train.
    destruct (valid_symbols trainer) as [valid|]; simpl; [reflexivity|].
    unfold _get_symbols.
    destruct (max_symbols trainer) as [n|]; simpl; [reflexivity|].
    pose proof (set_to_list_perm (Py.chars text)) as Hp.
    rewrite (contains_perm _ _ (str "_") Hp).
    set (v1 := if negb _ then _ else @set_to_list O1 _).
    set (v2 := if negb _ then _ else @set_to_list O2 _).
    assert (Hv : v1 ≡ₚ v2).
    { subst v1 v2. destruct (negb _); [now apply Permutation_app_tail|].
      assumption. }
    set (s1 := {| self := {| tokens := v1 |} |}).
    set (s2 := {| self := {| tokens := v2 |} |}).
    assert (Hinit : same_up_to_order s1 s2).
    { unfold same_up_to_order. simpl.
      split; [reflexivity|]. split; [unfold Py.len; now rewrite Hv|].
      split; [reflexivity|]. split; [reflexivity | assumption]. }
    pose proof (while_same_up_to_order fuel s1 s2 Hinit) as Hrel.
    destruct (while fuel loop_cond round s1),
             (while fuel loop_cond round s2); simpl in *; auto.
Qed.
End SetOrders.

(** ** A round without merges *)

Section Stall.
Import WordPieceTrainer.

Lemma merge_nothing word :
  Forall token_ok word -> _merge_bigrams_in_word word [] = word.
Proof.
  intros Hw. unfold _merge_bigrams_in_word. simpl. now apply split_join.
Qed.

Lemma merge_nothing_all (l : list word_count) :
  Forall (fun wc => Forall token_ok (word wc)) l ->
  map (fun element =>
         {| word := _merge_bigrams_in_word (word element) [];
            count := count element |}) l
  = l.
Proof.
  induction 1 as [|[w c] l Hwc _ IH]; simpl; [reflexivity|].
  simpl in Hwc. now rewrite merge_nothing, IH.
Qed.

Lemma select_no_merges word_counts new_tokens :
  select_merges word_counts = Ok ([], new_tokens) -> new_tokens = [].
Proof.
  unfold select_merges.
  destruct (_count_ngrams word_counts) as [unigram_counts bigram_counts].
  destruct (mapM _ _) as [bigram_mi| |]; simpl; try discriminate.
  unfold _get_independed_bigrams.
  destruct (independed_scan_spec (sort_by_mi bigram_mi) [] [] [])
    as (acc & rest & -> & _).
  simpl. intros [= -> <-]. reflexivity.
Qed.

Lemma stalled_round st :
    stalled st ->
    exists st',
      round st = Ok st'
      /\ tokens (self st') = tokens (self st)
      /\ history (self st') = history (self st)
      /\ word_counts st' = word_counts st
      /\ stalled st'.
Proof.
    intros (Hok & Hnum & Hlen & new & Hsel).
    pose proof (select_no_merges _ _ Hsel) as ->.
    destruct (round_select st _ _ Hsel) as [st' Hr]. exists st'.
    split; [assumption|].
    apply round_Ok in Hr
      as (m & n & Hsel' & Ht & Hh & Hv & _ & Hn & Hw).
    rewrite Hsel in Hsel'. injection Hsel' as <- <-.
    rewrite app_nil_r in Ht, Hh.
    assert (Hw' : word_counts st' = word_counts st).
    { rewrite Hw. now apply merge_nothing_all. }
    repeat split; try assumption.
    - unfold words_ok. now rewrite Hw'.
    - now rewrite Hn, Ht, Hv.
    - now rewrite Ht, Hv.
    - exists []. now rewrite Hw'.
Qed.
Lemma stalled_forever st fuel :
  stalled st -> while fuel loop_cond round st = OutOfFuel.
Proof.
  intros Hst. apply (while_stuck _ _ stalled); [|assumption].
  intros s Hs. split.
  - destruct Hs as (_ & Hn & _). unfold loop_cond. now apply Z.ltb_lt.
  - destruct (stalled_round s Hs) as (s' & Hr & _ & _ & _ & Hs'). eauto.
Qed.

(** The loop is left only with the size at or above the target. *)
Lemma loop_exit fuel st st' :
  while fuel loop_cond round st = Ok st' ->
  (vocab_size (self st') <= num_tokens st')%Z.
Proof.
  intros Hrun.
  destruct (while_invariant loop_cond round (fun _ => True)
              (fun _ _ _ _ _ => I) fuel st st' I Hrun) as [_ Hc].
  unfold loop_cond in Hc. now apply Z.ltb_ge in Hc.
Qed.
End Stall.

(** C3, as the code has it: the loop has no exit other than its condition,
    so it is left only with the size at or above the target. A round that
    accepts no merge while the vocabulary is below the target changes
    neither the tokens, nor the history, nor the words, and from there the
    loop never ends: whatever the number of rounds allowed, it is still
    running. Nothing is raised. *)
Theorem training_stalls (st : WordPieceTrainer.loop_state) :
  words_ok st ->
  (WordPieceTrainer.num_tokens st
   < WordPieceTrainer.vocab_size (WordPieceTrainer.self st))%Z ->
  (Py.len (WordPieceTrainer.tokens (WordPieceTrainer.self st))
   < WordPieceTrainer.vocab_size (WordPieceTrainer.self st))%Z ->
  (exists new_tokens,
      WordPieceTrainer.select_merges (WordPieceTrainer.word_counts st)
      = Ok ([], new_tokens)) ->
  (exists st',
      WordPieceTrainer.round st = Ok st'
      /\ WordPieceTrainer.tokens (WordPieceTrainer.self st')
         = WordPieceTrainer.tokens (WordPieceTrainer.self st)
      /\ WordPieceTrainer.history (WordPieceTrainer.self st')
         = WordPieceTrainer.history (WordPieceTrainer.self st)
      /\ WordPieceTrainer.word_counts st' = WordPieceTrainer.word_counts st)
  /\ (forall fuel,
         while fuel WordPieceTrainer.loop_cond WordPieceTrainer.round st
         = OutOfFuel)
  /\ (forall fuel s s',
         while fuel WordPieceTrainer.loop_cond WordPieceTrainer.round s
         = Ok s' ->
         (WordPieceTrainer.vocab_size (WordPieceTrainer.self s')
          <= WordPieceTrainer.num_tokens s')%Z).
Proof.
  intros Hok Hnum Hlen Hsel.
  assert (Hst : stalled st) by (repeat split; assumption).
  split; [|split].
  - destruct (stalled_round st Hst) as (st' & Hr & Ht & Hh & Hw & _).
    exists st'. auto.
  - intros fuel. now apply stalled_forever.
  - intros fuel s s'. apply loop_exit.
Qed.

(** C10: with [valid_symbols] given, [fit] raises [NameError] where it reads
    [invalid_symbols], before the words are built and whatever the text and
    the number of rounds allowed. *)
Theorem fit_valid_symbols_NameError `{SetOrder} (fuel : nat)
    (vocab_size : Z) (valid : list pystr) (max_symbols : option Z)
    (history : list (pystr * pystr)) (tokens : list pystr)
    (text : pystr) (d : Disk) :
  let trainer :=
    {| WordPieceTrainer.vocab_size := vocab_size;
       WordPieceTrainer.valid_symbols := Some valid;
       WordPieceTrainer.max_symbols := max_symbols;
       WordPieceTrainer.history := history;
       WordPieceTrainer.tokens := tokens |} in
  WordPieceTrainer.train fuel trainer text d = Raise NameError
  /\ WordPieceTrainer.fit fuel trainer text d = Raise NameError
  /\ WordPieceTrainer.fit fuel
       (WordPieceTrainer.__init__ vocab_size (Some valid) max_symbols) text d
     = Raise NameError.
Proof. repeat split. Qed.

(** C7, where the code departs from it: with a maximum, symbol extraction
    raises for every text; no symbol is counted. *)
Theorem get_symbols_capped_raises `{SetOrder} (text : pystr) (n : Z)
    (d : Disk) :
  WordPieceTrainer._get_symbols text (Some n) d = Raise AttributeError.
Proof. reflexivity. Qed.


(** ** The files [fit] writes *)

Section TrainedVocabulary.
Import WordPieceTrainer.

Lemma make_token2ix_fold (l : list pystr) (n : Z) (m : gmap pystr Z) t :
  let m' := fold_left (fun m nt => <[nt.2 := nt.1]> m)
              (enumerate_from n l) m in
  (t ∈ l ->
   exists k, m' !! t = Some (n + Z.of_nat k)%Z /\ nth_error l k = Some t)
  /\ (t ∉ l -> m' !! t = m !! t).
Proof.
  revert n m. induction l as [|x l IH]; intros n m; simpl.
  - split; [intros Hin; now apply elem_of_nil in Hin | reflexivity].
  - destruct (IH (n + 1)%Z (<[x:=n]> m)) as [IHin IHout]. split.
    + intros Hin. destruct (decide (t ∈ l)) as [Hl|Hl].
      * destruct (IHin Hl) as (k & Hk & Hn). exists (S k).
        split; [|assumption]. rewrite Hk. f_equal. lia.
      * apply elem_of_cons in Hin as [->|Hin]; [|contradiction].
        exists 0. split; [|reflexivity].
        rewrite (IHout Hl), lookup_insert_eq. f_equal. lia.
    + intros Hout. apply not_elem_of_cons in Hout as [Hne Hout].
      rewrite (IHout Hout). now apply lookup_insert_ne.
Qed.

Lemma make_token2ix_spec (toks : list pystr) t :
  t ∈ toks ->
  exists i, make_token2ix toks !! t = Some i /\ Py.getitem toks i = Ok t.
Proof.
  intros Hin. unfold make_token2ix.
  destruct (make_token2ix_fold toks 0 ∅ t) as [Hfold _].
  destruct (Hfold Hin) as (k & Hk & Hn).
  exists (Z.of_nat k). split; [exact Hk|].
  apply getitem_Ok. left. rewrite Nat2Z.id. split; [|assumption].
  assert (Hlt : k < length toks) by (apply nth_error_Some; congruence).
  unfold Py.len. lia.
Qed.

Lemma unk_in_add_reserved tokens : str "<unk>" ∈ add_reserved tokens.
Proof.
  rewrite add_reserved_spec. apply elem_of_app.
  destruct (decide (str "<unk>" ∈ tokens)) as [Hin|Hout]; [now right|].
  left. apply list_elem_of_filter. split; [assumption|].
  unfold reserved. rewrite !elem_of_cons. tauto.
Qed.

Context `{SetOrder}.

(** A tokenizer that loads what [fit] wrote finds every token, and
      ['<unk>'], in its index, and the index leads back to the token. *)
Lemma fit_vocab_indexed fuel trainer text d toks trainer' d' self :
    fit fuel trainer text d = Ok (toks, trainer', d') ->
    WordPieceTokenizer.__init__ d' = Ok self ->
    WordPieceTokenizer.idx2token self = toks
    /\ vocab_indexed self /\ vocab_inverse self.
Proof.
    intros Hfit Hload.
    apply fit_Ok in Hfit as (st & d0 & _ & Htoks & _ & Hi & Ht & _).
    unfold WordPieceTokenizer.__init__ in Hload. rewrite Hi, Ht in Hload.
    destruct (valid_symbols_json d') as [valid|]; simpl in Hload;
      [|discriminate].
    injection Hload as <-. simpl. split; [reflexivity|].
    unfold vocab_indexed, vocab_inverse. simpl. split.
    - apply Forall_forall. intros t Hin.
      assert (Hin' : t ∈ toks).
      { apply elem_of_cons in Hin as [->|Hin]; [|assumption].
        rewrite Htoks. apply unk_in_add_reserved. }
      destruct (make_token2ix_spec toks t Hin') as (i & -> & _). eauto.
    - apply Forall_forall. intros t Hin. now apply make_token2ix_spec.
Qed.
End TrainedVocabulary.

(** ** Runs of the code *)

(** [cat_tokenizer] is what [fit] writes for the text ["cat"]. *)
Lemma trained_cat : trained "cat" 4 = Ok cat_tokenizer.
Proof. vm_compute. reflexivity. Qed.

Lemma stalled_state_stalled : stalled stalled_state.
Proof.
  split; [|split; [|split]].
  - repeat constructor; discriminate.
  - reflexivity.
  - reflexivity.
  - exists []. vm_compute. reflexivity.
Qed.

(** The run of [fit] on ["_<cls>"], whatever the order of the symbols. *)
Lemma fit_cls_any_order (O : SetOrder) :
  exists toks trainer' d',
    @WordPieceTrainer.fit O 4 (WordPieceTrainer.__init__ 10 None None)
      (str "_<cls>") empty_disk
    = Ok (toks, trainer', d')
    /\ take 4 toks = [str "<pad>"; str "<sep>"; str "<mask>"; str "<unk>"]
    /\ str "<cls>" ∈ drop 4 toks
    /\ take 5 toks <> reserved.
Proof.
  pose proof (train_set_order O remove_dups_order 4
                (WordPieceTrainer.__init__ 10 None None) (str "_<cls>")
                empty_disk) as Hrel.
  evaluate (@WordPieceTrainer.train remove_dups_order 4
              (WordPieceTrainer.__init__ 10 None None) (str "_<cls>")
              empty_disk).
  unfold WordPieceTrainer.fit.
  destruct (WordPieceTrainer.train 4 _ _ _) as [[st d0]| |];
    simpl in Hrel; try contradiction.
  destruct Hrel as (_ & _ & _ & _ & Hperm). simpl in Hperm.
  eexists _, _, _. split; [reflexivity|].
  rewrite add_reserved_spec.
  rewrite (list_filter_iff _ (fun r => r ∉ _) _
             (fun r =>
                not_iff_compat (elem_of_Permutation_proper r _ _ Hperm))).
  match goal with
  | |- context [filter ?P reserved] => evaluate (filter P reserved)
  end.
  split; [reflexivity|]. split.
  - simpl. rewrite Hperm. simpl. rewrite !elem_of_cons. auto 20.
  - simpl. intros [=].
Qed.

(** C1 fails where the merge loop itself builds a reserved token: on the
    text ["_<cls>"] with target size 10 the fourth round merges ["<cls"]
    and [">"], so ["<cls>"] is not put in front and index 1 holds
    ["<sep>"]. The list is given for [remove_dups_order]; in every other
    order of the symbols the first four entries are the same and ["<cls>"]
    comes after them. *)
Lemma fit_reserved_tokens_counterexample :
  (exists trainer' d',
      @WordPieceTrainer.fit remove_dups_order 4
        (WordPieceTrainer.__init__ 10 None None) (str "_<cls>") empty_disk
      = Ok ([str "<pad>"; str "<sep>"; str "<mask>"; str "<unk>";
             str "_"; str "<"; str "c"; str "l"; str "s"; str ">";
             str "<c"; str "<cl"; str "<cls"; str "<cls>"],
            trainer', d'))
  /\ (forall O : SetOrder,
         exists toks trainer' d',
           @WordPieceTrainer.fit O 4 (WordPieceTrainer.__init__ 10 None None)
             (str "_<cls>") empty_disk
           = Ok (toks, trainer', d')
           /\ take 4 toks
              = [str "<pad>"; str "<sep>"; str "<mask>"; str "<unk>"]
           /\ str "<cls>" ∈ drop 4 toks
           /\ take 5 toks <> reserved).
Proof.
  split; [|exact fit_cls_any_order].
  eexists _, _. vm_compute. reflexivity.
Qed.

(** [fit] on the text ["a"] with target size 3: one round, five reserved
    tokens in front. *)
Lemma fit_reserved_tokens_witness :
  exists toks trainer' d',
    @WordPieceTrainer.fit remove_dups_order 1
      (WordPieceTrainer.__init__ 3 None None) (str "a") empty_disk
    = Ok (toks, trainer', d')
    /\ exists st d0,
         @WordPieceTrainer.train remove_dups_order 1
           (WordPieceTrainer.__init__ 3 None None) (str "a") empty_disk
         = Ok (st, d0)
         /\ let body := WordPieceTrainer.tokens (WordPieceTrainer.self st) in
            (3 <= Py.len body)%Z
            /\ (3 <= Py.len toks)%Z
            /\ toks = filter (fun r => r ∉ body) reserved ++ body
            /\ (Forall (fun r => r ∉ body) reserved ->
                take 5 toks = reserved).
Proof.
  eexists _, _, _. split.
  - vm_compute. reflexivity.
  - eapply (@fit_reserved_tokens remove_dups_order 1
              (WordPieceTrainer.__init__ 3 None None) (str "a") empty_disk).
    vm_compute. reflexivity.
Defined.

(** C3 fails on the text ["a"] with target size 10: after the merge of
    ['_'] and ['a'] the only word is one token long, no bigram is left, and
    [fit] is still in its loop after any number of rounds, for every order
    in which the symbols are listed. *)
Lemma training_terminates_counterexample :
  never_returns
    (fun O fuel =>
       @WordPieceTrainer.fit O fuel (WordPieceTrainer.__init__ 10 None None)
         (str "a") empty_disk).
Proof.
  intros O fuel.
  pose proof (train_set_order O remove_dups_order fuel
                (WordPieceTrainer.__init__ 10 None None) (str "a")
                empty_disk) as Hrel.
  assert (Hc : @WordPieceTrainer.train remove_dups_order fuel
                 (WordPieceTrainer.__init__ 10 None None) (str "a")
                 empty_disk = OutOfFuel).
  { unfold WordPieceTrainer.train. simpl.
    match goal with
    | |- mbind _ (while _ _ _ ?s) = _ =>
        assert (Hw : while fuel WordPieceTrainer.loop_cond
                       WordPieceTrainer.round s = OutOfFuel);
        [|now rewrite Hw]
    end.
    destruct fuel as [|n]; [reflexivity|].
    rewrite while_unfold.
    match goal with
    | |- context [WordPieceTrainer.loop_cond ?s] =>
        evaluate (WordPieceTrainer.loop_cond s); cbv iota;
        evaluate (WordPieceTrainer.round s)
    end.
    cbn [mbind outcome_bind].
    apply stalled_forever, stalled_state_stalled. }
  unfold WordPieceTrainer.fit. rewrite Hc in Hrel.
  destruct (WordPieceTrainer.train fuel _ _ _); simpl in Hrel;
    try contradiction.
  reflexivity.
Qed.

(** The state [fit] is in on the text ["a"] after its first round. *)
Lemma training_stalls_witness :
  (words_ok stalled_state
   /\ (WordPieceTrainer.num_tokens stalled_state
       < WordPieceTrainer.vocab_size (WordPieceTrainer.self stalled_state))%Z
   /\ (Py.len (WordPieceTrainer.tokens (WordPieceTrainer.self stalled_state))
       < WordPieceTrainer.vocab_size (WordPieceTrainer.self stalled_state))%Z
   /\ WordPieceTrainer.select_merges
        (WordPieceTrainer.word_counts stalled_state)
      = Ok ([], []))
  /\ (exists st',
         WordPieceTrainer.round stalled_state = Ok st'
         /\ WordPieceTrainer.tokens (WordPieceTrainer.self st')
            = WordPieceTrainer.tokens (WordPieceTrainer.self stalled_state)
         /\ WordPieceTrainer.history (WordPieceTrainer.self st')
            = WordPieceTrainer.history (WordPieceTrainer.self stalled_state)
         /\ WordPieceTrainer.word_counts st'
            = WordPieceTrainer.word_counts stalled_state)
  /\ (forall fuel,
         while fuel WordPieceTrainer.loop_cond WordPieceTrainer.round
           stalled_state
         = OutOfFuel)
  /\ (forall fuel s s',
         while fuel WordPieceTrainer.loop_cond WordPieceTrainer.round s
         = Ok s' ->
         (WordPieceTrainer.vocab_size (WordPieceTrainer.self s')
          <= WordPieceTrainer.num_tokens s')%Z).
Proof.
  split.
  - split; [repeat constructor; discriminate|].
    split; [reflexivity|]. split; reflexivity.
  - apply (training_stalls stalled_state).
    + repeat constructor; discriminate.
    + reflexivity.
    + reflexivity.
    + exists []. reflexivity.
Defined.

(** C4, where the code departs from it: with the accepted merge
    [('a', 'b')], the word [['_', 'xa', 'b']] becomes [['_', 'xab']]: the
    ['a'] that ends the token ['xa'] is merged with the ['b'] after it.
    Merging neighbours that are whole elements leaves the word as it is. *)
Theorem merge_crosses_token_boundary :
  WordPieceTrainer._merge_bigrams_in_word [str "_"; str "xa"; str "b"]
    [(str "a", str "b")]
  = [str "_"; str "xab"]
  /\ merge_adjacent_spec (str "a") (str "b") [str "_"; str "xa"; str "b"]
     = [str "_"; str "xa"; str "b"].
Proof. split; reflexivity. Qed.

(** The call above is made by [fit]: on the text ["ab xab b z z"] the
    first round merges ['x'] and ['a'], the second ['a'] and ['b'], and
    the word ["xab"] is left as [['_', 'xab']] although ["xab"] is not a
    token. *)
Lemma merge_crosses_token_boundary_in_fit :
  exists st d,
    @WordPieceTrainer.train remove_dups_order 2
      (WordPieceTrainer.__init__ 8 None None) (str "ab xab b z z")
      empty_disk
    = Ok (st, d)
    /\ WordPieceTrainer.history (WordPieceTrainer.self st)
       = [(str "x", str "a"); (str "a", str "b")]
    /\ WordPieceTrainer.word_counts st
       = [{| WordPieceTrainer.word := [str "_"; str "ab"];
             WordPieceTrainer.count := 1 |};
          {| WordPieceTrainer.word := [str "_"; str "xab"];
             WordPieceTrainer.count := 1 |};
          {| WordPieceTrainer.word := [str "_"; str "b"];
             WordPieceTrainer.count := 1 |};
          {| WordPieceTrainer.word := [str "_"; str "z"];
             WordPieceTrainer.count := 2 |}]
    /\ str "xab" ∉ WordPieceTrainer.tokens (WordPieceTrainer.self st).
Proof.
  eexists _, _. split; [vm_compute; reflexivity|].
  split; [reflexivity|]. split; [reflexivity|].
  simpl. rewrite !elem_of_cons, elem_of_nil.
  intros Hin. repeat (destruct Hin as [Hin|Hin]; [discriminate|]).
  exact Hin.
Qed.

(** C5 fails on the text ["cat"] with the vocabulary trained on it: every
    character is a valid symbol, the word is segmented without ['<unk>'],
    and decoding the encoding gives [" cat"]. *)
Lemma decode_encode_counterexample :
  trained "cat" 4 = Ok cat_tokenizer
  /\ Forall (fun c => [c] ∈ WordPieceTokenizer.valid_symbols cat_tokenizer)
       (str "cat")
  /\ segments_fully cat_tokenizer (str "_cat") = true
  /\ @WordPieceTokenizer.encode remove_dups_order cat_tokenizer (str "cat")
       true
     = Ok [8; 5; 6; 7]%Z
  /\ WordPieceTokenizer.decode cat_tokenizer [8; 5; 6; 7]%Z
     = Ok (str " cat")
  /\ str " cat" <> str "cat".
Proof.
  split; [exact trained_cat|].
  split; [repeat constructor; simpl; rewrite !elem_of_cons; auto 10|].
  split; [reflexivity|]. split; [vm_compute; reflexivity|].
  split; [reflexivity | discriminate].
Qed.

Lemma cat_tokenizer_inverse : vocab_inverse cat_tokenizer.
Proof.
  unfold vocab_inverse. simpl.
  repeat (constructor; [eexists; split; vm_compute; reflexivity|]).
  constructor.
Qed.

Lemma cat_tokenizer_indexed : vocab_indexed cat_tokenizer.
Proof.
  unfold vocab_indexed. simpl.
  repeat (constructor; [eexists; vm_compute; reflexivity|]).
  constructor.
Qed.

(** The text ["cat act"] with the vocabulary of ["cat"]. *)
Lemma decode_encode_witness :
  vocab_inverse cat_tokenizer
  /\ Forall token_ok [str "cat"; str "act"]
  /\ Forall (fun w => segments_fully cat_tokenizer (str "_" ++ w) = true)
       [str "cat"; str "act"]
  /\ exists ids,
       @WordPieceTokenizer.encode remove_dups_order cat_tokenizer
         (str "cat act") false
       = Ok ids
       /\ WordPieceTokenizer.decode cat_tokenizer ids = Ok (str " cat act").
Proof.
  split; [exact cat_tokenizer_inverse|].
  split; [repeat constructor; discriminate|].
  split; [repeat constructor|].
  apply (@decode_encode remove_dups_order cat_tokenizer
           [str "cat"; str "act"] false).
  - exact cat_tokenizer_inverse.
  - repeat constructor; discriminate.
  - discriminate.
  - repeat constructor.
Defined.

(** The vocabulary of ["cat"]: the word ["_cot"] stops at ['o']. *)
Lemma unknown_fallback_witness :
  vocab_indexed cat_tokenizer
  /\ (exists out,
         WordPieceTokenizer._tokenize_word cat_tokenizer (str "_cot")
         = Ok out
         /\ out = [str "_"; str "c"; str "<unk>"])
  /\ (forall text display_progress_bar,
         exists ids,
           @WordPieceTokenizer.encode remove_dups_order cat_tokenizer text
             display_progress_bar
           = Ok ids).
Proof.
  split; [exact cat_tokenizer_indexed|].
  split; [eexists; split; reflexivity|].
  apply (@unknown_fallback remove_dups_order cat_tokenizer
           cat_tokenizer_indexed).
Defined.

(** C9 fails on negative indices: with the nine tokens of [cat_tokenizer],
    [-1] and [-3] are outside 0..8 and [decode] returns, reading them from
    the end of the list. *)
Lemma decode_negative_index_counterexample :
  Py.len (WordPieceTokenizer.idx2token cat_tokenizer) = 9%Z
  /\ WordPieceTokenizer.decode cat_tokenizer [-1; 5; -3]%Z
     = Ok (str " ca")
  /\ ~ (0 <= -1 < 9)%Z.
Proof. split; [reflexivity|]. split; [reflexivity | lia]. Qed.

(** * The rest of the code *)

(** ** Strings without their whitespace *)

Section Unspace.

Lemma unspace_app s1 s2 : unspace (s1 ++ s2) = unspace s1 ++ unspace s2.
Proof. apply filter_app. Qed.

Lemma unspace_id s :
  Forall (fun c => Py.isspace c = false) s -> unspace s = s.
Proof.
  induction 1 as [|c s Hc _ IH]; [reflexivity|].
  unfold unspace in *. rewrite filter_cons, decide_True by assumption.
  now rewrite IH.
Qed.

Lemma unspace_spaces s :
  Forall (fun c => Py.isspace c = true) s -> unspace s = [].
Proof.
  induction 1 as [|c s Hc _ IH]; [reflexivity|].
  unfold unspace in *. rewrite filter_cons, decide_False by congruence.
  exact IH.
Qed.

Lemma concat_split_from cur s :
  concat (Py.split_from cur s) = cur ++ unspace s.
Proof.
  revert cur. induction s as [|c s IH]; intros cur; simpl.
  - destruct cur; simpl; now rewrite ?app_nil_r.
  - unfold unspace. rewrite filter_cons. fold (unspace s).
    destruct (Py.isspace c) eqn:Hc.
    + rewrite decide_False by discriminate.
      destruct cur; simpl; now rewrite IH.
    + rewrite decide_True by reflexivity.
      now rewrite IH, <- app_assoc.
Qed.

(** The pieces of [split] spell the string without its whitespace. *)
Lemma concat_split s : concat (Py.split s) = unspace s.
Proof. apply concat_split_from. Qed.

Lemma unspace_join ws :
  unspace (Py.join (str " ") ws) = concat (map unspace ws).
Proof.
  induction ws as [|w ws IH]; [reflexivity|].
  destruct ws as [|w' ws].
  - simpl. now rewrite app_nil_r.
  - rewrite join_cons, !unspace_app, IH. reflexivity.
Qed.

Lemma startswith_true p s :
  Py.startswith p s = true <-> exists rest, s = p ++ rest.
Proof.
  revert s. induction p as [|a p IH]; intros s; simpl.
  - split; eauto.
  - destruct s as [|b s].
    + split; [discriminate | intros [rest Hr]; discriminate].
    + destruct (decide (a = b)) as [->|Hne].
      * rewrite IH. split; intros [rest Hr]; exists rest.
        -- now rewrite Hr.
        -- now injection Hr.
      * split; [discriminate|]. intros [rest Hr]. injection Hr as ? _.
        congruence.
Qed.

Lemma replace_from_skip old new k s :
  Py.replace_from old new k s = Py.replace_from old new 0 (drop k s).
Proof.
  revert k. induction s as [|c s IH]; intros k.
  - now destruct k.
  - destruct k as [|k]; [reflexivity|]. simpl. apply IH.
Qed.

Lemma replace_from_match old new rest :
  old <> [] ->
  Py.replace_from old new 0 (old ++ rest)
  = new ++ Py.replace_from old new 0 rest.
Proof.
  intros Hne. destruct old as [|a old]; [contradiction|].
  change ((a :: old) ++ rest) with (a :: (old ++ rest)).
  cbn [Py.replace_from].
  assert (Hs : Py.startswith (a :: old) (a :: old ++ rest) = true).
  { apply startswith_true. now exists rest. }
  rewrite Hs, replace_from_skip.
  replace (length (a :: old) - 1) with (length old) by (simpl; lia).
  now rewrite drop_app_length.
Qed.

Lemma replace_from_miss old new c s :
  Py.startswith old (c :: s) = false ->
  Py.replace_from old new 0 (c :: s) = c :: Py.replace_from old new 0 s.
Proof. intros Hs. cbn [Py.replace_from]. now rewrite Hs. Qed.

(** An induction principle that follows [str.replace]: at each position
    either an occurrence of [old] starts, or one character is copied. *)
Lemma replace_from_ind old new (P : pystr -> pystr -> Prop) :
  old <> [] ->
  P [] [] ->
  (forall rest r, P rest r -> P (old ++ rest) (new ++ r)) ->
  (forall c s r,
      Py.startswith old (c :: s) = false -> P s r -> P (c :: s) (c :: r)) ->
  forall s, P s (Py.replace_from old new 0 s).
Proof.
  intros Hne Hnil Hmatch Hmiss s.
  remember (length s) as n eqn:Hn. revert s Hn.
  induction n as [n IH] using lt_wf_ind. intros s Hn.
  destruct s as [|c s]; [exact Hnil|].
  destruct (Py.startswith old (c :: s)) eqn:Hs.
  - apply startswith_true in Hs as [rest Hr]. rewrite Hr.
    rewrite replace_from_match by assumption. apply Hmatch.
    apply (IH (length rest)); [|reflexivity].
    apply (f_equal length) in Hr. rewrite length_app in Hr.
    destruct old; [contradiction|]. simpl in *. lia.
  - rewrite replace_from_miss by assumption. apply Hmiss; [assumption|].
    apply (IH (length s)); [simpl in Hn; lia | reflexivity].
Qed.

(** Replacing a string by one that differs in whitespace only changes
    whitespace only. *)
Lemma unspace_replace old new s :
  old <> [] -> unspace old = unspace new ->
  unspace (Py.replace old new s) = unspace s.
Proof.
  intros Hne Heq.
  assert (Hr : Py.replace old new s = Py.replace_from old new 0 s).
  { unfold Py.replace. now destruct old. }
  rewrite Hr.
  apply (replace_from_ind old new (fun s r => unspace r = unspace s));
    try assumption.
  - reflexivity.
  - intros rest r IH. now rewrite !unspace_app, IH, Heq.
  - intros c s' r _ IH. unfold unspace in *. rewrite !filter_cons.
    destruct (decide _); now rewrite IH.
Qed.

(** A pattern whose first character does not occur is not replaced. *)
Lemma replace_absent a old new s :
  a ∉ s -> Py.replace (a :: old) new s = s.
Proof.
  intros Ha. unfold Py.replace.
  induction s as [|c s IH]; [reflexivity|].
  apply not_elem_of_cons in Ha as [Hne Hs].
  rewrite replace_from_miss.
  - now rewrite IH.
  - simpl. now rewrite decide_False.
Qed.

Lemma split_from_space_app cur s1 c s2 :
  Py.isspace c = true ->
  Py.split_from cur (s1 ++ c :: s2)
  = Py.split_from cur s1 ++ Py.split_from [] s2.
Proof.
  intros Hc. revert cur. induction s1 as [|b s1 IH]; intros cur; simpl.
  - rewrite Hc. now destruct cur.
  - destruct (Py.isspace b); [destruct cur|]; simpl; now rewrite IH.
Qed.

(** [split] of two texts with whitespace between them. *)
Lemma split_app s1 c s2 :
  Py.isspace c = true ->
  Py.split (s1 ++ c :: s2) = Py.split s1 ++ Py.split s2.
Proof. apply split_from_space_app. Qed.

Lemma split_spaces s :
  Forall (fun c => Py.isspace c = true) s -> Py.split s = [].
Proof.
  unfold Py.split. induction 1 as [|c s Hc _ IH]; [reflexivity|].
  simpl. now rewrite Hc.
Qed.

Lemma chars_token_ok word :
  Forall (fun c => Py.isspace c = false) word ->
  Forall token_ok (Py.chars word).
Proof.
  unfold Py.chars. intros Hw. apply Forall_map.
  eapply Forall_impl; [exact Hw|]. intros c Hc. simpl.
  split; [discriminate | now constructor].
Qed.

Lemma elem_of_join_chars a word :
  a ∈ Py.join (str " ") (Py.chars word) -> a = " "%char \/ a ∈ word.
Proof.
  induction word as [|c word IH]; simpl.
  - intros Hin. now apply elem_of_nil in Hin.
  - destruct word as [|c' word].
    + simpl. intros Hin. right. exact Hin.
    + change (Py.chars (c' :: word))
        with ([c'] :: map (fun c => [c]) word) in *.
      intros Hin. simpl in Hin.
      apply elem_of_cons in Hin as [->|Hin]; [right; now left|].
      apply elem_of_cons in Hin as [->|Hin]; [now left|].
      destruct (IH Hin) as [->|Hw]; [now left | right; now right].
Qed.

End Unspace.

(** ** Words and merges spell the same text *)

Section Spelling.
Import WordPieceTrainer.

Lemma concat_chars word : concat (Py.chars word) = word.
Proof.
  unfold Py.chars. induction word as [|c w IH]; simpl; congruence.
Qed.

Lemma concat_map_unspace ws :
  Forall token_ok ws -> concat (map unspace ws) = concat ws.
Proof.
  induction 1 as [|w ws [_ Hw] _ IH]; [reflexivity|].
  simpl. now rewrite IH, unspace_id.
Qed.

Lemma split_word_concat word :
  Forall (fun c => Py.isspace c = false) word ->
  concat (_split_word word) = str "_" ++ word.
Proof.
  intros Hw. unfold _split_word.
  rewrite concat_app, concat_split, unspace_replace, unspace_join;
    [|discriminate|reflexivity].
  rewrite concat_map_unspace by now apply chars_token_ok.
  now rewrite concat_chars.
Qed.

Lemma split_word_token_ok word : Forall token_ok (_split_word word).
Proof.
  unfold _split_word. apply Forall_app. split; [|apply split_token_ok].
  repeat constructor. discriminate.
Qed.

Lemma split_word_plain word :
  Forall (fun c => Py.isspace c = false) word ->
  "<"%char ∉ word ->
  _split_word word = str "_" :: Py.chars word.
Proof.
  intros Hw Hlt. unfold _split_word.
  change (str "< u n k >") with ("<"%char :: str " u n k >").
  rewrite replace_absent.
  - now rewrite split_join by now apply chars_token_ok.
  - intros Hin. apply elem_of_join_chars in Hin as [?|?];
      [discriminate | contradiction].
Qed.

Lemma unspace_merges merges s :
  unspace
    (fold_left
       (fun word bigram =>
          Py.replace (bigram.1 ++ str " " ++ bigram.2)
            (bigram.1 ++ bigram.2) word)
       merges s)
  = unspace s.
Proof.
  revert s. induction merges as [|b merges IH]; intros s; [reflexivity|].
  simpl. rewrite IH. apply unspace_replace.
  - now destruct (b.1).
  - now rewrite !unspace_app.
Qed.

Lemma merge_concat word merges :
  Forall token_ok word ->
  concat (_merge_bigrams_in_word word merges) = concat word.
Proof.
  intros Hw. unfold _merge_bigrams_in_word.
  now rewrite concat_split, unspace_merges, unspace_join,
    concat_map_unspace.
Qed.

Lemma merge_token_ok word merges :
  Forall token_ok (_merge_bigrams_in_word word merges).
Proof. apply split_token_ok. Qed.

End Spelling.

(** X1. [_split_word] on a word without whitespace: the tokens spell
    ['_'] followed by the word, each of them is non-empty and free of
    whitespace, and when the word has no ['<'] they are ['_'] and the
    characters of the word, one by one. *)
Theorem split_word_spells (word : pystr) :
  Forall (fun c => Py.isspace c = false) word ->
  concat (WordPieceTrainer._split_word word) = str "_" ++ word
  /\ Forall token_ok (WordPieceTrainer._split_word word)
  /\ ("<"%char ∉ word ->
      WordPieceTrainer._split_word word = str "_" :: Py.chars word).
Proof.
  intros Hw. split; [now apply split_word_concat|].
  split; [apply split_word_token_ok | now apply split_word_plain].
Qed.

(** The word ["a<unk>b"]: ['<unk>'] stays in one piece. *)
Lemma split_word_spells_witness :
  Forall (fun c => Py.isspace c = false) (str "a<unk>b")
  /\ WordPieceTrainer._split_word (str "a<unk>b")
     = [str "_"; str "a"; str "<unk>"; str "b"]
  /\ concat (WordPieceTrainer._split_word (str "a<unk>b"))
     = str "_" ++ str "a<unk>b".
Proof.
  split; [repeat constructor|]. split; [reflexivity|].
  apply (split_word_spells (str "a<unk>b")). repeat constructor.
Defined.

(** X2. [_merge_bigrams_in_word] changes where a word is cut, never what
    it spells: on a word of tokens and for any list of merges, the tokens
    returned concatenate to the same string, and each of them is non-empty
    and free of whitespace. *)
Theorem merge_keeps_spelling (word : list pystr)
    (merges : list (pystr * pystr)) :
  Forall token_ok word ->
  concat (WordPieceTrainer._merge_bigrams_in_word word merges) = concat word
  /\ Forall token_ok (WordPieceTrainer._merge_bigrams_in_word word merges).
Proof.
  intros Hw. split; [now apply merge_concat | apply merge_token_ok].
Qed.

(** Two merges on [['_', 'xa', 'b']]: one token, the same spelling. *)
Lemma merge_keeps_spelling_witness :
  Forall token_ok [str "_"; str "xa"; str "b"]
  /\ concat
       (WordPieceTrainer._merge_bigrams_in_word [str "_"; str "xa"; str "b"]
          [(str "a", str "b"); (str "_", str "xab")])
     = str "_xab".
Proof.
  split; [repeat constructor; discriminate|].
  apply (merge_keeps_spelling [str "_"; str "xa"; str "b"]).
  repeat constructor; discriminate.
Defined.

(** ** Counting *)

Section Counting.
Context {K : Type} `{EqDecision K}.
Local Open Scope Z_scope.

Lemma occurrences_nil (k : K) : occurrences [] k = 0.
Proof. reflexivity. Qed.

Lemma occurrences_cons x (seq : list K) k :
  occurrences (x :: seq) k
  = (if decide (x = k) then 1 else 0) + occurrences seq k.
Proof.
  unfold occurrences. rewrite filter_cons.
  destruct (decide (x = k)); simpl length; lia.
Qed.

Lemma occurrences_nonneg (seq : list K) k : 0 <= occurrences seq k.
Proof. unfold occurrences. lia. Qed.

Lemma occurrences_pos (seq : list K) k : k ∈ seq <-> 0 < occurrences seq k.
Proof.
  induction seq as [|x seq IH].
  - rewrite occurrences_nil. split; [|lia].
    intros Hin. now apply elem_of_nil in Hin.
  - rewrite occurrences_cons, elem_of_cons.
    pose proof (occurrences_nonneg seq k).
    destruct (decide (x = k)) as [->|Hne]; split; intros Hk; try lia.
    + now left.
    + destruct Hk as [->|Hk]; [contradiction|]. apply IH in Hk. lia.
    + right. apply IH. lia.
Qed.

Lemma get_add (c : Counter.t K) k v k' :
  Counter.get (Counter.add c k v) k'
  = Counter.get c k' + (if decide (k = k') then v else 0).
Proof.
  induction c as [|[k0 v0] c IH]; simpl.
  - destruct (decide (k' = k)) as [->|Hne].
    + rewrite decide_True by reflexivity. lia.
    + rewrite decide_False by congruence. lia.
  - destruct (decide (k = k0)) as [->|Hne]; simpl.
    + destruct (decide (k' = k0)) as [->|Hne'].
      * rewrite decide_True by reflexivity. lia.
      * rewrite decide_False by congruence. lia.
    + destruct (decide (k' = k0)) as [->|Hne'].
      * rewrite decide_False by congruence. lia.
      * apply IH.
Qed.

Lemma keys_add (c : Counter.t K) k v x :
  x ∈ map fst (Counter.add c k v) <-> x = k \/ x ∈ map fst c.
Proof.
  induction c as [|[k0 v0] c IH]; simpl.
  - rewrite elem_of_cons. reflexivity.
  - destruct (decide (k = k0)) as [->|Hne]; simpl; rewrite !elem_of_cons.
    + tauto.
    + rewrite IH. tauto.
Qed.

Lemma NoDup_keys_add (c : Counter.t K) k v :
  NoDup (map fst c) -> NoDup (map fst (Counter.add c k v)).
Proof.
  induction c as [|[k0 v0] c IH]; simpl; intros Hnd.
  - repeat constructor. apply not_elem_of_nil.
  - destruct (decide (k = k0)) as [->|Hne]; simpl; [assumption|].
    apply NoDup_cons in Hnd as [Hk0 Hnd]. apply NoDup_cons.
    split; [|now apply IH]. rewrite keys_add. intros [?|?]; congruence.
Qed.

Lemma total_get (c : Counter.t K) k :
  NoDup (map fst c) -> total c k = Counter.get c k.
Proof.
  induction c as [|[k0 v0] c IH]; simpl; intros Hnd; [reflexivity|].
  apply NoDup_cons in Hnd as [Hk0 Hnd].
  destruct (decide (k0 = k)) as [->|Hne].
  - rewrite decide_True by reflexivity.
    assert (Hz : total c k = 0); [|lia].
    clear IH Hnd. induction c as [|[k1 v1] c IH]; simpl; [reflexivity|].
    simpl in Hk0. apply not_elem_of_cons in Hk0 as [Hne Hk0].
    rewrite decide_False by congruence. now rewrite IH.
  - rewrite decide_False by congruence. rewrite IH by assumption. lia.
Qed.

Lemma get_of_seq_fold (seq : list K) (c : Counter.t K) k :
  Counter.get (fold_left (fun c x => Counter.add c x 1) seq c) k
  = Counter.get c k + occurrences seq k.
Proof.
  revert c. induction seq as [|y seq IH]; intros c; simpl.
  - rewrite occurrences_nil. lia.
  - rewrite IH, get_add, occurrences_cons. lia.
Qed.

Lemma NoDup_of_seq_fold (seq : list K) (c : Counter.t K) :
  NoDup (map fst c) ->
  NoDup (map fst (fold_left (fun c x => Counter.add c x 1) seq c)).
Proof.
  revert c. induction seq as [|y seq IH]; intros c Hnd; simpl;
    [assumption|].
  now apply IH, NoDup_keys_add.
Qed.

Lemma keys_of_seq_fold (seq : list K) (c : Counter.t K) x :
  x ∈ map fst (fold_left (fun c x => Counter.add c x 1) seq c)
  <-> x ∈ map fst c \/ x ∈ seq.
Proof.
  revert c. induction seq as [|y seq IH]; intros c; simpl.
  - rewrite elem_of_nil. tauto.
  - rewrite IH, keys_add, elem_of_cons. tauto.
Qed.

(** [Counter(seq)]: each element once, with its number of occurrences. *)
Lemma of_seq_spec (seq : list K) :
  NoDup (map fst (Counter.of_seq seq))
  /\ (forall k, Counter.get (Counter.of_seq seq) k = occurrences seq k)
  /\ (forall k, k ∈ map fst (Counter.of_seq seq) <-> k ∈ seq).
Proof.
  unfold Counter.of_seq. split; [|split].
  - apply NoDup_of_seq_fold. constructor.
  - intros k. now rewrite get_of_seq_fold.
  - intros k. rewrite keys_of_seq_fold. simpl. rewrite elem_of_nil. tauto.
Qed.

(** The values of [Counter(seq)] are positive. *)
Lemma of_seq_values (seq : list K) :
  Forall (fun kv => 0 < kv.2) (Counter.of_seq seq).
Proof.
  destruct (of_seq_spec seq) as (Hnd & Hget & Hkeys).
  apply Forall_forall. intros [k v] Hin.
  assert (Hk : k ∈ map fst (Counter.of_seq seq)).
  { apply list_elem_of_fmap. now exists (k, v). }
  assert (Hv : Counter.get (Counter.of_seq seq) k = v).
  { clear Hget Hkeys Hk. induction (Counter.of_seq seq) as [|[k0 v0] c IH];
      [now apply elem_of_nil in Hin|].
    simpl in *. apply NoDup_cons in Hnd as [Hk0 Hnd].
    apply elem_of_cons in Hin as [[= -> ->]|Hin].
    - now rewrite decide_True.
    - rewrite decide_False; [now apply IH|].
      intros ->. apply Hk0. apply list_elem_of_fmap. now exists (k0, v). }
  simpl. rewrite <- Hv, Hget. apply occurrences_pos. now apply Hkeys.
Qed.

Lemma get_update (c d : Counter.t K) k :
  Counter.get (Counter.update c d) k = Counter.get c k + total d k.
Proof.
  unfold Counter.update. revert c.
  induction d as [|[k0 v0] d IH]; intros c; simpl; [lia|].
  rewrite IH, get_add. lia.
Qed.

Lemma keys_update (c d : Counter.t K) x :
  x ∈ map fst (Counter.update c d) <-> x ∈ map fst c \/ x ∈ map fst d.
Proof.
  unfold Counter.update. revert c.
  induction d as [|[k0 v0] d IH]; intros c; simpl.
  - rewrite elem_of_nil. tauto.
  - rewrite IH, keys_add, elem_of_cons. tauto.
Qed.

Lemma NoDup_keys_update (c d : Counter.t K) :
  NoDup (map fst c) -> NoDup (map fst (Counter.update c d)).
Proof.
  unfold Counter.update. revert c.
  induction d as [|[k0 v0] d IH]; intros c Hnd; simpl; [assumption|].
  now apply IH, NoDup_keys_add.
Qed.

Lemma count_multiply_keys (seq : list K) count :
  map fst (WordPieceTrainer._count_multiply seq count)
  = map fst (Counter.of_seq seq).
Proof.
  unfold WordPieceTrainer._count_multiply.
  rewrite map_map. reflexivity.
Qed.

Lemma count_multiply_get (seq : list K) count k :
  Counter.get (WordPieceTrainer._count_multiply seq count) k
  = occurrences seq k * count.
Proof.
  destruct (of_seq_spec seq) as (_ & Hget & _). rewrite <- Hget.
  clear Hget. unfold WordPieceTrainer._count_multiply.
  induction (Counter.of_seq seq) as [|[k0 v0] c IH]; simpl; [reflexivity|].
  destruct (decide (k = k0)); [reflexivity | exact IH].
Qed.

End Counting.

Section CountedWords.
Context {K : Type} `{EqDecision K}.

Lemma get_own_value (c : Counter.t K) :
  NoDup (map fst c) -> Forall (fun kv => Counter.get c kv.1 = kv.2) c.
Proof.
  induction c as [|[k v] c IH]; simpl; intros Hnd; constructor.
  - simpl. now rewrite decide_True.
  - apply NoDup_cons in Hnd as [Hk Hnd].
    apply Forall_forall. intros kv Hkv.
    rewrite decide_False.
    + specialize (IH Hnd). rewrite Forall_forall in IH. now apply IH.
    + intros Heq. apply Hk. apply list_elem_of_fmap. now exists kv.
Qed.

End CountedWords.

(** ** Unigram and bigram counts *)

Section Ngrams.
Import WordPieceTrainer.
Local Open Scope Z_scope.

Lemma total_count_multiply {K} `{EqDecision K} (seq : list K) count k :
  total (_count_multiply seq count) k = occurrences seq k * count.
Proof.
  rewrite total_get, count_multiply_get; [reflexivity|].
  rewrite count_multiply_keys. apply of_seq_spec.
Qed.

Lemma count_ngrams_fold word_counts u0 b0 :
  let r :=
    fold_left
      (fun acc element =>
         (Counter.update acc.1
            (_count_multiply (word element) (count element)),
          Counter.update acc.2
            (_count_multiply (Py.bigrams (word element)) (count element))))
      word_counts (u0, b0) in
  (forall k,
      Counter.get r.1 k
      = Counter.get u0 k + weighted (fun w => w) word_counts k)
  /\ (forall k,
         Counter.get r.2 k
         = Counter.get b0 k + weighted Py.bigrams word_counts k)
  /\ (forall k,
         k ∈ map fst r.2
         <-> k ∈ map fst b0
             \/ exists wc, wc ∈ word_counts /\ k ∈ Py.bigrams (word wc))
  /\ (NoDup (map fst u0) -> NoDup (map fst r.1))
  /\ (NoDup (map fst b0) -> NoDup (map fst r.2)).
Proof.
  revert u0 b0. induction word_counts as [|wc wcs IH]; intros u0 b0; simpl.
  - split; [intros; lia|]. split; [intros; lia|].
    split; [|auto]. intros k. split; [auto|].
    intros [?|(wc & Hwc & _)]; [assumption|].
    now apply elem_of_nil in Hwc.
  - specialize (IH (Counter.update u0 (_count_multiply (word wc) (count wc)))
                  (Counter.update b0
                     (_count_multiply (Py.bigrams (word wc)) (count wc)))).
    simpl in IH. destruct IH as (Hu & Hb & Hk & Hnu & Hnb).
    split; [|split; [|split; [|split]]].
    + intros k. rewrite Hu, get_update, total_count_multiply. lia.
    + intros k. rewrite Hb, get_update, total_count_multiply. lia.
    + intros k. rewrite Hk, keys_update, count_multiply_keys.
      destruct (of_seq_spec (Py.bigrams (word wc))) as (_ & _ & Hkeys).
      rewrite Hkeys. split.
      * intros [[?|Hin]|(wc' & Hwc' & Hin)]; [now left| |].
        -- right. exists wc. split; [now left | assumption].
        -- right. exists wc'. split; [now right | assumption].
      * intros [?|(wc' & Hwc' & Hin)]; [now left; left|].
        apply elem_of_cons in Hwc' as [->|Hwc'].
        -- left. now right.
        -- right. now exists wc'.
    + intros Hnd. now apply Hnu, NoDup_keys_update.
    + intros Hnd. now apply Hnb, NoDup_keys_update.
Qed.

Lemma weighted_nonneg {K} `{EqDecision K} (part : list pystr -> list K)
    word_counts k :
  counts_positive word_counts -> 0 <= weighted part word_counts k.
Proof.
  induction 1 as [|wc wcs Hc _ IH]; simpl; [lia|].
  pose proof (occurrences_nonneg (part (word wc)) k). nia.
Qed.

Lemma weighted_pos {K} `{EqDecision K} (part : list pystr -> list K)
    word_counts wc k :
  counts_positive word_counts ->
  wc ∈ word_counts -> k ∈ part (word wc) ->
  0 < weighted part word_counts k.
Proof.
  intros Hpos Hwc Hk. induction Hpos as [|wc' wcs Hc Hpos IH]; simpl.
  - now apply elem_of_nil in Hwc.
  - pose proof (occurrences_nonneg (part (word wc')) k).
    pose proof (weighted_nonneg part wcs k Hpos).
    apply elem_of_cons in Hwc as [->|Hwc].
    + apply occurrences_pos in Hk. nia.
    + specialize (IH Hwc). nia.
Qed.

Lemma elem_of_bigrams {A} (l : list A) a b :
  (a, b) ∈ Py.bigrams l -> a ∈ l /\ b ∈ l.
Proof.
  induction l as [|x l IH]; simpl.
  - intros Hin. now apply elem_of_nil in Hin.
  - destruct l as [|y l].
    + intros Hin. now apply elem_of_nil in Hin.
    + intros Hin. apply elem_of_cons in Hin as [[= -> ->]|Hin].
      * split; [now left | right; now left].
      * destruct (IH Hin). split; now right.
Qed.

Lemma bigrams_nil {A} (l : list A) :
  Py.bigrams l = [] <-> (length l <= 1)%nat.
Proof.
  destruct l as [|x [|y l]]; simpl; split; intros Hl;
    try reflexivity; try lia; discriminate.
Qed.

End Ngrams.

(** ** Selecting the merges of a round *)

Section Selecting.
Import WordPieceTrainer.

Lemma count_ngrams_spec word_counts :
  (forall k,
      Counter.get (_count_ngrams word_counts).1 k
      = weighted (fun w => w) word_counts k)
  /\ (forall k,
         Counter.get (_count_ngrams word_counts).2 k
         = weighted Py.bigrams word_counts k)
  /\ (forall k,
         k ∈ map fst (_count_ngrams word_counts).2
         <-> exists wc, wc ∈ word_counts /\ k ∈ Py.bigrams (word wc))
  /\ NoDup (map fst (_count_ngrams word_counts).1)
  /\ NoDup (map fst (_count_ngrams word_counts).2).
Proof.
  unfold _count_ngrams.
  destruct (count_ngrams_fold word_counts [] []) as (Hu & Hb & Hk & Hnu & Hnb).
  split; [intros k; rewrite Hu; simpl; lia|].
  split; [intros k; rewrite Hb; simpl; lia|].
  split; [|split; [apply Hnu | apply Hnb]; constructor].
  intros k. rewrite Hk. simpl. rewrite elem_of_nil. tauto.
Qed.

Lemma truediv_Ok a b :
  b <> 0%Z -> exists f, Float.truediv a b = Ok f.
Proof.
  intros Hb. unfold Float.truediv.
  destruct (Z.eqb_spec b 0); [contradiction|].
  destruct (a =? 0)%Z; eauto.
Qed.

Lemma mapM_score unigram_counts bigram_counts :
  Forall
    (fun entry =>
       (Counter.get unigram_counts entry.1.1
        * Counter.get unigram_counts entry.1.2)%Z <> 0%Z)
    bigram_counts ->
  exists bigram_mi,
    mapM (score unigram_counts) bigram_counts = Ok bigram_mi
    /\ map bigram bigram_mi = map fst bigram_counts.
Proof.
  intros Hall.
  destruct (mapM_total (score unigram_counts)
              (fun entry element => bigram element = entry.1)
              bigram_counts) as (bigram_mi & Hm & Hrel).
  - eapply Forall_impl; [exact Hall|]. intros [bg c] Hne. simpl in *.
    destruct (truediv_Ok c _ Hne) as [f Hf].
    unfold score. rewrite Hf. simpl. eauto.
  - exists bigram_mi. split; [assumption|].
    clear Hm Hall. induction Hrel as [|? ? ? ? Hb _ IH]; simpl;
      [reflexivity | now rewrite Hb, IH].
Qed.

Lemma insert_desc_perm x l : insert_desc x l ≡ₚ x :: l.
Proof.
  induction l as [|y l IH]; simpl; [reflexivity|].
  destruct (Float.ltb _ _); [reflexivity|].
  rewrite IH. apply perm_swap.
Qed.

(** Sorting loses and adds nothing. *)
Lemma sort_by_mi_perm l : sort_by_mi l ≡ₚ l.
Proof.
  unfold sort_by_mi.
  assert (Hgen : forall acc, fold_left (fun acc x => insert_desc x acc) l acc
                             ≡ₚ acc ++ l).
  { induction l as [|x l IH]; intros acc; simpl.
    - now rewrite app_nil_r.
    - rewrite IH, insert_desc_perm. simpl.
      apply Permutation_middle. }
  now rewrite Hgen.
Qed.

(** The scan accepts the first bigram of a list that has one. *)
Lemma independed_none bigram_mi new_tokens :
  _get_independed_bigrams bigram_mi = ([], new_tokens) -> bigram_mi = [].
Proof.
  unfold _get_independed_bigrams.
  destruct (independed_scan_spec bigram_mi [] [] [])
    as (acc & rest & -> & Hmap & _ & Hconf).
  simpl. intros [= -> _]. simpl in *.
  destruct rest as [|b rest].
  - now destruct bigram_mi.
  - destruct Hconf as [Hin|Hin]; now apply elem_of_nil in Hin.
Qed.

Lemma independed_new_tokens bigram_mi :
  (_get_independed_bigrams bigram_mi).2
  = map merged_token (_get_independed_bigrams bigram_mi).1.
Proof.
  unfold _get_independed_bigrams.
  destruct (independed_scan_spec bigram_mi [] [] [])
    as (acc & rest & -> & _).
  reflexivity.
Qed.

Lemma independed_prefix bigram_mi :
  exists rest,
    map bigram bigram_mi = (_get_independed_bigrams bigram_mi).1 ++ rest.
Proof.
  unfold _get_independed_bigrams.
  destruct (independed_scan_spec bigram_mi [] [] [])
    as (acc & rest & -> & Hmap & _).
  now exists rest.
Qed.

(** With positive counts no score divides by zero; the merges come from
    bigrams of the words, and there is none exactly when no word has two
    tokens. *)
Lemma select_merges_Ok word_counts :
  counts_positive word_counts ->
  exists merges,
    select_merges word_counts = Ok (merges, map merged_token merges)
    /\ Forall
         (fun b => exists wc, wc ∈ word_counts /\ b ∈ Py.bigrams (word wc))
         merges
    /\ (merges = []
        <-> Forall (fun wc => length (word wc) <= 1) word_counts).
Proof.
  intros Hpos. unfold select_merges.
  destruct (count_ngrams_spec word_counts) as (Hu & _ & Hk & _ & _).
  destruct (_count_ngrams word_counts) as [unigram_counts bigram_counts].
  simpl in *.
  destruct (mapM_score unigram_counts bigram_counts)
    as (bigram_mi & -> & Hmap).
  { apply Forall_forall. intros [[a b] c] Hin. simpl.
    assert (Hkey : (a, b) ∈ map fst bigram_counts).
    { apply list_elem_of_fmap. now exists (a, b, c). }
    apply Hk in Hkey as (wc & Hwc & Hbg).
    apply elem_of_bigrams in Hbg as [Ha Hb].
    rewrite !Hu.
    pose proof (weighted_pos (fun w => w) word_counts wc a Hpos Hwc Ha).
    pose proof (weighted_pos (fun w => w) word_counts wc b Hpos Hwc Hb).
    nia. }
  simpl.
  pose proof (independed_new_tokens (sort_by_mi bigram_mi)) as Hnew.
  destruct (independed_prefix (sort_by_mi bigram_mi)) as [rest Hpre].
  destruct (_get_independed_bigrams (sort_by_mi bigram_mi))
    as [merges new_tokens] eqn:Hsel.
  simpl in *. subst new_tokens. exists merges. split; [reflexivity|].
  assert (Hkeys : forall b, b ∈ map bigram (sort_by_mi bigram_mi)
                            <-> b ∈ map fst bigram_counts).
  { intros b. now rewrite (sort_by_mi_perm bigram_mi), Hmap. }
  split.
  - apply Forall_forall. intros b Hb. apply Hk, Hkeys.
    rewrite Hpre. apply elem_of_app. now left.
  - split.
    + intros ->. apply independed_none in Hsel.
      apply Forall_forall. intros wc Hwc. apply bigrams_nil.
      destruct (Py.bigrams (word wc)) as [|b l] eqn:Hbg; [reflexivity|].
      exfalso. assert (Hin : b ∈ map fst bigram_counts).
      { apply Hk. exists wc. split; [assumption|]. rewrite Hbg. now left. }
      apply Hkeys in Hin. rewrite Hsel in Hin. now apply elem_of_nil in Hin.
    + intros Hall. destruct merges as [|b merges]; [reflexivity|]. exfalso.
      assert (Hin : b ∈ map fst bigram_counts).
      { apply Hkeys. rewrite Hpre. now left. }
      apply Hk in Hin as (wc & Hwc & Hbg).
      rewrite Forall_forall in Hall. specialize (Hall wc Hwc).
      apply bigrams_nil in Hall. rewrite Hall in Hbg.
      now apply elem_of_nil in Hbg.
Qed.

End Selecting.

(** X3. [_count_multiply]: the keys are the distinct elements of the
    sequence, each once, and the value under an element is the number of
    its occurrences times [count]. *)
Theorem count_multiply_spec {K} `{EqDecision K} (seq : list K) (count : Z) :
  let d := WordPieceTrainer._count_multiply seq count in
  NoDup (map fst d)
  /\ (forall k, k ∈ map fst d <-> k ∈ seq)
  /\ (forall k, Counter.get d k = (occurrences seq k * count)%Z)
  /\ Forall (fun kv => kv.2 = (occurrences seq kv.1 * count)%Z) d.
Proof.
  simpl. rewrite count_multiply_keys.
  destruct (of_seq_spec seq) as (Hnd & _ & Hk).
  split; [assumption|]. split; [assumption|].
  split; [apply count_multiply_get|].
  assert (Hnd' : NoDup (map fst (WordPieceTrainer._count_multiply seq count)))
    by now rewrite count_multiply_keys.
  apply get_own_value in Hnd'.
  eapply Forall_impl; [exact Hnd'|].
  intros kv <-. apply count_multiply_get.
Qed.

(** X4. [_count_ngrams]: the count of a token is the number of its
    occurrences in the words, each word weighted by its count, and so is the
    count of a bigram over the pairs of neighbours; the keys of the bigram
    counter are the bigrams of the words, and no counter has a key twice. *)
Theorem count_ngrams_weighted
    (word_counts : list WordPieceTrainer.word_count) :
  let unigram_counts := (WordPieceTrainer._count_ngrams word_counts).1 in
  let bigram_counts := (WordPieceTrainer._count_ngrams word_counts).2 in
  (forall k,
      Counter.get unigram_counts k = weighted (fun w => w) word_counts k)
  /\ (forall k,
         Counter.get bigram_counts k = weighted Py.bigrams word_counts k)
  /\ (forall k,
         k ∈ map fst bigram_counts
         <-> exists wc,
               wc ∈ word_counts /\ k ∈ Py.bigrams (WordPieceTrainer.word wc))
  /\ NoDup (map fst unigram_counts)
  /\ NoDup (map fst bigram_counts).
Proof. apply count_ngrams_spec. Qed.

(** X5. The first half of a round of [fit], with every word count
    positive: no score divides by zero, the new tokens are the
    concatenations of the selected merges, every selected merge is a pair of
    neighbours in some word, and no merge is selected exactly when no word
    has two tokens. *)
Theorem select_merges_progress
    (word_counts : list WordPieceTrainer.word_count) :
  counts_positive word_counts ->
  exists merges,
    WordPieceTrainer.select_merges word_counts
    = Ok (merges, map merged_token merges)
    /\ Forall
         (fun b =>
            exists wc,
              wc ∈ word_counts /\ b ∈ Py.bigrams (WordPieceTrainer.word wc))
         merges
    /\ (merges = []
        <-> Forall (fun wc => length (WordPieceTrainer.word wc) <= 1)
              word_counts).
Proof. apply select_merges_Ok. Qed.

(** Two words, one of them of three tokens: some merge is selected. *)
Lemma select_merges_progress_witness :
  counts_positive
    [{| WordPieceTrainer.word := [str "_"; str "a"; str "b"];
        WordPieceTrainer.count := 2 |};
     {| WordPieceTrainer.word := [str "_b"];
        WordPieceTrainer.count := 1 |}]
  /\ exists merges,
       WordPieceTrainer.select_merges
         [{| WordPieceTrainer.word := [str "_"; str "a"; str "b"];
             WordPieceTrainer.count := 2 |};
          {| WordPieceTrainer.word := [str "_b"];
             WordPieceTrainer.count := 1 |}]
       = Ok (merges, map merged_token merges)
       /\ merges <> [].
Proof.
  assert (Hpos : counts_positive
                   [{| WordPieceTrainer.word := [str "_"; str "a"; str "b"];
                       WordPieceTrainer.count := 2 |};
                    {| WordPieceTrainer.word := [str "_b"];
                       WordPieceTrainer.count := 1 |}])
    by (repeat constructor).
  split; [exact Hpos|].
  destruct (select_merges_progress _ Hpos) as (merges & Hsel & _ & Hnone).
  exists merges. split; [exact Hsel|].
  intros Hm. apply Hnone in Hm. apply Forall_cons in Hm as [Hm _].
  simpl in Hm. lia.
Defined.

(** ** The merge loop *)

Section MergeLoop.
Import WordPieceTrainer.
Local Open Scope Z_scope.

Lemma bigrams_adjacent {A} (l : list A) a b :
  (a, b) ∈ Py.bigrams l -> exists pre post, l = pre ++ a :: b :: post.
Proof.
  induction l as [|x l IH]; simpl.
  - intros Hin. now apply elem_of_nil in Hin.
  - destruct l as [|y l].
    + intros Hin. now apply elem_of_nil in Hin.
    + intros Hin. apply elem_of_cons in Hin as [[= -> ->]|Hin].
      * now exists [], l.
      * destruct (IH Hin) as (pre & post & ->). now exists (x :: pre), post.
Qed.

Lemma spells_positive words word_counts :
  Forall (fun kv => 0 < kv.2) words ->
  spells words word_counts -> counts_positive word_counts.
Proof.
  intros Hpos Hsp. unfold counts_positive.
  induction Hsp as [|kv wc ? ? (_ & _ & Hc) _ IH]; [constructor|].
  apply Forall_cons in Hpos as [Hkv Hpos].
  constructor; [now rewrite Hc | now apply IH].
Qed.


Lemma spells_merge words word_counts merges :
  spells words word_counts ->
  spells words
    (map (fun element =>
            {| word := _merge_bigrams_in_word (word element) merges;
               count := count element |})
       word_counts).
Proof.
  induction 1 as [|kv wc ? ? (Hc & Hok & Hn) _ IH]; simpl;
    constructor; [|assumption].
  simpl. split; [now rewrite merge_concat|].
  split; [apply merge_token_ok | assumption].
Qed.

Lemma spells_split words :
  Forall (fun kv => token_ok kv.1) words ->
  spells words
    (map (fun wc => {| word := _split_word wc.1; count := wc.2 |}) words).
Proof.
  induction 1 as [|kv words [_ Hkv] _ IH]; simpl; constructor;
    [|assumption].
  simpl. split; [now apply split_word_concat|].
  split; [apply split_word_token_ok | reflexivity].
Qed.

Lemma spells_joins words word_counts wc b :
  spells words word_counts ->
  wc ∈ word_counts -> b ∈ Py.bigrams (word wc) ->
  joins_within words b.
Proof.
  intros Hsp Hwc Hb. destruct b as [l r].
  apply bigrams_adjacent in Hb as (pre & post & Hw).
  induction Hsp as [|kv wc' ws wcs (Hc & Hok & _) _ IH];
    [now apply elem_of_nil in Hwc|].
  apply elem_of_cons in Hwc as [<-|Hwc].
  - rewrite Hw in Hok, Hc.
    apply Forall_app in Hok as [_ Hok].
    apply Forall_cons in Hok as [Hl Hok].
    apply Forall_cons in Hok as [Hr _].
    split; [assumption|]. split; [assumption|].
    exists kv, (concat pre), (concat post). split; [now left|].
    rewrite <- Hc, concat_app. simpl. unfold merged_token. simpl.
    now rewrite <- !app_assoc.
  - destruct (IH Hwc) as (Hl & Hr & kv' & p & q & Hin & Heq).
    split; [assumption|]. split; [assumption|].
    exists kv', p, q. split; [now right | assumption].
Qed.

Lemma train_inv_round symbols hist0 words st st' :
  Forall (fun kv => 0 < kv.2) words ->
  train_inv symbols hist0 words st ->
  round st = Ok st' ->
  train_inv symbols hist0 words st'.
Proof.
  intros Hpos (new & Hh & Ht & Hn & Hsp & Hj) Hr.
  apply round_Ok in Hr
    as (merges & newt & Hsel & Ht' & Hh' & _ & _ & Hn' & Hw').
  destruct (select_merges_Ok (word_counts st))
    as (merges' & Hsel' & Hbg & _); [now apply (spells_positive words)|].
  rewrite Hsel in Hsel'. injection Hsel' as <- ->.
  exists (new ++ merges).
  split; [now rewrite Hh', Hh, app_assoc|].
  split; [now rewrite Ht', Ht, map_app, app_assoc|].
  split; [assumption|].
  split; [rewrite Hw'; now apply spells_merge|].
  apply Forall_app. split; [assumption|].
  eapply Forall_impl; [exact Hbg|].
  intros b (wc & Hwc & Hb). eapply spells_joins; eauto.
Qed.


End MergeLoop.

(** ** Loops that settle *)

Section WhileSettles.
Context {St : Type} (cond : St -> bool) (body : St -> outcome St).



End WhileSettles.

(** ** Runs of [fit] *)

Section Runs.
Import WordPieceTrainer.
Context `{SetOrder}.
Local Open Scope Z_scope.

(** Without a symbol list and without a maximum, [fit] reaches its loop. *)
Lemma train_start fuel trainer text d :
  valid_symbols trainer = None ->
  max_symbols trainer = None ->
  exists symbols d0,
    _get_symbols text None d = Ok (symbols, [], d0)
    /\ valid_symbols_json d0 = Some symbols
    /\ (forall s, s ∈ Py.chars text -> s ∈ symbols)
    /\ str "_" ∈ symbols
    /\ train fuel trainer text d
       = (st ← while fuel loop_cond round (start_state trainer symbols text);
          Ok (st, d0)).
Proof.
  intros Hv Hm. unfold train. rewrite Hv, Hm. simpl.
  unfold _get_symbols. simpl.
  set (symbols := if negb _ then _ else _).
  eexists symbols, _. split; [reflexivity|]. split; [reflexivity|].
  assert (Hin : forall s, s ∈ Py.chars text -> s ∈ symbols).
  { intros s Hs. subst symbols. destruct (negb _);
      [apply elem_of_app; left|]; now apply set_to_list_elem. }
  split; [assumption|].
  split; [|unfold start_state; now rewrite Hm].
  subst symbols. destruct (Py.contains _ _) eqn:Hc; simpl.
  - now apply contains_true in Hc.
  - apply elem_of_app. right. now left.
Qed.

Lemma counted_words text :
  Forall (fun kv => 0 < kv.2) (Counter.of_seq (Py.split text))
  /\ Forall (fun kv : pystr * Z => token_ok kv.1)
       (Counter.of_seq (Py.split text))
  /\ Forall (fun kv : pystr * Z => kv.1 ∈ Py.split text)
       (Counter.of_seq (Py.split text)).
Proof.
  split; [apply of_seq_values|].
  destruct (of_seq_spec (Py.split text)) as (_ & _ & Hk).
  assert (Hin : Forall (fun kv : pystr * Z => kv.1 ∈ Py.split text)
                  (Counter.of_seq (Py.split text))).
  { apply Forall_forall. intros kv Hkv. apply Hk.
    apply list_elem_of_fmap. now exists kv. }
  split; [|assumption].
  eapply Forall_impl; [exact Hin|]. intros kv Hkv. simpl in Hkv.
  pose proof (split_token_ok text) as Hok.
  rewrite Forall_forall in Hok. now apply Hok.
Qed.

Lemma start_state_inv trainer symbols text :
  train_inv symbols (history trainer) (Counter.of_seq (Py.split text))
    (start_state trainer symbols text).
Proof.
  exists []. simpl. rewrite !app_nil_r.
  split; [reflexivity|]. split; [reflexivity|]. split; [reflexivity|].
  split; [|constructor]. apply spells_split, counted_words.
Qed.

(** What is known of the state in which the loop is left. *)
Lemma train_Ok_inv fuel trainer text d st d' :
  train fuel trainer text d = Ok (st, d') ->
  exists symbols,
    _get_symbols text None d = Ok (symbols, [], d')
    /\ valid_symbols_json d' = Some symbols
    /\ (forall s, s ∈ Py.chars text -> s ∈ symbols)
    /\ str "_" ∈ symbols
    /\ valid_symbols (self st) = Some (tokens (self st))
    /\ train_inv symbols (history trainer)
         (Counter.of_seq (Py.split text)) st.
Proof.
  intros Hrun.
  assert (Hv : valid_symbols trainer = None).
  { unfold train in Hrun.
    destruct (valid_symbols trainer); [discriminate | reflexivity]. }
  assert (Hm : max_symbols trainer = None).
  { unfold train in Hrun. rewrite Hv in Hrun.
    destruct (max_symbols trainer); [discriminate | reflexivity]. }
  destruct (train_start fuel trainer text d Hv Hm)
    as (symbols & d0 & Hsym & Hfile & Hin & Hmark & Htrain).
  rewrite Htrain in Hrun.
  destruct (while fuel loop_cond round _) as [st1| |] eqn:Hloop;
    simpl in Hrun; try discriminate.
  injection Hrun as -> ->. exists symbols.
  split; [assumption|]. split; [assumption|]. split; [assumption|].
  split; [assumption|].
  pose (P := fun s =>
               valid_symbols (self s) = Some (tokens (self s))
               /\ train_inv symbols (history trainer)
                    (Counter.of_seq (Py.split text)) s).
  refine (proj1 (while_invariant loop_cond round P _ fuel _ st _ Hloop)).
  - intros s s' [_ Hs] _ Hr. split.
    + unfold round in Hr.
      destruct (select_merges (word_counts s)) as [[m n]| |];
        simpl in Hr; try discriminate.
      now injection Hr as <-.
    + eapply train_inv_round; eauto. apply counted_words.
  - split; [reflexivity | apply start_state_inv].
Qed.

Lemma fit_unfold fuel trainer text d :
  fit fuel trainer text d
  = ('(st, d) ← train fuel trainer text d;
     let tokens := add_reserved (tokens (self st)) in
     Ok (tokens,
         {| vocab_size := vocab_size (self st);
            valid_symbols := valid_symbols (self st);
            max_symbols := max_symbols (self st);
            history := history (self st);
            tokens := tokens |},
         {| valid_symbols_json := valid_symbols_json d;
            idx2token_json := Some tokens;
            token2idx_json := Some (make_token2ix tokens) |})).
Proof. reflexivity. Qed.

Lemma fit_history fuel trainer text d toks trainer' d' :
  fit fuel trainer text d = Ok (toks, trainer', d') ->
  exists st d0,
    train fuel trainer text d = Ok (st, d0)
    /\ history trainer' = history (self st)
    /\ valid_symbols trainer' = valid_symbols (self st).
Proof.
  rewrite fit_unfold.
  destruct (train fuel trainer text d) as [[st d0]| |]; simpl;
    try discriminate.
  intros [= <- <- <-]. now exists st, d0.
Qed.



End Runs.





(** ** The words and the vocabulary of a run *)

(** X9. What [fit] returns, from the merges it made: the list is the
    symbols of [_get_symbols], followed by the concatenation of every merge
    added to [history], in that order, with the missing reserved tokens in
    front. [self.valid_symbols] ends as the list of the loop, merged tokens
    included, while [valid_symbols.json] holds the symbols only. *)
Theorem fit_tokens_from_history `{SetOrder} (fuel : nat)
    (trainer : WordPieceTrainer.t) (text : pystr) (d : Disk)
    (toks : list pystr) (trainer' : WordPieceTrainer.t) (d' : Disk) :
  WordPieceTrainer.fit fuel trainer text d = Ok (toks, trainer', d') ->
  exists symbols new d0,
    WordPieceTrainer._get_symbols text None d = Ok (symbols, [], d0)
    /\ WordPieceTrainer.history trainer'
       = WordPieceTrainer.history trainer ++ new
    /\ toks
       = WordPieceTrainer.add_reserved (symbols ++ map merged_token new)
    /\ WordPieceTrainer.tokens trainer' = toks
    /\ WordPieceTrainer.valid_symbols trainer'
       = Some (symbols ++ map merged_token new)
    /\ valid_symbols_json d' = Some symbols
    /\ idx2token_json d' = Some toks.
Proof.
  intros Hfit.
  destruct (fit_history _ _ _ _ _ _ _ Hfit)
    as (st & d0 & Htrain & Hh & Hv).
  apply fit_Ok in Hfit
    as (st' & d0' & Htrain' & Htoks & Htok & Hidx & _ & Hfile).
  rewrite Htrain in Htrain'. injection Htrain' as <- <-.
  apply train_Ok_inv in Htrain
    as (symbols & Hsym & Hfile' & _ & _ & Halias & new & Hh' & Ht & _).
  exists symbols, new, d0. rewrite <- Ht.
  split; [assumption|]. split; [congruence|]. split; [assumption|].
  split; [assumption|]. split; [congruence|]. split; congruence.
Qed.

(** [fit] on the text ["ab ab b"] with target size 5. *)
Lemma fit_tokens_from_history_witness :
  exists toks trainer' d',
    @WordPieceTrainer.fit remove_dups_order 2
      (WordPieceTrainer.__init__ 5 None None) (str "ab ab b") empty_disk
    = Ok (toks, trainer', d')
    /\ exists symbols new d0,
         @WordPieceTrainer._get_symbols remove_dups_order (str "ab ab b")
           None empty_disk
         = Ok (symbols, [], d0)
         /\ WordPieceTrainer.history trainer' = [] ++ new
         /\ toks
            = WordPieceTrainer.add_reserved
                (symbols ++ map merged_token new)
         /\ WordPieceTrainer.tokens trainer' = toks
         /\ WordPieceTrainer.valid_symbols trainer'
            = Some (symbols ++ map merged_token new)
         /\ valid_symbols_json d' = Some symbols
         /\ idx2token_json d' = Some toks.
Proof.
  eexists _, _, _. split.
  - vm_compute. reflexivity.
  - eapply (@fit_tokens_from_history remove_dups_order 2
              (WordPieceTrainer.__init__ 5 None None) (str "ab ab b")
              empty_disk).
    vm_compute. reflexivity.
Defined.

(** X10. Every merge that [fit] adds to [history] joins two tokens, and
    the merged token is a substring of ['_' + w] for some word [w] of the
    text. *)
Theorem merges_join_neighbours `{SetOrder} (fuel : nat)
    (trainer : WordPieceTrainer.t) (text : pystr) (d : Disk)
    (toks : list pystr) (trainer' : WordPieceTrainer.t) (d' : Disk) :
  WordPieceTrainer.fit fuel trainer text d = Ok (toks, trainer', d') ->
  exists new,
    WordPieceTrainer.history trainer'
    = WordPieceTrainer.history trainer ++ new
    /\ Forall
         (fun b =>
            token_ok b.1 /\ token_ok b.2
            /\ exists w pre post,
                 w ∈ Py.split text
                 /\ str "_" ++ w = pre ++ b.1 ++ b.2 ++ post)
         new.
Proof.
  intros Hfit.
  destruct (fit_history _ _ _ _ _ _ _ Hfit)
    as (st & d0 & Htrain & Hh & _).
  apply train_Ok_inv in Htrain
    as (symbols & _ & _ & _ & _ & _ & new & Hh' & _ & _ & _ & Hj).
  exists new. split; [congruence|].
  eapply Forall_impl; [exact Hj|].
  intros b (Hl & Hr & kv & pre & post & Hkv & Heq).
  split; [assumption|]. split; [assumption|].
  exists kv.1, pre, post. split.
  - destruct (counted_words text) as (_ & _ & Hin).
    rewrite Forall_forall in Hin. now apply Hin.
  - rewrite Heq. unfold merged_token. now rewrite <- app_assoc.
Qed.

(** The merges of [fit] on the text ["ab ab b"]. *)
Lemma merges_join_neighbours_witness :
  exists toks trainer' d',
    @WordPieceTrainer.fit remove_dups_order 2
      (WordPieceTrainer.__init__ 5 None None) (str "ab ab b") empty_disk
    = Ok (toks, trainer', d')
    /\ exists new,
         WordPieceTrainer.history trainer' = [] ++ new
         /\ Forall
              (fun b =>
                 token_ok b.1 /\ token_ok b.2
                 /\ exists w pre post,
                      w ∈ Py.split (str "ab ab b")
                      /\ str "_" ++ w = pre ++ b.1 ++ b.2 ++ post)
              new.
Proof.
  eexists _, _, _. split.
  - vm_compute. reflexivity.
  - eapply (@merges_join_neighbours remove_dups_order 2
              (WordPieceTrainer.__init__ 5 None None) (str "ab ab b")
              empty_disk).
    vm_compute. reflexivity.
Defined.

Lemma spells_counts words word_counts (f : pystr -> Z) :
  Forall (fun kv => kv.2 = f kv.1) words ->
  spells words word_counts ->
  Forall2
    (fun w wc =>
       concat (WordPieceTrainer.word wc) = str "_" ++ w
       /\ Forall token_ok (WordPieceTrainer.word wc)
       /\ WordPieceTrainer.count wc = f w)
    (map fst words) word_counts.
Proof.
  intros Hf Hsp. apply Forall2_fmap_l.
  induction Hsp as [|kv wc ? ? (Hc & Hok & Hn) _ IH]; [constructor|].
  apply Forall_cons in Hf as [Hkv Hf].
  constructor; [|now apply IH].
  split; [assumption|]. split; [assumption|]. congruence.
Qed.

(** X11. The words after the merge rounds: one entry for each distinct
    word of the text, its tokens spelling ['_'] followed by the word, its
    count the number of occurrences of the word in the text. *)
Theorem train_keeps_words `{SetOrder} (fuel : nat)
    (trainer : WordPieceTrainer.t) (text : pystr) (d : Disk)
    (st : WordPieceTrainer.loop_state) (d' : Disk) :
  WordPieceTrainer.train fuel trainer text d = Ok (st, d') ->
  exists words,
    NoDup words
    /\ (forall w, w ∈ words <-> w ∈ Py.split text)
    /\ Forall2
         (fun w wc =>
            concat (WordPieceTrainer.word wc) = str "_" ++ w
            /\ Forall token_ok (WordPieceTrainer.word wc)
            /\ WordPieceTrainer.count wc = occurrences (Py.split text) w)
         words (WordPieceTrainer.word_counts st).
Proof.
  intros Htrain.
  apply train_Ok_inv in Htrain
    as (symbols & _ & _ & _ & _ & _ & new & _ & _ & _ & Hsp & _).
  destruct (of_seq_spec (Py.split text)) as (Hnd & Hget & Hk).
  exists (map fst (Counter.of_seq (Py.split text))).
  split; [assumption|]. split; [assumption|].
  apply spells_counts; [|assumption].
  pose proof (get_own_value _ Hnd) as Hown.
  eapply Forall_impl; [exact Hown|].
  intros kv <-. apply Hget.
Qed.

(** The words of the text ["ab ab b"] after its merge rounds. *)
Lemma train_keeps_words_witness :
  exists st d',
    @WordPieceTrainer.train remove_dups_order 2
      (WordPieceTrainer.__init__ 5 None None) (str "ab ab b") empty_disk
    = Ok (st, d')
    /\ exists words,
         NoDup words
         /\ (forall w, w ∈ words <-> w ∈ Py.split (str "ab ab b"))
         /\ Forall2
              (fun w wc =>
                 concat (WordPieceTrainer.word wc) = str "_" ++ w
                 /\ Forall token_ok (WordPieceTrainer.word wc)
                 /\ WordPieceTrainer.count wc
                    = occurrences (Py.split (str "ab ab b")) w)
              words (WordPieceTrainer.word_counts st).
Proof.
  eexists _, _. split.
  - vm_compute. reflexivity.
  - eapply (@train_keeps_words remove_dups_order 2
              (WordPieceTrainer.__init__ 5 None None) (str "ab ab b")
              empty_disk).
    vm_compute. reflexivity.
Defined.

(** X12. The order in which [list(set(text))] lists the symbols shows in
    the result of [fit] as the order of the symbols and nowhere else: under
    two orders [fit] returns, raises or runs on alike, the histories are the
    same, and the token lists are the same but for the order of the
    symbols. *)
Theorem fit_set_order (O1 O2 : SetOrder) (fuel : nat)
    (trainer : WordPieceTrainer.t) (text : pystr) (d : Disk) :
  outcome_rel
    (fun r1 r2 =>
       WordPieceTrainer.history r1.1.2 = WordPieceTrainer.history r2.1.2
       /\ exists front symbols1 symbols2 merged d1 d2,
            @WordPieceTrainer._get_symbols O1 text None d
            = Ok (symbols1, [], d1)
            /\ @WordPieceTrainer._get_symbols O2 text None d
               = Ok (symbols2, [], d2)
            /\ r1.1.1 = front ++ symbols1 ++ merged
            /\ r2.1.1 = front ++ symbols2 ++ merged
            /\ symbols1 ≡ₚ symbols2)
    (@WordPieceTrainer.fit O1 fuel trainer text d)
    (@WordPieceTrainer.fit O2 fuel trainer text d).
Proof.
  pose proof (train_set_order O1 O2 fuel trainer text d) as Hrel.
  rewrite !fit_unfold.
  destruct (@WordPieceTrainer.train O1 fuel trainer text d)
    as [[st1 d1]| |] eqn:H1;
    destruct (@WordPieceTrainer.train O2 fuel trainer text d)
      as [[st2 d2]| |] eqn:H2;
    simpl in Hrel; try contradiction; simpl; try assumption; try exact I.
  destruct Hrel as (_ & _ & _ & Hh & Hp). split; [assumption|].
  apply (@train_Ok_inv O1) in H1
    as (s1 & Hs1 & _ & _ & _ & _ & new1 & Hh1 & Ht1 & _).
  apply (@train_Ok_inv O2) in H2
    as (s2 & Hs2 & _ & _ & _ & _ & new2 & Hh2 & Ht2 & _).
  rewrite Hh1, Hh2 in Hh. apply app_inv_head in Hh. subst new2.
  rewrite Ht1, Ht2 in Hp. apply Permutation_app_inv_r in Hp.
  rewrite !add_reserved_spec, Ht1, Ht2.
  exists (filter (fun r => r ∉ s1 ++ map merged_token new1) reserved),
    s1, s2, (map merged_token new1), d1, d2.
  split; [assumption|]. split; [assumption|].
  split; [reflexivity|]. split; [|assumption].
  f_equal. apply list_filter_iff. intros r. now rewrite Hp.
Qed.

(** The files [fit] leaves load into a tokenizer. *)
Lemma fit_load `{SetOrder} (fuel : nat)
    (trainer : WordPieceTrainer.t) (text : pystr) (d : Disk)
    (toks : list pystr) (trainer' : WordPieceTrainer.t) (d' : Disk) :
  WordPieceTrainer.fit fuel trainer text d = Ok (toks, trainer', d') ->
  exists self,
    WordPieceTokenizer.__init__ d' = Ok self
    /\ WordPieceTokenizer.idx2token self = toks
    /\ WordPieceTokenizer.token2idx self
       = WordPieceTrainer.make_token2ix toks
    /\ (forall s,
           s ∈ Py.chars text \/ s = str "_" ->
           s ∈ WordPieceTokenizer.valid_symbols self)
    /\ (forall s, s ∈ WordPieceTokenizer.valid_symbols self -> s ∈ toks)
    /\ str "<unk>" ∈ toks
    /\ vocab_indexed self
    /\ vocab_inverse self.
Proof.
  intros Hfit.
  pose proof Hfit as Hfit'.
  apply fit_Ok in Hfit'
    as (st & d0 & Htrain & Htoks & _ & Hidx & Hmap & Hfile).
  apply train_Ok_inv in Htrain
    as (symbols & _ & Hfile' & Hin & Hmark & _ & new & _ & Ht & _).
  rewrite Hfile' in Hfile.
  assert (Hload : WordPieceTokenizer.__init__ d'
                  = Ok {| WordPieceTokenizer.valid_symbols := symbols;
                          WordPieceTokenizer.idx2token := toks;
                          WordPieceTokenizer.token2idx :=
                            WordPieceTrainer.make_token2ix toks |}).
  { unfold WordPieceTokenizer.__init__. now rewrite Hfile, Hidx, Hmap. }
  eexists. split; [exact Hload|].
  destruct (fit_vocab_indexed _ _ _ _ _ _ _ _ Hfit Hload)
    as (_ & Hindexed & Hinverse).
  simpl. split; [reflexivity|]. split; [reflexivity|].
  split; [intros s [Hs| ->]; auto|].
  split.
  - intros s Hs. rewrite Htoks, add_reserved_spec, Ht.
    rewrite !elem_of_app. right. now left.
  - split; [rewrite Htoks; apply unk_in_add_reserved|]. now split.
Qed.

(** X13. After [fit] has returned, [WordPieceTokenizer.__init__] finds its
    three files: [idx2token] is the list returned and [token2idx] its index
    map; the valid symbols contain every character of the text and ['_'],
    and are tokens; ['<unk>'] is a token, every token has an index, and the
    index of a token leads back to it. *)
Theorem fit_then_load `{SetOrder} (fuel : nat)
    (trainer : WordPieceTrainer.t) (text : pystr) (d : Disk)
    (toks : list pystr) (trainer' : WordPieceTrainer.t) (d' : Disk) :
  WordPieceTrainer.fit fuel trainer text d = Ok (toks, trainer', d') ->
  exists self,
    WordPieceTokenizer.__init__ d' = Ok self
    /\ WordPieceTokenizer.idx2token self = toks
    /\ WordPieceTokenizer.token2idx self
       = WordPieceTrainer.make_token2ix toks
    /\ (forall s,
           s ∈ Py.chars text \/ s = str "_" ->
           s ∈ WordPieceTokenizer.valid_symbols self)
    /\ (forall s, s ∈ WordPieceTokenizer.valid_symbols self -> s ∈ toks)
    /\ str "<unk>" ∈ toks
    /\ vocab_indexed self
    /\ vocab_inverse self.
Proof. apply fit_load. Qed.

(** The tokenizer of the text ["ab ab b"]. *)
Lemma fit_then_load_witness :
  exists toks trainer' d',
    @WordPieceTrainer.fit remove_dups_order 2
      (WordPieceTrainer.__init__ 5 None None) (str "ab ab b") empty_disk
    = Ok (toks, trainer', d')
    /\ exists self,
         WordPieceTokenizer.__init__ d' = Ok self
         /\ WordPieceTokenizer.idx2token self = toks
         /\ WordPieceTokenizer.token2idx self
            = WordPieceTrainer.make_token2ix toks
         /\ (forall s,
                s ∈ Py.chars (str "ab ab b") \/ s = str "_" ->
                s ∈ WordPieceTokenizer.valid_symbols self)
         /\ (forall s,
                s ∈ WordPieceTokenizer.valid_symbols self -> s ∈ toks)
         /\ str "<unk>" ∈ toks
         /\ vocab_indexed self
         /\ vocab_inverse self.
Proof.
  eexists _, _, _. split.
  - vm_compute. reflexivity.
  - eapply (@fit_then_load remove_dups_order 2
              (WordPieceTrainer.__init__ 5 None None) (str "ab ab b")
              empty_disk).
    vm_compute. reflexivity.
Defined.

(** ** More on [mapM] *)

Section MapMApp.
Context {A B : Type} (f : A -> outcome B).

Lemma mapM_app l1 l2 :
  mapM f (l1 ++ l2)
  = (ys1 ← mapM f l1; ys2 ← mapM f l2; Ok (ys1 ++ ys2)).
Proof.
  induction l1 as [|x l1 IH].
  - simpl. now destruct (mapM f l2).
  - change ((x :: l1) ++ l2) with (x :: (l1 ++ l2)).
    rewrite !mapM_cons, IH.
    destruct (f x); simpl; [|reflexivity..].
    destruct (mapM f l1); simpl; [|reflexivity..].
    now destruct (mapM f l2).
Qed.

Lemma mapM_length l ys : mapM f l = Ok ys -> length ys = length l.
Proof.
  intros Hm. apply mapM_Ok in Hm. symmetry. eapply Forall2_length; eauto.
Qed.

End MapMApp.

(** ** Words, pieces and indices *)

Section Pieces.
Import WordPieceTokenizer.
Variable self : t.

Lemma tokenize_words_total words :
  exists pieces, mapM (_tokenize_word self) words = Ok pieces.
Proof.
  destruct (mapM_total (_tokenize_word self) (fun _ _ => True) words)
    as (pieces & Hm & _); [|eauto].
  apply Forall_forall. intros word _.
  destruct (tokenize_word_cases self word)
    as (st & _ & _ & [[_ ->]|(_ & _ & ->)]); eauto.
Qed.

Lemma slice_one word k c rest :
  drop k word = c :: rest -> Py.slice word k (k + 1) = [c].
Proof.
  intros Hd. unfold Py.slice. replace (k + 1 - k) with 1 by lia.
  change (skipn k word) with (drop k word). now rewrite Hd.
Qed.

(** With every character of the word in the vocabulary the window never
    closes without a match. *)
Lemma segments_fully_chars word :
  Forall (fun c => [c] ∈ idx2token self) word ->
  segments_fully self word = true.
Proof.
  intros Hall. unfold segments_fully.
  destruct (tokenize_word_cases self word)
    as (st & -> & (Hrange & _ & Hlong & _) & Hcases).
  destruct Hcases as [[Hend _]|(Hlt & Hstop & _)].
  - apply negb_true_iff, Nat.ltb_ge. lia.
  - exfalso. destruct (drop (start st) word) as [|c rest] eqn:Hd.
    + apply (f_equal length) in Hd. rewrite length_drop in Hd.
      simpl in Hd. lia.
    + apply (Hlong (start st + 1)); [lia|].
      rewrite (slice_one _ _ _ _ Hd).
      rewrite Forall_forall in Hall. apply Hall.
      apply (list_elem_of_lookup_2 _ (start st)).
      rewrite <- (Nat.add_0_r (start st)), <- lookup_drop, Hd.
      reflexivity.
Qed.

Lemma nonempty_pieces_length (pieces : list pystr) :
  Forall (fun t => t <> []) pieces ->
  length pieces <= length (concat pieces).
Proof.
  induction 1 as [|t pieces Ht _ IH]; simpl; [lia|].
  rewrite length_app. destruct t; [contradiction | simpl; lia].
Qed.

Lemma greedy_nonempty word pieces :
  greedy self word pieces -> Forall (fun t => t <> []) pieces.
Proof.
  intros Hg. apply Forall_forall. intros t Ht.
  apply list_elem_of_split in Ht as (pre & post & ->).
  apply (Hg pre t post eq_refl).
Qed.

Lemma tokenize_word_bounded word :
  exists out,
    _tokenize_word self word = Ok out
    /\ length out <= length word
    /\ (word <> [] -> out <> [])
    /\ Forall (fun t => t <> []) out.
Proof.
  destruct (tokenize_word_cases self word)
    as (st & _ & (Hrange & Hcat & _ & Hg) & Hcases).
  apply greedy_nonempty in Hg.
  pose proof (nonempty_pieces_length _ Hg) as Hlen.
  rewrite Hcat, length_take_le in Hlen by lia.
  destruct Hcases as [[Hend ->]|(Hlt & _ & ->)]; eexists;
    (split; [reflexivity|]).
  - split; [lia|]. split; [|assumption].
    intros Hw Hnil. rewrite Hnil in Hcat. simpl in Hcat.
    rewrite Hend, firstn_all in Hcat. congruence.
  - rewrite length_app. simpl. split; [lia|]. split.
    + intros _ Hnil. destruct (cur_output st); discriminate.
    + apply Forall_app. split; [assumption|].
      constructor; [discriminate | constructor].
Qed.

(** Tokens of the vocabulary are looked up and found again. *)
Lemma lookup_getitem toks :
  vocab_inverse self ->
  Forall (fun t => t ∈ idx2token self) toks ->
  exists ids,
    mapM (lookup_token self) toks = Ok ids
    /\ mapM (Py.getitem (idx2token self)) ids = Ok toks.
Proof.
  intros Hinv Hvocab.
  destruct (mapM_total (lookup_token self)
              (fun t i => Py.getitem (idx2token self) i = Ok t) toks)
    as (ids & Hm & Hids).
  { eapply Forall_impl; [exact Hvocab|]. intros t Ht.
    unfold vocab_inverse in Hinv. rewrite Forall_forall in Hinv.
    destruct (Hinv t Ht) as (i & Hi & Hget).
    exists i. unfold lookup_token. now rewrite Hi. }
  exists ids. split; [assumption|]. now apply mapM_Ok, Forall2_flip.
Qed.

Lemma replace_marker s :
  Py.replace (str "_") (str " ") s = map marker_to_space s.
Proof.
  change (str "_") with ["_"%char]. change (str " ") with [" "%char].
  apply replace_char.
Qed.

Lemma marker_not_in_decoded s : "_"%char ∉ map marker_to_space s.
Proof.
  intros Hin. apply list_elem_of_fmap in Hin as (c & Hc & _).
  unfold marker_to_space in Hc. destruct (decide (c = "_"%char));
    [discriminate | congruence].
Qed.

Lemma decode_Ok sequence text :
  decode self sequence = Ok text ->
  exists pieces,
    mapM (Py.getitem (idx2token self)) sequence = Ok pieces
    /\ text = map marker_to_space (concat pieces).
Proof.
  unfold decode.
  destruct (mapM _ sequence) as [pieces| |]; cbn [mbind outcome_bind];
    try discriminate.
  intros [= <-]. exists pieces. split; [reflexivity|].
  rewrite join_nil. exact (replace_marker _).
Qed.

Lemma marked_words words :
  map marker_to_space (concat (map (fun w => str "_" ++ w) words))
  = concat (map (fun w => str " " ++ map marker_to_space w) words).
Proof.
  induction words as [|w ws IH]; [reflexivity|].
  cbn [map concat]. rewrite map_app, IH. reflexivity.
Qed.

Context `{SetOrder}.

(** [encode] then [decode], from the pieces of the words. *)
Lemma round_trip_pieces text display_progress_bar pieces :
  vocab_inverse self ->
  mapM (_tokenize_word self)
    (map (fun word => str "_" ++ word) (Py.split text)) = Ok pieces ->
  Forall (fun t => t ∈ idx2token self) (concat pieces) ->
  exists ids,
    encode self text display_progress_bar = Ok ids
    /\ decode self ids
       = Ok (map marker_to_space (concat (concat pieces))).
Proof.
  intros Hinv Hm Hvocab. rewrite encode_unfold, Hm.
  cbn [mbind outcome_bind].
  destruct (lookup_getitem _ Hinv Hvocab) as (ids & -> & Hget).
  exists ids. split; [reflexivity|].
  unfold decode. rewrite Hget. cbn [mbind outcome_bind].
  now rewrite join_nil, replace_marker.
Qed.

Lemma encode_app_space s1 c s2 display_progress_bar :
  Py.isspace c = true ->
  encode self (s1 ++ c :: s2) display_progress_bar
  = (ids1 ← encode self s1 display_progress_bar;
     ids2 ← encode self s2 display_progress_bar;
     Ok (ids1 ++ ids2)).
Proof.
  intros Hc. rewrite !encode_unfold, split_app, map_app, mapM_app
    by assumption.
  destruct (tokenize_words_total
              (map (fun word => str "_" ++ word) (Py.split s1)))
    as [p1 ->].
  destruct (tokenize_words_total
              (map (fun word => str "_" ++ word) (Py.split s2)))
    as [p2 ->].
  cbn [mbind outcome_bind]. rewrite concat_app, mapM_app.
  reflexivity.
Qed.

Lemma split_nil text :
  Py.split text = [] <-> Forall (fun c => Py.isspace c = true) text.
Proof.
  split; [|apply split_spaces].
  intros Hs. pose proof (concat_split text) as Hcat.
  rewrite Hs in Hcat. simpl in Hcat. unfold unspace in Hcat.
  apply Forall_forall. intros c Hc.
  destruct (Py.isspace c) eqn:Hsp; [reflexivity|]. exfalso.
  assert (Hin : c ∈ filter (fun c => Py.isspace c = false) text)
    by now apply list_elem_of_filter.
  rewrite <- Hcat in Hin. now apply elem_of_nil in Hin.
Qed.

Lemma encode_nil text display_progress_bar :
  encode self text display_progress_bar = Ok [] <-> Py.split text = [].
Proof.
  rewrite encode_unfold. split.
  - destruct (Py.split text) as [|w ws]; [reflexivity|].
    change (map _ (w :: ws))
      with ((str "_" ++ w) :: map (fun word => str "_" ++ word) ws).
    rewrite mapM_cons.
    destruct (tokenize_word_bounded (str "_" ++ w))
      as (out & -> & _ & Hne & _).
    destruct (tokenize_words_total (map (fun word => str "_" ++ word) ws))
      as [pieces ->].
    cbn [mbind outcome_bind]. intros Hm. apply mapM_length in Hm.
    simpl in Hm. rewrite length_app in Hm.
    destruct out; [now destruct Hne | discriminate].
  - intros ->. reflexivity.
Qed.

End Pieces.

(** ** The index map *)

Section LastOccurrence.
Import WordPieceTrainer.

Lemma token2ix_fold_last (l : list pystr) (n : Z) (m : gmap pystr Z) t i :
  fold_left (fun m nt => <[nt.2 := nt.1]> m) (enumerate_from n l) m !! t
  = Some i
  <-> (exists k,
          i = (n + Z.of_nat k)%Z /\ l !! k = Some t /\ t ∉ drop (S k) l)
      \/ ((t ∉ l) /\ m !! t = Some i).
Proof.
  revert n m. induction l as [|x l IH]; intros n m.
  - simpl. split.
    + intros Hm. right. split; [apply not_elem_of_nil | assumption].
    + intros [(k & _ & Hk & _)|[_ Hm]]; [discriminate | assumption].
  - change (enumerate_from n (x :: l))
      with ((n, x) :: enumerate_from (n + 1) l).
    cbn [fold_left]. rewrite IH. simpl. split.
    + intros [(k & -> & Hk & Hlast)|[Hnot Hm]].
      * left. exists (S k). split; [lia|]. now split.
      * destruct (decide (t = x)) as [->|Hne].
        -- rewrite lookup_insert_eq in Hm. injection Hm as <-.
           left. exists 0%nat. split; [lia|]. now split.
        -- rewrite lookup_insert_ne in Hm by congruence.
           right. split; [|assumption].
           apply not_elem_of_cons. now split.
    + intros [(k & -> & Hk & Hlast)|[Hnot Hm]].
      * destruct k as [|k].
        -- simpl in Hk. injection Hk as ->. simpl in Hlast.
           right. split; [assumption|].
           rewrite lookup_insert_eq. f_equal. lia.
        -- left. exists k. split; [lia|]. now split.
      * apply not_elem_of_cons in Hnot as [Hne Hnot].
        right. split; [assumption|].
        now rewrite lookup_insert_ne by congruence.
Qed.

End LastOccurrence.

(** X14. [token2ix] of [fit] maps a token to the position of its last
    occurrence in the list, and has no other key. *)
Theorem make_token2ix_last (tokens : list pystr) (t : pystr) :
  (forall i,
      WordPieceTrainer.make_token2ix tokens !! t = Some i
      <-> exists k,
            i = Z.of_nat k /\ tokens !! k = Some t
            /\ t ∉ drop (S k) tokens)
  /\ (WordPieceTrainer.make_token2ix tokens !! t = None <-> t ∉ tokens).
Proof.
  assert (Hsome : forall i,
             WordPieceTrainer.make_token2ix tokens !! t = Some i
             <-> exists k,
                   i = Z.of_nat k /\ tokens !! k = Some t
                   /\ t ∉ drop (S k) tokens).
  { intros i. unfold WordPieceTrainer.make_token2ix.
    rewrite token2ix_fold_last. split.
    - intros [(k & -> & Hk)|[_ Hm]]; [now exists k|].
      now rewrite lookup_empty in Hm.
    - intros (k & -> & Hk). left. now exists k. }
  split; [exact Hsome|]. split.
  - intros Hnone Hin.
    destruct (make_token2ix_spec tokens t Hin) as (i & Hi & _).
    congruence.
  - intros Hnot.
    destruct (WordPieceTrainer.make_token2ix tokens !! t) as [i|] eqn:Hm;
      [|reflexivity].
    destruct (proj1 (Hsome i) eq_refl) as (k & _ & Hk & _).
    exfalso. apply Hnot. eapply list_elem_of_lookup_2; eauto.
Qed.

(** X15. With every character of a word in [idx2token] as a token of its
    own, [_tokenize_word] segments the whole word: the pieces are tokens
    that concatenate to the word, and no ['<unk>'] is appended. *)
Theorem single_characters_suffice (self : WordPieceTokenizer.t)
    (word : pystr) :
  Forall (fun c => [c] ∈ WordPieceTokenizer.idx2token self) word ->
  exists out,
    WordPieceTokenizer._tokenize_word self word = Ok out
    /\ concat out = word
    /\ Forall (fun t => t ∈ WordPieceTokenizer.idx2token self) out.
Proof.
  intros Hall. now apply tokenize_word_fully, segments_fully_chars.
Qed.

(** The word ["_tact"] with the vocabulary of ["cat"]. *)
Lemma single_characters_suffice_witness :
  Forall (fun c => [c] ∈ WordPieceTokenizer.idx2token cat_tokenizer)
    (str "_tact")
  /\ exists out,
       WordPieceTokenizer._tokenize_word cat_tokenizer (str "_tact") = Ok out
       /\ concat out = str "_tact"
       /\ Forall (fun t => t ∈ WordPieceTokenizer.idx2token cat_tokenizer)
            out.
Proof.
  assert (Hall : Forall
                   (fun c => [c] ∈ WordPieceTokenizer.idx2token cat_tokenizer)
                   (str "_tact"))
    by (repeat constructor; simpl; rewrite !elem_of_cons; auto 10).
  split; [exact Hall|].
  exact (single_characters_suffice cat_tokenizer (str "_tact") Hall).
Defined.

(** X16. [_tokenize_word] returns at most as many pieces as the word has
    characters, and no empty piece. *)
Theorem tokenize_word_bounds (self : WordPieceTokenizer.t) (word : pystr) :
  exists out,
    WordPieceTokenizer._tokenize_word self word = Ok out
    /\ length out <= length word
    /\ Forall (fun t => t <> []) out.
Proof.
  destruct (tokenize_word_bounded self word) as (out & Hout & Hlen & _ & Hne).
  now exists out.
Qed.

(** X17. [encode] works word by word: the encoding of two texts with a
    whitespace character between them is the encoding of the first followed
    by the encoding of the second, errors included. *)
Theorem encode_app `{SetOrder} (self : WordPieceTokenizer.t)
    (s1 : pystr) (c : ascii) (s2 : pystr) (display_progress_bar : bool) :
  Py.isspace c = true ->
  WordPieceTokenizer.encode self (s1 ++ c :: s2) display_progress_bar
  = (ids1 ← WordPieceTokenizer.encode self s1 display_progress_bar;
     ids2 ← WordPieceTokenizer.encode self s2 display_progress_bar;
     Ok (ids1 ++ ids2)).
Proof. apply encode_app_space. Qed.

(** Two words with a space and a line feed between them. *)
Lemma encode_app_witness :
  Py.isspace "010"%char = true
  /\ @WordPieceTokenizer.encode remove_dups_order cat_tokenizer
       (str "cat " ++ "010"%char :: str "act") false
     = Ok ([8; 5; 6; 7] ++ [8; 6; 5; 7])%Z.
Proof.
  split; [reflexivity|].
  rewrite (@encode_app remove_dups_order cat_tokenizer (str "cat ")
             "010"%char (str "act") false eq_refl).
  reflexivity.
Defined.

(** X18. [encode] returns the empty list exactly on the texts without
    words: the empty text and the texts of whitespace. *)
Theorem encode_nothing `{SetOrder} (self : WordPieceTokenizer.t)
    (text : pystr) (display_progress_bar : bool) :
  WordPieceTokenizer.encode self text display_progress_bar = Ok []
  <-> Forall (fun c => Py.isspace c = true) text.
Proof. now rewrite encode_nil, split_nil. Qed.

(** X19. [decode] of two sequences one after the other is the decoding of
    the first followed by the decoding of the second, errors included. *)
Theorem decode_app (self : WordPieceTokenizer.t) (s1 s2 : list Z) :
  WordPieceTokenizer.decode self (s1 ++ s2)
  = (text1 ← WordPieceTokenizer.decode self s1;
     text2 ← WordPieceTokenizer.decode self s2;
     Ok (text1 ++ text2)).
Proof.
  unfold WordPieceTokenizer.decode. rewrite mapM_app.
  destruct (mapM _ s1) as [p1| |]; cbn [mbind outcome_bind];
    [|reflexivity..].
  destruct (mapM _ s2) as [p2| |]; cbn [mbind outcome_bind];
    [|reflexivity..].
  now rewrite !join_nil, !replace_marker, concat_app, map_app.
Qed.

(** X20. No text that [decode] returns contains ['_']. *)
Theorem decode_no_marker (self : WordPieceTokenizer.t) (sequence : list Z)
    (text : pystr) :
  WordPieceTokenizer.decode self sequence = Ok text -> "_"%char ∉ text.
Proof.
  intros Hd. apply decode_Ok in Hd as (pieces & _ & ->).
  apply marker_not_in_decoded.
Qed.

(** The indices of ['_', 'c', '_', 'a']. *)
Lemma decode_no_marker_witness :
  WordPieceTokenizer.decode cat_tokenizer [8; 5; 8; 6]%Z = Ok (str " c a")
  /\ "_"%char ∉ str " c a".
Proof.
  split; [reflexivity|].
  exact (decode_no_marker cat_tokenizer [8; 5; 8; 6]%Z (str " c a") eq_refl).
Defined.

(** X21. With a vocabulary in which ['<unk>'] is a token and the index of
    each token leads back to it, [decode] accepts whatever [encode] returns,
    for every text: the result is the pieces of the words, ['<unk>']
    included, concatenated, with every ['_'] turned into a space. *)
Theorem decode_after_encode `{SetOrder} (self : WordPieceTokenizer.t)
    (text : pystr) (display_progress_bar : bool) :
  vocab_inverse self ->
  str "<unk>" ∈ WordPieceTokenizer.idx2token self ->
  exists pieces ids,
    mapM (WordPieceTokenizer._tokenize_word self)
      (map (fun word => str "_" ++ word) (Py.split text)) = Ok pieces
    /\ WordPieceTokenizer.encode self text display_progress_bar = Ok ids
    /\ WordPieceTokenizer.decode self ids
       = Ok (Py.replace (str "_") (str " ") (concat (concat pieces))).
Proof.
  intros Hinv Hunk.
  destruct (mapM_total (WordPieceTokenizer._tokenize_word self)
              (fun _ out =>
                 Forall (fun t => t ∈ WordPieceTokenizer.idx2token self) out)
              (map (fun word => str "_" ++ word) (Py.split text)))
    as (pieces & Hm & Hpieces).
  { apply Forall_forall. intros word _.
    destruct (tokenize_word_pieces self word) as (out & Hout & Hall).
    exists out. split; [assumption|].
    eapply Forall_impl; [exact Hall|]. intros t [Ht| ->]; assumption. }
  assert (Hvocab : Forall (fun t => t ∈ WordPieceTokenizer.idx2token self)
                     (concat pieces)).
  { apply Forall_concat. eapply Forall2_Forall_r; [exact Hpieces|].
    apply Forall_forall. auto. }
  destruct (round_trip_pieces self text display_progress_bar pieces
              Hinv Hm Hvocab) as (ids & Henc & Hdec).
  exists pieces, ids. split; [assumption|]. split; [assumption|].
  now rewrite replace_marker.
Qed.

(** The text ["cot a"] with the vocabulary of ["cat"]: ['o'] is unknown. *)
Lemma decode_after_encode_witness :
  vocab_inverse cat_tokenizer
  /\ str "<unk>" ∈ WordPieceTokenizer.idx2token cat_tokenizer
  /\ exists pieces ids,
       mapM (WordPieceTokenizer._tokenize_word cat_tokenizer)
         (map (fun word => str "_" ++ word) (Py.split (str "cot a")))
       = Ok pieces
       /\ @WordPieceTokenizer.encode remove_dups_order cat_tokenizer
            (str "cot a") true
          = Ok ids
       /\ WordPieceTokenizer.decode cat_tokenizer ids
          = Ok (Py.replace (str "_") (str " ") (concat (concat pieces))).
Proof.
  assert (Hunk : str "<unk>" ∈ WordPieceTokenizer.idx2token cat_tokenizer)
    by (simpl; rewrite !elem_of_cons; auto 10).
  split; [exact cat_tokenizer_inverse|]. split; [exact Hunk|].
  exact (@decode_after_encode remove_dups_order cat_tokenizer (str "cot a")
           true cat_tokenizer_inverse Hunk).
Defined.

(** ** From training to decoding *)

Section TrainedRoundTrip.

Lemma split_characters text w c :
  w ∈ Py.split text -> c ∈ w -> c ∈ text /\ Py.isspace c = false.
Proof.
  intros Hw Hc.
  assert (Hin : c ∈ concat (Py.split text)).
  { apply list_elem_of_In, in_concat. exists w.
    split; now apply list_elem_of_In. }
  rewrite concat_split in Hin. unfold unspace in Hin.
  apply list_elem_of_filter in Hin. tauto.
Qed.

End TrainedRoundTrip.

(** X22. Training, loading, encoding and decoding: with the tokenizer
    loaded from the files of a [fit] that returned, a text made of
    characters of the training text, whitespace and ['_'] is encoded, and
    decodes to its words, each with a space in front and with its ['_']
    turned into spaces. *)
Theorem trained_round_trip `{SetOrder} (fuel : nat)
    (trainer : WordPieceTrainer.t) (corpus : pystr) (d : Disk)
    (toks : list pystr) (trainer' : WordPieceTrainer.t) (d' : Disk)
    (self : WordPieceTokenizer.t) (text : pystr)
    (display_progress_bar : bool) :
  WordPieceTrainer.fit fuel trainer corpus d = Ok (toks, trainer', d') ->
  WordPieceTokenizer.__init__ d' = Ok self ->
  Forall (fun c => c ∈ corpus \/ Py.isspace c = true \/ c = "_"%char) text ->
  exists ids,
    WordPieceTokenizer.encode self text display_progress_bar = Ok ids
    /\ WordPieceTokenizer.decode self ids
       = Ok (concat
               (map (fun w => str " " ++ Py.replace (str "_") (str " ") w)
                  (Py.split text))).
Proof.
  intros Hfit Hload Htext.
  destruct (fit_load _ _ _ _ _ _ _ Hfit)
    as (self' & Hload' & Hidx & _ & Hsym & Hsub & _ & _ & Hinv).
  rewrite Hload in Hload'. injection Hload' as <-.
  assert (Hchar : forall c,
             c ∈ corpus \/ c = "_"%char ->
             [c] ∈ WordPieceTokenizer.idx2token self).
  { intros c Hc. rewrite Hidx. apply Hsub, Hsym.
    destruct Hc as [Hc| ->]; [left | now right].
    unfold Py.chars. apply list_elem_of_fmap. now exists c. }
  destruct (mapM_total (WordPieceTokenizer._tokenize_word self)
              (fun w out =>
                 concat out = w
                 /\ Forall (fun t => t ∈ WordPieceTokenizer.idx2token self)
                      out)
              (map (fun w => str "_" ++ w) (Py.split text)))
    as (pieces & Hm & Hpieces).
  { apply Forall_map, Forall_forall. intros w Hw.
    apply tokenize_word_fully, segments_fully_chars.
    constructor; [apply Hchar; now right|].
    apply Forall_forall. intros c Hc. apply Hchar.
    destruct (split_characters _ _ _ Hw Hc) as [Hin Hsp].
    rewrite Forall_forall in Htext.
    destruct (Htext c Hin) as [?|[?|?]]; [now left | congruence | now right]. }
  apply concat_pieces in Hpieces as [Hcat Hvocab].
  destruct (round_trip_pieces self text display_progress_bar pieces
              Hinv Hm Hvocab) as (ids & Henc & Hdec).
  exists ids. split; [assumption|].
  rewrite Hdec, Hcat, marked_words. do 2 f_equal.
  apply map_ext. intros w. now rewrite replace_marker.
Qed.

(** Trained on ["ab ab b"], the text ["ba_b  a"] comes back as [" ba b a"]. *)
Lemma trained_round_trip_witness :
  exists toks trainer' d' self,
    @WordPieceTrainer.fit remove_dups_order 2
      (WordPieceTrainer.__init__ 5 None None) (str "ab ab b") empty_disk
    = Ok (toks, trainer', d')
    /\ WordPieceTokenizer.__init__ d' = Ok self
    /\ Forall
         (fun c => c ∈ str "ab ab b" \/ Py.isspace c = true \/ c = "_"%char)
         (str "ba_b  a")
    /\ exists ids,
         @WordPieceTokenizer.encode remove_dups_order self (str "ba_b  a")
           false
         = Ok ids
         /\ WordPieceTokenizer.decode self ids = Ok (str " ba b a").
Proof.
  eexists _, _, _, _.
  split; [vm_compute; reflexivity|]. split; [vm_compute; reflexivity|].
  assert (Htext : Forall
                    (fun c =>
                       c ∈ str "ab ab b" \/ Py.isspace c = true
                       \/ c = "_"%char)
                    (str "ba_b  a")).
  { repeat
      (constructor;
       [first [ left; simpl; rewrite !elem_of_cons; auto 10; fail
              | right; left; reflexivity
              | right; right; reflexivity ]|]).
    constructor. }
  split; [exact Htext|].
  eapply (@trained_round_trip remove_dups_order 2
            (WordPieceTrainer.__init__ 5 None None) (str "ab ab b")
            empty_disk _ _ _ _ (str "ba_b  a") false).
  - vm_compute. reflexivity.
  - vm_compute. reflexivity.
  - exact Htext.
Defined.

(** ** Failures of [encode], and what is left *)

Section Lookup.
Import WordPieceTokenizer.
Variable self : t.

Lemma lookup_missing tokens :
  Exists (fun t => token2idx self !! t = None) tokens ->
  mapM (lookup_token self) tokens = Raise KeyError.
Proof.
  induction tokens as [|t tokens IH]; intros Hex.
  - now apply Exists_nil in Hex.
  - rewrite mapM_cons.
    destruct (token2idx self !! t) as [i|] eqn:Ht.
    + apply Exists_cons in Hex as [Hex|Hex]; [congruence|].
      rewrite IH by assumption. unfold lookup_token. now rewrite Ht.
    + unfold lookup_token. now rewrite Ht.
Qed.

Lemma lookup_all tokens :
  Forall (fun t => is_Some (token2idx self !! t)) tokens ->
  exists ids,
    mapM (lookup_token self) tokens = Ok ids
    /\ Forall2 (fun t i => token2idx self !! t = Some i) tokens ids.
Proof.
  intros Hall. apply mapM_total.
  eapply Forall_impl; [exact Hall|]. intros t [i Hi].
  exists i. unfold lookup_token. now rewrite Hi.
Qed.

End Lookup.

(** X24. [encode] fails when one of the pieces of the words has no entry
    in [token2idx], and then with [KeyError]; when every piece has one it
    returns the indices of the pieces, in order. *)
Theorem encode_KeyError `{SetOrder} (self : WordPieceTokenizer.t)
    (text : pystr) (display_progress_bar : bool) :
  exists pieces,
    mapM (WordPieceTokenizer._tokenize_word self)
      (map (fun word => str "_" ++ word) (Py.split text)) = Ok pieces
    /\ (Exists (fun t => WordPieceTokenizer.token2idx self !! t = None)
          (concat pieces) ->
        WordPieceTokenizer.encode self text display_progress_bar
        = Raise KeyError)
    /\ (Forall (fun t => is_Some (WordPieceTokenizer.token2idx self !! t))
          (concat pieces) ->
        exists ids,
          WordPieceTokenizer.encode self text display_progress_bar = Ok ids
          /\ Forall2
               (fun t i => WordPieceTokenizer.token2idx self !! t = Some i)
               (concat pieces) ids).
Proof.
  destruct (tokenize_words_total self
              (map (fun word => str "_" ++ word) (Py.split text)))
    as [pieces Hm].
  exists pieces. split; [assumption|].
  rewrite encode_unfold, Hm. cbn [mbind outcome_bind].
  split; [apply lookup_missing | apply lookup_all].
Qed.

(** X25. [_get_independed_bigrams] accepts the top-ranked bigram whatever
    it is, so a ranking that is not empty yields a merge; on an empty
    ranking it returns two empty lists. *)
Theorem top_bigram_merged (element : WordPieceTrainer.element)
    (rest : list WordPieceTrainer.element) :
  WordPieceTrainer._get_independed_bigrams [] = ([], [])
  /\ exists more,
       (WordPieceTrainer._get_independed_bigrams (element :: rest)).1
       = WordPieceTrainer.bigram element :: more.
Proof.
  split; [reflexivity|].
  destruct (independed_prefix (element :: rest)) as [tl Hpre].
  destruct ((WordPieceTrainer._get_independed_bigrams (element :: rest)).1)
    as [|b more] eqn:Hm.
  - destruct (WordPieceTrainer._get_independed_bigrams (element :: rest))
      as [merges new] eqn:Hsel.
    simpl in Hm. subst merges. now apply independed_none in Hsel.
  - simpl in Hpre. injection Hpre as <- _. now exists more.
Qed.

(** X26. [encode] does not depend on [valid_symbols], nor on
    [display_progress_bar]: the result of [text.replace(symb, '<unk>')] is
    dropped, so no character of the text is replaced. *)
Theorem encode_ignores_valid_symbols `{SetOrder}
    (valid1 valid2 idx2token : list pystr) (token2idx : gmap pystr Z)
    (text : pystr) (bar1 bar2 : bool) :
  WordPieceTokenizer.encode
    {| WordPieceTokenizer.valid_symbols := valid1;
       WordPieceTokenizer.idx2token := idx2token;
       WordPieceTokenizer.token2idx := token2idx |} text bar1
  = WordPieceTokenizer.encode
      {| WordPieceTokenizer.valid_symbols := valid2;
         WordPieceTokenizer.idx2token := idx2token;
         WordPieceTokenizer.token2idx := token2idx |} text bar2.
Proof. rewrite !encode_unfold. reflexivity. Qed.

(** X27. A trainer is fitted once: [fit] leaves [self.valid_symbols] set,
    so a second call of [fit] on the same trainer raises [NameError],
    whatever the text. *)
Theorem fit_twice_raises `{SetOrder} (fuel : nat)
    (trainer : WordPieceTrainer.t) (text : pystr) (d : Disk)
    (toks : list pystr) (trainer' : WordPieceTrainer.t) (d' : Disk)
    (fuel2 : nat) (text2 : pystr) (d2 : Disk) :
  WordPieceTrainer.fit fuel trainer text d = Ok (toks, trainer', d') ->
  WordPieceTrainer.fit fuel2 trainer' text2 d2 = Raise NameError.
Proof.
  intros Hfit.
  destruct (fit_history _ _ _ _ _ _ _ Hfit)
    as (st & d0 & Htrain & _ & Hv).
  apply train_Ok_inv in Htrain as (_ & _ & _ & _ & _ & Halias & _).
  rewrite fit_unfold. unfold WordPieceTrainer.train.
  now rewrite Hv, Halias.
Qed.

(** [fit] on ["ab ab b"], and again on the trainer it leaves. *)
Lemma fit_twice_raises_witness :
  exists toks trainer' d',
    @WordPieceTrainer.fit remove_dups_order 2
      (WordPieceTrainer.__init__ 5 None None) (str "ab ab b") empty_disk
    = Ok (toks, trainer', d')
    /\ @WordPieceTrainer.fit remove_dups_order 2 trainer' (str "ab ab b") d'
       = Raise NameError.
Proof.
  eexists _, _, _. split.
  - vm_compute. reflexivity.
  - eapply (@fit_twice_raises remove_dups_order 2
              (WordPieceTrainer.__init__ 5 None None) (str "ab ab b")
              empty_disk).
    vm_compute. reflexivity.
Defined.
